(** * True Skate map exporter: the mesh generators, the transform stage,
      the scene assembler and the format writer of [exporter.py]

    Conventions of the embedding.

    - Python [float] values are idealised as real numbers ([R]): no rounding,
      no overflow, no NaN and no signed zero.  [math.cos], [math.sin],
      [math.sqrt] and [math.pi] are [cos], [sin], [sqrt] and [PI].  The
      statements that need a tolerance are about [Rounded.transform_vertex],
      the transform with its arithmetic as a parameter, in any arithmetic
      that rounds as [rounded] says.
    - Python [int] values are [Z].  A list index or a [len] is a [Z] obtained
      from the length of the list.
    - A raised exception is a value of [Exn]; code that can raise lives in the
      [result] monad, code that also prints or writes files in the [IO] monad,
      whose store (the scene being built, the console, the files) survives a
      raise, as mutations do in Python.  A division by a non-zero literal is
      written with the total division of [R]; every other division can raise
      [ZeroDivisionError].  Failures of the file system are left out.
    - A Python [for] loop over a list is a left fold over that list whose
      accumulator holds the variables the loop body assigns.
    - A formatted string whose text depends on how Python prints a float is
      kept as a list of pieces ([fstring]); the float fields stay symbolic.
    - Strings are ASCII and paths are POSIX paths. *)

From Stdlib Require Import Reals Lra Lia ZArith List String Ascii.
From stdpp Require Import gmap strings pretty.
Import ListNotations.

Open Scope Z_scope.
Open Scope R_scope.
Open Scope string_scope.
Open Scope list_scope.

(** ** Exceptions *)

Inductive Exn : Type :=
| ZeroDivisionError
| KeyError (key : string)
| FileNotFoundError (path : string).

Inductive result (A : Type) : Type :=
| Ok (a : A)
| Raise (e : Exn).

Arguments Ok {A} a.
Arguments Raise {A} e.

#[global] Instance result_ret : MRet result := fun _ a => Ok a.
#[global] Instance result_bind : MBind result := fun _ _ f m =>
  match m with
  | Ok a => f a
  | Raise e => Raise e
  end.

(** [for x in l: s = body(s, x)], where the body may raise. *)
Fixpoint for_each {S A : Type} (body : S -> A -> result S) (l : list A) (s : S)
  : result S :=
  match l with
  | [] => Ok s
  | a :: l' => s' ← body s a; for_each body l' s'
  end.

(** Python's [a / b] on floats. *)
Definition float_div (a b : R) : result R :=
  if Req_dec_T b 0 then Raise ZeroDivisionError else Ok (a / b).

(** Python's [i / n] on two ints (true division). *)
Definition int_div (i n : Z) : result R :=
  if Z.eq_dec n 0%Z then Raise ZeroDivisionError else Ok (IZR i / IZR n).

(** ** Builtins *)

(** [len(l)] *)
Definition len {A : Type} (l : list A) : Z := Z.of_nat (length l).

(** [range(n)] *)
Definition range (n : Z) : list Z := seqZ 0%Z n.

(** [enumerate(l)] *)
Definition enumerate {A : Type} (l : list A) : list (Z * A) :=
  zip (range (len l)) l.

(** [str(n)] of an int. *)
Definition str (n : Z) : string := pretty n.

(** ** Data structures *)

Module Vertex.
Record t : Type := mk {
  x : R; y : R; z : R;
  nx : R; ny : R; nz : R;
  u : R; v : R;
  r : Z; g : Z; b : Z; a : Z
}.
End Vertex.

Abbreviation Vertex := Vertex.t.

(** [Vertex(x=.., y=.., z=.., nx=.., ny=.., nz=.., u=.., v=..)]: the colour
    takes its defaults, opaque white. *)
Definition vertex (x y z nx ny nz u v : R) : Vertex :=
  Vertex.mk x y z nx ny nz u v 255 255 255 255.

Record Mesh : Type := mkMesh {
  vertices : list Vertex;
  indices : list Z;
  material_index : Z
}.

(** [box.material_index = k] *)
Definition set_material_index (k : Z) (m : Mesh) : Mesh :=
  mkMesh (vertices m) (indices m) k.

(** ** Object generators *)

Definition generate_box (width height depth offset_x offset_y offset_z : R)
  : Mesh :=
  let hw := width / 2 in
  let hh := height / 2 in
  let hd := depth / 2 in
  let corners : list (R * R * R) := [
    (- hw + offset_x, - hh + offset_y, - hd + offset_z);
    (  hw + offset_x, - hh + offset_y, - hd + offset_z);
    (  hw + offset_x,   hh + offset_y, - hd + offset_z);
    (- hw + offset_x,   hh + offset_y, - hd + offset_z);
    (- hw + offset_x, - hh + offset_y,   hd + offset_z);
    (  hw + offset_x, - hh + offset_y,   hd + offset_z);
    (  hw + offset_x,   hh + offset_y,   hd + offset_z);
    (- hw + offset_x,   hh + offset_y,   hd + offset_z)
  ] in
  let faces : list (list nat * (R * R * R)) := [
    ([0; 1; 2; 3]%nat, (0, 0, -1));
    ([5; 4; 7; 6]%nat, (0, 0, 1));
    ([4; 0; 3; 7]%nat, (-1, 0, 0));
    ([1; 5; 6; 2]%nat, (1, 0, 0));
    ([3; 2; 6; 7]%nat, (0, 1, 0));
    ([4; 5; 1; 0]%nat, (0, -1, 0))
  ] in
  let '(vertices, indices) :=
    fold_left
      (fun '(vertices, indices) '(face_corners, normal) =>
         let base := len vertices in
         let vertices :=
           fold_left
             (fun vertices '(i, ci) =>
                (* every [ci] is a literal below 8: no IndexError *)
                let c := nth ci corners (0, 0, 0) in
                let u := if bool_decide (i ∈ [1; 2]%Z) then 1.0 else 0.0 in
                let v := if bool_decide (i ∈ [2; 3]%Z) then 1.0 else 0.0 in
                vertices ++ [vertex c.1.1 c.1.2 c.2
                                    normal.1.1 normal.1.2 normal.2 u v])
             (enumerate face_corners) vertices in
         (vertices,
          indices ++ [base; base + 1; base + 2; base; base + 2; base + 3]%Z))
      faces ([], []) in
  mkMesh vertices indices 0.

Definition generate_quarter_pipe (radius width : R) (segments : Z)
  : result Mesh :=
  (* curved surface *)
  vertices ←
    for_each
      (fun vertices i =>
         t ← int_div i segments;
         let angle := (PI / 2) * t in
         let x := radius * (1 - cos angle) in
         let y := radius * sin angle in
         let nx := - cos angle in
         let ny := sin angle in
         u ← int_div i segments;
         Ok (vertices ++ [vertex (x - radius) y (- width / 2) nx ny 0 u 0;
                          vertex (x - radius) y (width / 2) nx ny 0 u 1]))
      (range (segments + 1)) [];
  let indices :=
    fold_left
      (fun indices i =>
         let base := (i * 2)%Z in
         indices ++ [base; base + 2; base + 3; base; base + 3; base + 1]%Z)
      (range segments) [] in
  (* side panels *)
  let side_start := len vertices in
  vertices ←
    for_each
      (fun vertices i =>
         t ← int_div i segments;
         let angle := (PI / 2) * t in
         let x := radius * (1 - cos angle) in
         let y := radius * sin angle in
         u ← float_div x radius;
         v ← float_div y radius;
         Ok (vertices ++ [vertex (x - radius) y (- width / 2) 0 0 (-1) u v]))
      (range (segments + 1)) vertices;
  let vertices :=
    vertices ++ [vertex (- radius) 0 (- width / 2) 0 0 (-1) 0 0] in
  let vertices :=
    vertices ++ [vertex 0 radius (- width / 2) 0 0 (-1) 1 1] in
  let bottom_left := (len vertices - 2)%Z in
  let indices :=
    fold_left
      (fun indices i =>
         indices ++ [bottom_left; side_start + i; side_start + i + 1]%Z)
      (range segments) indices in
  let right_start := len vertices in
  vertices ←
    for_each
      (fun vertices i =>
         t ← int_div i segments;
         let angle := (PI / 2) * t in
         let x := radius * (1 - cos angle) in
         let y := radius * sin angle in
         u ← float_div x radius;
         v ← float_div y radius;
         Ok (vertices ++ [vertex (x - radius) y (width / 2) 0 0 1 u v]))
      (range (segments + 1)) vertices;
  let vertices := vertices ++ [vertex (- radius) 0 (width / 2) 0 0 1 0 0] in
  let vertices := vertices ++ [vertex 0 radius (width / 2) 0 0 1 1 1] in
  let bottom_right := (len vertices - 2)%Z in
  let indices :=
    fold_left
      (fun indices i =>
         indices ++ [bottom_right; right_start + i + 1; right_start + i]%Z)
      (range segments) indices in
  Ok (mkMesh vertices indices 1).

(** The nested helper of [generate_pyramid]. *)
Definition calc_normal (p1 p2 p3 : R * R * R) : R * R * R :=
  let ax := p2.1.1 - p1.1.1 in
  let ay := p2.1.2 - p1.1.2 in
  let az := p2.2 - p1.2 in
  let bx := p3.1.1 - p1.1.1 in
  let by_ := p3.1.2 - p1.1.2 in
  let bz := p3.2 - p1.2 in
  let nx := ay * bz - az * by_ in
  let ny := az * bx - ax * bz in
  let nz := ax * by_ - ay * bx in
  let length := sqrt (nx * nx + ny * ny + nz * nz) in
  if Rlt_dec 0 length
  then (nx / length, ny / length, nz / length)
  else (0, 1, 0).

Definition generate_pyramid (base_radius height : R) : result Mesh :=
  let corners : list (R * R * R) := [
    (- base_radius, 0, - base_radius);
    (  base_radius, 0, - base_radius);
    (  base_radius, 0,   base_radius);
    (- base_radius, 0,   base_radius)
  ] in
  let apex : R * R * R := (0, height, 0) in
  let faces : list (nat * nat) := [(0, 1); (1, 2); (2, 3); (3, 0)]%nat in
  let '(vertices, indices) :=
    fold_left
      (fun '(vertices, indices) '(c1, c2) =>
         let p1 := nth c1 corners (0, 0, 0) in
         let p2 := nth c2 corners (0, 0, 0) in
         let p3 := apex in
         let normal := calc_normal p1 p2 p3 in
         let base := len vertices in
         let vertices :=
           vertices ++ [vertex p1.1.1 p1.1.2 p1.2
                               normal.1.1 normal.1.2 normal.2 0 0] in
         let vertices :=
           vertices ++ [vertex p2.1.1 p2.1.2 p2.2
                               normal.1.1 normal.1.2 normal.2 1 0] in
         let vertices :=
           vertices ++ [vertex p3.1.1 p3.1.2 p3.2
                               normal.1.1 normal.1.2 normal.2 0.5 1] in
         (vertices, indices ++ [base; base + 1; base + 2]%Z))
      faces ([], []) in
  (* bottom face *)
  let base := len vertices in
  vertices ←
    for_each
      (fun vertices c =>
         u ← float_div (c.1.1 + base_radius) (2 * base_radius);
         v ← float_div (c.2 + base_radius) (2 * base_radius);
         Ok (vertices ++ [vertex c.1.1 c.1.2 c.2 0 (-1) 0 u v]))
      corners vertices;
  let indices :=
    indices ++ [base; base + 2; base + 1; base; base + 3; base + 2]%Z in
  Ok (mkMesh vertices indices 2).

Definition generate_rail (length height radius : R) : Mesh :=
  let segments := 8%Z in
  (* main rail bar *)
  let '(vertices, indices) :=
    fold_left
      (fun '(vertices, indices) i =>
         let angle1 := 2 * PI * IZR i / IZR segments in
         let angle2 := 2 * PI * IZR (i + 1) / IZR segments in
         let y1 := height + radius * cos angle1 in
         let z1 := radius * sin angle1 in
         let y2 := height + radius * cos angle2 in
         let z2 := radius * sin angle2 in
         let nx1 := cos angle1 in
         let nz1 := sin angle1 in
         let nx2 := cos angle2 in
         let nz2 := sin angle2 in
         let base := len vertices in
         let vertices :=
           vertices ++ [vertex (- length / 2) y1 z1 0 nx1 nz1
                               0 (IZR i / IZR segments)] in
         let vertices :=
           vertices ++ [vertex (- length / 2) y2 z2 0 nx2 nz2
                               0 (IZR (i + 1) / IZR segments)] in
         let vertices :=
           vertices ++ [vertex (length / 2) y1 z1 0 nx1 nz1
                               1 (IZR i / IZR segments)] in
         let vertices :=
           vertices ++ [vertex (length / 2) y2 z2 0 nx2 nz2
                               1 (IZR (i + 1) / IZR segments)] in
         (vertices,
          indices ++ [base; base + 1; base + 3; base; base + 3; base + 2]%Z))
      (range segments) ([], []) in
  (* support posts *)
  let support_radius := 0.05 in
  let support_positions := [- length / 2 + 0.5; length / 2 - 0.5] in
  let '(vertices, indices) :=
    fold_left
      (fun acc sx =>
         fold_left
           (fun '(vertices, indices) i =>
              let angle1 := 2 * PI * IZR i / IZR segments in
              let angle2 := 2 * PI * IZR (i + 1) / IZR segments in
              let x1 := sx + support_radius * cos angle1 in
              let z1 := support_radius * sin angle1 in
              let x2 := sx + support_radius * cos angle2 in
              let z2 := support_radius * sin angle2 in
              let base := len vertices in
              let vertices :=
                vertices ++ [vertex x1 0 z1 (cos angle1) 0 (sin angle1) 0 0] in
              let vertices :=
                vertices ++ [vertex x2 0 z2 (cos angle2) 0 (sin angle2) 1 0] in
              let vertices :=
                vertices ++ [vertex x1 height z1
                                    (cos angle1) 0 (sin angle1) 0 1] in
              let vertices :=
                vertices ++ [vertex x2 height z2
                                    (cos angle2) 0 (sin angle2) 1 1] in
              (vertices,
               indices
                 ++ [base; base + 2; base + 3; base; base + 3; base + 1]%Z))
           (range segments) acc)
      support_positions (vertices, indices) in
  mkMesh vertices indices 3.

Definition generate_stairs (num_steps : Z) (step_height step_depth step_width : R)
  : Mesh :=
  let '(all_vertices, all_indices) :=
    fold_left
      (fun '(all_vertices, all_indices) i =>
         let box :=
           generate_box step_width step_height step_depth
                        0 (step_height * (IZR i + 0.5)) (- step_depth * IZR i) in
         let base := len all_vertices in
         (all_vertices ++ vertices box,
          all_indices ++ map (fun idx => (idx + base)%Z) (indices box)))
      (range num_steps) ([], []) in
  mkMesh all_vertices all_indices 1.

Definition generate_ledge (length height depth : R) : Mesh :=
  let box := generate_box length height depth 0 (height / 2) 0 in
  set_material_index 1 box.

Definition generate_kicker (length height width : R) : Mesh :=
  let segments := 8%Z in
  (* curved surface: the divisor [segments] is the literal 8 *)
  let vertices :=
    fold_left
      (fun vertices i =>
         let t := IZR i / IZR segments in
         let x := (1 - t) ^ 2 * 0 + 2 * (1 - t) * t * (length * 0.75)
                  + t ^ 2 * length in
         let y := (1 - t) ^ 2 * 0 + 2 * (1 - t) * t * 0 + t ^ 2 * height in
         let dx := 2 * (1 - t) * (length * 0.75 - 0)
                   + 2 * t * (length - length * 0.75) in
         let dy := 2 * t * height in
         let length_n := sqrt (dx * dx + dy * dy) in
         let nx_ny :=
           if Rlt_dec 0 length_n
           then (- dy / length_n, dx / length_n)
           else (0, 1) in
         let nx := nx_ny.1 in
         let ny := nx_ny.2 in
         let u := t in
         vertices ++ [vertex x y (- width / 2) nx ny 0 u 0;
                      vertex x y (width / 2) nx ny 0 u 1])
      (range (segments + 1)) [] in
  let indices :=
    fold_left
      (fun indices i =>
         let base := (i * 2)%Z in
         indices ++ [base; base + 2; base + 3; base; base + 3; base + 1]%Z)
      (range segments) [] in
  (* bottom face *)
  let base := len vertices in
  let vertices :=
    vertices ++ [vertex 0 0 (- width / 2) 0 (-1) 0 0 0;
                 vertex 0 0 (width / 2) 0 (-1) 0 0 1;
                 vertex length 0 (width / 2) 0 (-1) 0 1 1;
                 vertex length 0 (- width / 2) 0 (-1) 0 1 0] in
  let indices :=
    indices ++ [base; base + 1; base + 2; base; base + 2; base + 3]%Z in
  (* back face *)
  let base := len vertices in
  let vertices :=
    vertices ++ [vertex length 0 (- width / 2) 1 0 0 0 0;
                 vertex length 0 (width / 2) 1 0 0 1 0;
                 vertex length height (width / 2) 1 0 0 1 1;
                 vertex length height (- width / 2) 1 0 0 0 1] in
  let indices :=
    indices ++ [base; base + 1; base + 2; base; base + 2; base + 3]%Z in
  mkMesh vertices indices 4.

Definition generate_manual_pad (length height width : R) : Mesh :=
  let box := generate_box length height width 0 (height / 2) 0 in
  set_material_index 1 box.

Definition generate_bench : Mesh :=
  (* seat *)
  let seat := generate_box 2.0 0.1 0.5 0 0.5 0 in
  let all_vertices := [] ++ vertices seat in
  let all_indices := [] ++ indices seat in
  (* legs *)
  let '(all_vertices, all_indices) :=
    fold_left
      (fun '(all_vertices, all_indices) x_offset =>
         let base := len all_vertices in
         let leg := generate_box 0.1 0.5 0.5 x_offset 0.25 0 in
         (all_vertices ++ vertices leg,
          all_indices ++ map (fun idx => (idx + base)%Z) (indices leg)))
      [-0.8; 0.8] (all_vertices, all_indices) in
  mkMesh all_vertices all_indices 5.

Definition generate_ground_flat (size : R) : Mesh :=
  let box := generate_box size 0.5 size 0 (-0.25) 0 in
  set_material_index 0 box.

Definition generate_slope (length height width : R) : Mesh :=
  (* top surface *)
  let vertices :=
    [] ++ [vertex 0 0 (- width / 2) 0 0.894 (-0.447) 0 0;
           vertex 0 0 (width / 2) 0 0.894 (-0.447) 0 1;
           vertex length height (width / 2) 0 0.894 (-0.447) 1 1;
           vertex length height (- width / 2) 0 0.894 (-0.447) 1 0] in
  let indices := [] ++ [0; 1; 2; 0; 2; 3]%Z in
  (* bottom *)
  let base := len vertices in
  let vertices :=
    vertices ++ [vertex 0 0 (- width / 2) 0 (-1) 0 0 0;
                 vertex 0 0 (width / 2) 0 (-1) 0 0 1;
                 vertex length 0 (width / 2) 0 (-1) 0 1 1;
                 vertex length 0 (- width / 2) 0 (-1) 0 1 0] in
  let indices :=
    indices ++ [base; base + 2; base + 1; base; base + 3; base + 2]%Z in
  (* back *)
  let base := len vertices in
  let vertices :=
    vertices ++ [vertex length 0 (- width / 2) 1 0 0 0 0;
                 vertex length 0 (width / 2) 1 0 0 1 0;
                 vertex length height (width / 2) 1 0 0 1 1;
                 vertex length height (- width / 2) 1 0 0 0 1] in
  let indices :=
    indices ++ [base; base + 1; base + 2; base; base + 2; base + 3]%Z in
  (* sides *)
  let base := len vertices in
  let vertices :=
    vertices ++ [vertex 0 0 (- width / 2) 0 0 (-1) 0 0;
                 vertex length 0 (- width / 2) 0 0 (-1) 1 0;
                 vertex length height (- width / 2) 0 0 (-1) 1 1] in
  let indices := indices ++ [base; base + 1; base + 2]%Z in
  let base := len vertices in
  let vertices :=
    vertices ++ [vertex 0 0 (width / 2) 0 0 1 0 0;
                 vertex length height (width / 2) 0 0 1 1 1;
                 vertex length 0 (width / 2) 0 0 1 1 0] in
  let indices := indices ++ [base; base + 1; base + 2]%Z in
  mkMesh vertices indices 1.

(** ** Object type mapping *)

(** A registry entry is called with no argument: every parameter of the
    generator takes its default. *)
Definition Generator : Type := unit -> result Mesh.

Definition OBJECT_GENERATORS : gmap string Generator :=
  list_to_map [
    ("ground-flat", fun _ => Ok (generate_ground_flat 10.0));
    ("ground-slope", fun _ => Ok (generate_slope 5.0 2.0 5.0));
    ("quarter-pipe", fun _ => generate_quarter_pipe 3.0 6.0 12);
    ("half-pipe", fun _ => generate_quarter_pipe 3.0 6.0 12);
    ("kicker", fun _ => Ok (generate_kicker 2.0 1.5 3.0));
    ("pyramid", fun _ => generate_pyramid 3.0 2.0);
    ("rail-flat", fun _ => Ok (generate_rail 6.0 0.8 0.08));
    ("rail-down", fun _ => Ok (generate_rail 6.0 0.8 0.08));
    ("ledge", fun _ => Ok (generate_ledge 5.0 0.6 0.8));
    ("manual-pad", fun _ => Ok (generate_manual_pad 4.0 0.3 2.0));
    ("stairs-3", fun _ => Ok (generate_stairs 3 0.4 1.0 3.0));
    ("stairs-5", fun _ => Ok (generate_stairs 5 0.4 1.0 3.0));
    ("stairs-hubba", fun _ => Ok (generate_stairs 4 0.4 1.0 3.0));
    ("bench", fun _ => Ok generate_bench);
    ("trash-can", fun _ => Ok (generate_box 0.6 0.8 0.6 0 0.4 0))
  ].

(** ** Transform helpers *)

(** A JSON object whose values are numbers, as [position] and [rotation]. *)
Abbreviation dict := (gmap string R).

(** [d.get(key, dflt)] *)
Definition get (d : dict) (key : string) (dflt : R) : R :=
  default dflt (d !! key).

Definition transform_vertex (v : Vertex) (pos rot : dict) (scale : R) : Vertex :=
  (* scale *)
  let x := Vertex.x v * scale in
  let y := Vertex.y v * scale in
  let z := Vertex.z v * scale in
  (* rotate around the Y axis *)
  let angle := get rot "y" 0 in
  let cos_a := cos angle in
  let sin_a := sin angle in
  let new_x := x * cos_a - z * sin_a in
  let new_z := x * sin_a + z * cos_a in
  (* rotate the normal too *)
  let new_nx := Vertex.nx v * cos_a - Vertex.nz v * sin_a in
  let new_nz := Vertex.nx v * sin_a + Vertex.nz v * cos_a in
  (* translate *)
  let ts_scale := 100.0 in
  let final_x := (new_x + get pos "x" 0) * ts_scale in
  let final_y := (y + get pos "y" 0) * ts_scale in
  let final_z := (new_z + get pos "z" 0) * ts_scale in
  Vertex.mk final_x final_y final_z
            new_nx (Vertex.ny v) new_nz
            (Vertex.u v) (Vertex.v v)
            (Vertex.r v) (Vertex.g v) (Vertex.b v) (Vertex.a v).

(** ** The transform in rounded arithmetic *)

(** What the float operations of [transform_vertex] return, as functions on
    the reals: [*], [+], [-], [math.cos] and [math.sin]. *)
Record FloatOps : Type := mkFloatOps {
  fl_mul : R -> R -> R;
  fl_add : R -> R -> R;
  fl_sub : R -> R -> R;
  fl_cos : R -> R;
  fl_sin : R -> R
}.

Module Rounded.
(** [transform_vertex], every operation of it taken from [ops]. *)
Definition transform_vertex (ops : FloatOps) (v : Vertex) (pos rot : dict)
    (scale : R) : Vertex :=
  (* scale *)
  let x := fl_mul ops (Vertex.x v) scale in
  let y := fl_mul ops (Vertex.y v) scale in
  let z := fl_mul ops (Vertex.z v) scale in
  (* rotate around the Y axis *)
  let angle := get rot "y" 0 in
  let cos_a := fl_cos ops angle in
  let sin_a := fl_sin ops angle in
  let new_x := fl_sub ops (fl_mul ops x cos_a) (fl_mul ops z sin_a) in
  let new_z := fl_add ops (fl_mul ops x sin_a) (fl_mul ops z cos_a) in
  (* rotate the normal too *)
  let new_nx :=
    fl_sub ops (fl_mul ops (Vertex.nx v) cos_a)
               (fl_mul ops (Vertex.nz v) sin_a) in
  let new_nz :=
    fl_add ops (fl_mul ops (Vertex.nx v) sin_a)
               (fl_mul ops (Vertex.nz v) cos_a) in
  (* translate *)
  let ts_scale := 100.0 in
  let final_x := fl_mul ops (fl_add ops new_x (get pos "x" 0)) ts_scale in
  let final_y := fl_mul ops (fl_add ops y (get pos "y" 0)) ts_scale in
  let final_z := fl_mul ops (fl_add ops new_z (get pos "z" 0)) ts_scale in
  Vertex.mk final_x final_y final_z
            new_nx (Vertex.ny v) new_nz
            (Vertex.u v) (Vertex.v v)
            (Vertex.r v) (Vertex.g v) (Vertex.b v) (Vertex.a v).
End Rounded.

(** ** Formatted text *)

(** A piece of a formatted string: literal text, a float printed with
    [:.6f], or a JSON number printed with [str]. *)
Inductive Piece : Type :=
| Lit (s : string)
| Fix6 (x : R)
| Num (x : R).

Definition fstring : Type := list Piece.

Definition lit (s : string) : fstring := [Lit s].
Definition fix6 (x : R) : fstring := [Fix6 x].

Definition newline : string := String "010"%char "".
Definition tab : string := String "009"%char "".
Definition dquote : string := String "034"%char "".

(** [sep.join(lines)] *)
Fixpoint join (sep : fstring) (lines : list fstring) : fstring :=
  match lines with
  | [] => []
  | l :: rest =>
      match rest with
      | [] => l
      | _ :: _ => l ++ sep ++ join sep rest
      end
  end.

(** The characters of a formatted string, once the two float formats are
    given. *)
Section Render.
Variable fmt6 : R -> string.
Variable str_num : R -> string.

Definition render_piece (p : Piece) : string :=
  match p with
  | Lit s => s
  | Fix6 x => fmt6 x
  | Num x => str_num x
  end.

Definition render (f : fstring) : string :=
  fold_right (fun p acc => render_piece p +:+ acc) "" f.
End Render.

(** ** The state the exporter works on *)

(** An object descriptor and a park description, as the input interface
    types them: every field is absent or of its declared type, and a
    position or a rotation is a dictionary of numbers with any keys. *)
Module Obj.
Record t : Type := mk {
  type : option string;
  position : option dict;
  rotation : option dict;
  scale : option R
}.
End Obj.

Module Park.
Record t : Type := mk {
  name : option string;
  objects : option (list Obj.t)
}.
End Park.

Record Store : Type := mkStore {
  all_meshes : list Mesh;          (* the list [export_skatepark] builds *)
  stdout : list fstring;           (* one entry per [print] call *)
  files : gmap string fstring;     (* the text files, by path *)
  documents : gmap string Park.t   (* what [json.load] yields, by path *)
}.

(** A computation on the store; the store reached is kept when it raises. *)
Definition IO (A : Type) : Type := Store -> result A * Store.

#[global] Instance IO_ret : MRet IO := fun _ a s => (Ok a, s).
#[global] Instance IO_bind : MBind IO := fun _ _ f m s =>
  match m s with
  | (Ok a, s') => f a s'
  | (Raise e, s') => (Raise e, s')
  end.

Definition raise {A : Type} (e : Exn) : IO A := fun s => (Raise e, s).

Definition lift {A : Type} (r : result A) : IO A :=
  match r with
  | Ok a => mret a
  | Raise e => raise e
  end.

Definition print (line : fstring) : IO unit := fun s =>
  (Ok tt,
   mkStore (all_meshes s) (stdout s ++ [line]) (files s) (documents s)).

(** [with open(path, 'w') as f: f.write(content)] *)
Definition write_file (path : string) (content : fstring) : IO unit := fun s =>
  (Ok tt,
   mkStore (all_meshes s) (stdout s) (<[path := content]> (files s))
           (documents s)).

(** [with open(path, 'r') as f: data = json.load(f)] *)
Definition load_json (path : string) : IO Park.t := fun s =>
  match documents s !! path with
  | Some data => (Ok data, s)
  | None => (Raise (FileNotFoundError path), s)
  end.

(** [os.path.exists(path)]; directories are not modelled. *)
Definition path_exists (path : string) : IO bool := fun s =>
  (Ok (bool_decide (is_Some (files s !! path))), s).

(** [all_meshes = l] *)
Definition set_all_meshes (l : list Mesh) : IO unit := fun s =>
  (Ok tt, mkStore l (stdout s) (files s) (documents s)).

(** [all_meshes.append(m)] *)
Definition append_mesh (m : Mesh) : IO unit := fun s =>
  (Ok tt,
   mkStore (all_meshes s ++ [m]) (stdout s) (files s) (documents s)).

Definition get_all_meshes : IO (list Mesh) := fun s =>
  (Ok (all_meshes s), s).

(** [d[key]] *)
Definition getitem (d : dict) (key : string) : IO R :=
  match d !! key with
  | Some x => mret x
  | None => raise (KeyError key)
  end.

(** [for x in l: body(x)] *)
Fixpoint for_each_io {A : Type} (body : A -> IO unit) (l : list A) : IO unit :=
  match l with
  | [] => mret tt
  | a :: l' => body a;; for_each_io body l'
  end.

(** ** True Skate format writer *)

Definition material_colors : list (Z * Z * Z) := [
  (128, 128, 130);
  (100, 100, 105);
  (85, 85, 90);
  (180, 180, 180);
  (136, 85, 51);
  (139, 69, 19)
]%Z.

(** The value of [lines] when [write_trueskate_txt] writes the file. *)
Definition trueskate_lines (meshes : list Mesh) (textures : list string)
  : list fstring :=
  let total_vertices :=
    fold_left Z.add (map (fun m => len (vertices m)) meshes) 0%Z in
  let lines : list fstring := [] in
  (* header *)
  let lines := lines ++ [lit "84"; lit "65"; lit "83"; lit "75"] in
  let lines := lines ++ [lit "1003 #Version"] in
  let lines := lines ++ [lit "<VIS "] in
  let lines := lines ++ [lit "17"] in
  (* textures *)
  let lines := lines ++ [lit (str (len textures) +:+ " #Num Textures")] in
  let lines := fold_left (fun lines tex => lines ++ [lit tex]) textures lines in
  (* materials *)
  let num_materials := 6%Z in
  let lines := lines ++ [lit (str num_materials +:+ " #Num Materials")] in
  let lines :=
    fold_left
      (fun lines '(i, (r, g, b)) =>
         let lines := lines ++ [lit "#Material"] in
         let lines := lines ++ [lit "1 #Material Type (Solid)"] in
         let lines := lines ++ [lit "#Color"] in
         let lines :=
           lines ++ [lit (str r); lit (str g); lit (str b); lit "255"] in
         let lines := lines ++ [lit "1.000000 #Specular"] in
         let lines := lines ++ [lit "5.000000 #G Blend Sharpness"] in
         let lines := lines ++ [lit "0.800000 #G Blend Level"] in
         let lines := lines ++ [lit "0.500000 #G Blend Mode"] in
         let lines := lines ++ [lit "#G Shadow Color"] in
         let lines :=
           lines ++ [lit "180"; lit "180"; lit "180"; lit "255"] in
         let lines := lines ++ [lit "#G Highlight Color"] in
         let lines :=
           lines ++ [lit "255"; lit "255"; lit "255"; lit "255"] in
         let lines := lines ++ [lit "0 #Texture index"] in
         let lines := lines ++ [lit "0"] in
         lines ++ [lit "0"])
      (enumerate material_colors) lines in
  (* total vertices *)
  let lines := lines ++ [lit (str total_vertices +:+ " #Num Vertices")] in
  (* meshes *)
  let lines :=
    fold_left
      (fun lines mesh =>
         let lines :=
           lines ++ [lit (str (len (indices mesh)) +:+ " #Num Indices")] in
         let lines :=
           lines ++ [lit (str (len (vertices mesh)) +:+ " #Num Vertices")] in
         let lines := lines ++ [lit "#Normals (Flags |= 0x1)"] in
         let lines := lines ++ [lit "1 #Flags"] in
         let lines := lines ++ [lit "2 #Num Colour Sets"] in
         let lines := lines ++ [lit "2 #Num Uv Sets"] in
         lines ++ [lit "#Mesh"])
      meshes lines in
  (* vertex data *)
  let lines :=
    fold_left
      (fun lines mesh =>
         fold_left
           (fun lines v =>
              let lines := lines ++ [fix6 (Vertex.nx v)] in
              let lines := lines ++ [fix6 (Vertex.ny v)] in
              let lines := lines ++ [fix6 (Vertex.nz v)] in
              let lines := lines ++ [fix6 (Vertex.x v)] in
              let lines := lines ++ [fix6 (Vertex.y v)] in
              let lines := lines ++ [fix6 (Vertex.z v)] in
              let lines := lines ++ [fix6 (Vertex.u v)] in
              let lines := lines ++ [fix6 (Vertex.v v)] in
              let lines := lines ++ [fix6 (Vertex.u v)] in
              let lines := lines ++ [fix6 (Vertex.v v)] in
              let lines :=
                lines ++ [lit (str (Vertex.r v)); lit (str (Vertex.g v));
                          lit (str (Vertex.b v)); lit (str (Vertex.a v))] in
              lines ++ [lit "255"; lit "255"; lit "255"; lit "255"])
           (vertices mesh) lines)
      meshes lines in
  (* indices *)
  fold_left
    (fun lines mesh =>
       fold_left (fun lines idx => lines ++ [lit (str idx)])
                 (indices mesh) lines)
    meshes lines.

Definition write_trueskate_txt (meshes : list Mesh) (textures : list string)
    (output_path : string) : IO unit :=
  let lines := trueskate_lines meshes textures in
  write_file output_path (join (lit newline) lines);;
  print (lit ("Wrote " +:+ output_path +:+ " (" +:+ str (len lines)
              +:+ " lines)")).

(** ** Metadata descriptor *)

(** [s] between double quotes. *)
Definition q (s : string) : string := dquote +:+ s +:+ dquote.

Definition mod_data (name txt_filename : string) : string :=
  let t1 := tab in
  let t3 := tab +:+ tab +:+ tab in
  let t4 := tab +:+ tab +:+ tab +:+ tab in
  String.concat newline [
    q "modWorldInfo" +:+ ":";
    "{";
    t1 +:+ q "name" +:+ ":" +:+ q name +:+ ",";
    t1 +:+ q "fileName" +:+ ":" +:+ q txt_filename;
    t1 +:+ q "startPositions" +:+ ":";
    t1 +:+ "[";
    t3 +:+ q "startPosition" +:+ ":";
    t3 +:+ "{ ";
    t4 +:+ q "x" +:+ ":0.0, ";
    t4 +:+ q "y" +:+ ":0.0, ";
    t4 +:+ q "z" +:+ ":5.0";
    t4 +:+ q "angle" +:+ ":0.0";
    t3 +:+ "}";
    t3 +:+ q "startPosition" +:+ ":";
    t3 +:+ "{ ";
    t4 +:+ q "x" +:+ ":10.0, ";
    t4 +:+ q "y" +:+ ":0.0, ";
    t4 +:+ q "z" +:+ ":0.0";
    t4 +:+ q "angle" +:+ ":90.0";
    t3 +:+ "}";
    t1 +:+ "],";
    t1 +:+ q "skyBoxUp" +:+ ":" +:+ q "sky_top.jpg";
    t1 +:+ q "skyBoxForward" +:+ ":" +:+ q "sky_front.jpg";
    t1 +:+ q "skyBoxBack" +:+ ":" +:+ q "sky_back.jpg";
    t1 +:+ q "skyBoxLeft" +:+ ":" +:+ q "sky_left.jpg";
    t1 +:+ q "skyBoxRight" +:+ ":" +:+ q "sky_right.jpg";
    "";
    t1 +:+ q "specularBoxUp" +:+ ":" +:+ q "sky_top.jpg";
    t1 +:+ q "specularBoxForward" +:+ ":" +:+ q "sky_front.jpg";
    t1 +:+ q "specularBoxBack" +:+ ":" +:+ q "sky_back.jpg";
    t1 +:+ q "specularBoxLeft" +:+ ":" +:+ q "sky_left.jpg";
    t1 +:+ q "specularBoxRight" +:+ ":" +:+ q "sky_right.jpg";
    t1 +:+ q "specularBoxDown" +:+ ":" +:+ q "sky_bottom.jpg";
    "";
    t1 +:+ q "skyAngle" +:+ ":90.0";
    t1 +:+ q "gamma" +:+ ":1.0";
    "";
    t1 +:+ q "colorBackground" +:+ ": { " +:+ q "r" +:+ ": 0.5, "
       +:+ q "g" +:+ ": 0.7, " +:+ q "b" +:+ ": 1.0 },";
    t1 +:+ q "colorLightingDirect" +:+ ": { " +:+ q "r" +:+ ": 1.0, "
       +:+ q "g" +:+ ": 0.95, " +:+ q "b" +:+ ": 0.9},";
    t1 +:+ q "colorLightingAmbient" +:+ ": { " +:+ q "r" +:+ ": 0.4, "
       +:+ q "g" +:+ ": 0.45, " +:+ q "b" +:+ ": 0.5},";
    t1 +:+ q "lightDirection" +:+ ": { " +:+ q "x" +:+ ": 45.0, "
       +:+ q "y" +:+ ": 60.0, " +:+ q "z" +:+ ":180.0 }";
    "}"
  ].

Definition write_mod_json (name txt_filename output_path : string) : IO unit :=
  write_file output_path (lit (mod_data name txt_filename));;
  print (lit ("Wrote " +:+ output_path)).

(** ** String and path helpers *)

Fixpoint string_map (f : ascii -> ascii) (s : string) : string :=
  match s with
  | EmptyString => EmptyString
  | String c s' => String (f c) (string_map f s')
  end.

(** [s.replace(old, new)] for one-character [old] and [new]. *)
Definition replace (old new : ascii) (s : string) : string :=
  string_map (fun c => if Ascii.eqb c old then new else c) s.

(** [s.lower()] on ASCII text. *)
Definition lower (s : string) : string :=
  string_map
    (fun c =>
       let n := nat_of_ascii c in
       if ((65 <=? n) && (n <=? 90))%nat then ascii_of_nat (n + 32) else c)
    s.

Fixpoint endswith (c : ascii) (s : string) : bool :=
  match s with
  | EmptyString => false
  | String a s' =>
      match s' with
      | EmptyString => Ascii.eqb a c
      | String _ _ => endswith c s'
      end
  end.

(** [os.path.join(a, b)] of [posixpath]. *)
Definition os_path_join (a b : string) : string :=
  if String.prefix "/" b then b
  else if String.eqb a "" || endswith "/" a then a +:+ b
  else a +:+ "/" +:+ b.

(** ** Main export function *)

(** The body of the loop over [objects]. *)
Definition process_object (obj : Obj.t) : IO unit :=
  let obj_type := default "ground-flat" (Obj.type obj) in
  let pos : dict :=
    default (list_to_map [("x", 0); ("y", 0); ("z", 0)]) (Obj.position obj) in
  let rot : dict := default (list_to_map [("y", 0)]) (Obj.rotation obj) in
  let scale := default 1.0 (Obj.scale obj) in
  let generator : option Generator := OBJECT_GENERATORS !! obj_type in
  match generator with
  | Some generator =>
      mesh ← lift (generator tt);
      let transformed_verts :=
        map (fun v => transform_vertex v pos rot scale) (vertices mesh) in
      append_mesh (mkMesh transformed_verts (indices mesh)
                          (material_index mesh));;
      px ← getitem pos "x";
      py ← getitem pos "y";
      pz ← getitem pos "z";
      print [Lit ("  + " +:+ obj_type +:+ " at ("); Num px; Lit ", ";
             Num py; Lit ", "; Num pz; Lit ")"]
  | None =>
      print (lit ("  ! Unknown object type: " +:+ obj_type))
  end.

Definition export_skatepark (json_path output_dir : string) : IO string :=
  data ← load_json json_path;
  let park_name := default "My Skatepark" (Park.name data) in
  let objects := default [] (Park.objects data) in
  print (lit ("Exporting '" +:+ park_name +:+ "' with "
              +:+ str (len objects) +:+ " objects..."));;
  (* [os.makedirs] has no effect here: directories are not modelled *)
  let safe_name := lower (replace " " "_" park_name) in
  let output_path := os_path_join output_dir safe_name in
  set_all_meshes [];;
  (* a ground plane first *)
  let ground := generate_ground_flat 50.0 in
  let ground_mesh :=
    mkMesh
      (map (fun v =>
              transform_vertex v
                (list_to_map [("x", 0); ("y", -0.25); ("z", 0)])
                (list_to_map [("y", 0)]) 1.0)
           (vertices ground))
      (indices ground) 0 in
  append_mesh ground_mesh;;
  for_each_io process_object objects;;
  let textures := ["concrete_gray"] in
  let txt_filename := safe_name +:+ ".txt" in
  meshes ← get_all_meshes;
  write_trueskate_txt meshes textures (os_path_join output_path txt_filename);;
  write_mod_json park_name txt_filename (os_path_join output_path "_mod.json");;
  let placeholder_texture := os_path_join output_path "concrete_gray.jpg" in
  present ← path_exists placeholder_texture;
  (if present : bool
   then mret tt
   else
     write_file (os_path_join output_path "TEXTURES_NEEDED.txt")
       [Lit ("Add the following texture files to this folder:" +:+ newline);
        Lit ("- concrete_gray.jpg (gray concrete texture)" +:+ newline);
        Lit ("- sky_top.jpg, sky_front.jpg, sky_back.jpg, sky_left.jpg, "
             +:+ "sky_right.jpg (skybox)" +:+ newline)]);;
  print (lit (newline +:+ "[OK] Export complete! Files saved to: "
              +:+ output_path));;
  print (lit ("   - " +:+ txt_filename +:+ " (geometry)"));;
  print (lit "   - _mod.json (metadata)");;
  print (lit (newline +:+ "Next steps:"));;
  print (lit "1. Add texture files to the folder");;
  print (lit "2. Zip the folder contents");;
  print (lit "3. Upload to mod.io or transfer to your phone");;
  mret output_path.

(** * Properties *)

(** ** Well-formed meshes and the generator catalogue *)

(** The mesh invariant: the index list is made of whole triangles and every
    index points into the mesh's own vertex list. *)
Definition mesh_wf (m : Mesh) : Prop :=
  (len (indices m) mod 3 = 0)%Z
  /\ Forall (fun i => (0 <= i < len (vertices m))%Z) (indices m).

(** The same invariant as a check that computes. *)
Definition mesh_wfb (m : Mesh) : bool :=
  (len (indices m) mod 3 =? 0)%Z
  && forallb (fun i => (0 <=? i)%Z && (i <? len (vertices m))%Z) (indices m).

(** A call of one of the generators of the catalogue, with its arguments. *)
Inductive GeneratorCall : Type :=
| CallBox (width height depth offset_x offset_y offset_z : R)
| CallQuarterPipe (radius width : R) (segments : Z)
| CallPyramid (base_radius height : R)
| CallRail (length height radius : R)
| CallStairs (num_steps : Z) (step_height step_depth step_width : R)
| CallLedge (length height depth : R)
| CallKicker (length height width : R)
| CallManualPad (length height width : R)
| CallBench
| CallGroundFlat (size : R)
| CallSlope (length height width : R).

Definition call (c : GeneratorCall) : result Mesh :=
  match c with
  | CallBox w h d ox oy oz => Ok (generate_box w h d ox oy oz)
  | CallQuarterPipe r w n => generate_quarter_pipe r w n
  | CallPyramid b h => generate_pyramid b h
  | CallRail l h r => Ok (generate_rail l h r)
  | CallStairs n h d w => Ok (generate_stairs n h d w)
  | CallLedge l h d => Ok (generate_ledge l h d)
  | CallKicker l h w => Ok (generate_kicker l h w)
  | CallManualPad l h w => Ok (generate_manual_pad l h w)
  | CallBench => Ok generate_bench
  | CallGroundFlat s => Ok (generate_ground_flat s)
  | CallSlope l h w => Ok (generate_slope l h w)
  end.

(** Positive dimensions and positive segment or step counts. *)
Definition valid_parameters (c : GeneratorCall) : Prop :=
  match c with
  | CallBox w h d _ _ _ => 0 < w /\ 0 < h /\ 0 < d
  | CallQuarterPipe r w n => 0 < r /\ 0 < w /\ (0 < n)%Z
  | CallPyramid b h => 0 < b /\ 0 < h
  | CallRail l h r => 0 < l /\ 0 < h /\ 0 < r
  | CallStairs n h d w => (0 < n)%Z /\ 0 < h /\ 0 < d /\ 0 < w
  | CallLedge l h d => 0 < l /\ 0 < h /\ 0 < d
  | CallKicker l h w => 0 < l /\ 0 < h /\ 0 < w
  | CallManualPad l h w => 0 < l /\ 0 < h /\ 0 < w
  | CallBench => True
  | CallGroundFlat s => 0 < s
  | CallSlope l h w => 0 < l /\ 0 < h /\ 0 < w
  end.

(** ** Concatenation with index rebasing, as the specification words it *)

(** The meshes [ms] laid one after the other: the vertices are appended and
    each mesh's indices are shifted by [running], the number of vertices
    laid before it. *)
Fixpoint concat_rebased (running : Z) (ms : list Mesh) : list Vertex * list Z :=
  match ms with
  | [] => ([], [])
  | m :: rest =>
      let tail := concat_rebased (running + len (vertices m)) rest in
      (vertices m ++ tail.1,
       map (fun old_index => (old_index + running)%Z) (indices m) ++ tail.2)
  end.

(** Step [i] of a flight of stairs: a box raised by [step_height*(i+0.5)]
    and pushed back by [step_depth*i]. *)
Definition step_box (step_height step_depth step_width : R) (i : Z) : Mesh :=
  generate_box step_width step_height step_depth
               0 (step_height * (IZR i + 0.5)) (- step_depth * IZR i).

(** ** The transform stage, as the specification words it *)

Definition vec3 : Type := R * R * R.

Definition scale_by (s : R) (p : vec3) : vec3 :=
  (p.1.1 * s, p.1.2 * s, p.2 * s).

Definition rotate_y (theta : R) (p : vec3) : vec3 :=
  (p.1.1 * cos theta - p.2 * sin theta,
   p.1.2,
   p.1.1 * sin theta + p.2 * cos theta).

Definition translate_by (offset p : vec3) : vec3 :=
  (p.1.1 + offset.1.1, p.1.2 + offset.1.2, p.2 + offset.2).

Definition unit_scale : R := 100.0.

Definition to_engine_units (p : vec3) : vec3 :=
  (p.1.1 * unit_scale, p.1.2 * unit_scale, p.2 * unit_scale).

Definition position_of (v : Vertex) : vec3 :=
  (Vertex.x v, Vertex.y v, Vertex.z v).

Definition normal_of (v : Vertex) : vec3 :=
  (Vertex.nx v, Vertex.ny v, Vertex.nz v).

(** [v] with a new position and a new normal, everything else kept. *)
Definition with_position_normal (v : Vertex) (p n : vec3) : Vertex :=
  Vertex.mk p.1.1 p.1.2 p.2 n.1.1 n.1.2 n.2
            (Vertex.u v) (Vertex.v v)
            (Vertex.r v) (Vertex.g v) (Vertex.b v) (Vertex.a v).

(** Scale, then rotate, then translate, then convert the units; the normal
    is only rotated. *)
Definition transform_stage (v : Vertex) (p : vec3) (theta s : R) : Vertex :=
  with_position_normal v
    (to_engine_units (translate_by p (rotate_y theta (scale_by s (position_of v)))))
    (rotate_y theta (normal_of v)).

(** The placement a pair of dictionaries stands for, with the defaults of
    [dict.get]. *)
Definition offset_of (pos : dict) : vec3 :=
  (get pos "x" 0, get pos "y" 0, get pos "z" 0).

Definition angle_of (rot : dict) : R := get rot "y" 0.

(** The placements of the round trip: no offset, a turn by [theta]. *)
Definition origin : dict := list_to_map [("x", 0); ("y", 0); ("z", 0)].
Definition turn (theta : R) : dict := list_to_map [("y", theta)].

(** ** Tolerances *)

(** [a'] is within [e] of [a]. *)
Definition within (e a' a : R) : Prop := Rabs (a' - a) <= e.

(** An arithmetic of unit roundoff [u] and smallest normal magnitude [tiny]:
    a product, a sum or a difference is off by at most [u] times the
    magnitude of the exact result, or of [tiny] when the result is smaller;
    a cosine or a sine is off by at most [u].  Binary64 arithmetic rounding
    to nearest is of this kind with [u = 2^-53] and [tiny = 2^-1022] on
    operands whose result does not overflow, with a [math.cos] and a
    [math.sin] accurate to one unit in the last place. *)
Record rounded (u tiny : R) (ops : FloatOps) : Prop := mk_rounded {
  mul_rounded : forall a b,
    within (u * (Rabs (a * b) + tiny)) (fl_mul ops a b) (a * b);
  add_rounded : forall a b,
    within (u * (Rabs (a + b) + tiny)) (fl_add ops a b) (a + b);
  sub_rounded : forall a b,
    within (u * (Rabs (a - b) + tiny)) (fl_sub ops a b) (a - b);
  cos_rounded : forall a, within u (fl_cos ops a) (cos a);
  sin_rounded : forall a, within u (fl_sin ops a) (sin a)
}.

(** The arithmetic of the reals. *)
Definition exact_ops : FloatOps := mkFloatOps Rmult Rplus Rminus cos sin.

(** An arithmetic that is not exact: every product, sum and difference is
    too large by the factor [1 + 2^-53]. *)
Definition inflated_ops : FloatOps :=
  mkFloatOps (fun a b => a * b * (1 + / 9007199254740992))
             (fun a b => (a + b) * (1 + / 9007199254740992))
             (fun a b => (a - b) * (1 + / 9007199254740992))
             cos sin.

(** The size of a pair of coordinates that a turn about the Y axis mixes. *)
Definition norm1 (a b : R) : R := Rabs a + Rabs b.

(** [v'] is [v] up to [exz] on X and Z, [ey] on Y and [en] on the X and Z
    components of the normal; the Y component of the normal, the UV
    coordinates and the colour are the same. *)
Definition vertex_within (exz ey en : R) (v' v : Vertex) : Prop :=
  within exz (Vertex.x v') (Vertex.x v)
  /\ within ey (Vertex.y v') (Vertex.y v)
  /\ within exz (Vertex.z v') (Vertex.z v)
  /\ within en (Vertex.nx v') (Vertex.nx v)
  /\ Vertex.ny v' = Vertex.ny v
  /\ within en (Vertex.nz v') (Vertex.nz v)
  /\ (Vertex.u v', Vertex.v v') = (Vertex.u v, Vertex.v v)
  /\ (Vertex.r v', Vertex.g v', Vertex.b v', Vertex.a v')
     = (Vertex.r v, Vertex.g v, Vertex.b v, Vertex.a v).

(** ** The layout of the geometry file, as the specification words it *)

Definition front_matter (textures : list string) : list fstring :=
  [lit "84"; lit "65"; lit "83"; lit "75";
   lit "1003 #Version"; lit "<VIS "; lit "17";
   lit (str (len textures) +:+ " #Num Textures")]
  ++ map lit textures.

Definition material_block (color : Z * Z * Z) : list fstring :=
  [lit "#Material"; lit "1 #Material Type (Solid)"; lit "#Color";
   lit (str color.1.1); lit (str color.1.2); lit (str color.2); lit "255";
   lit "1.000000 #Specular"; lit "5.000000 #G Blend Sharpness";
   lit "0.800000 #G Blend Level"; lit "0.500000 #G Blend Mode";
   lit "#G Shadow Color"; lit "180"; lit "180"; lit "180"; lit "255";
   lit "#G Highlight Color"; lit "255"; lit "255"; lit "255"; lit "255";
   lit "0 #Texture index"; lit "0"; lit "0"].

Definition material_table : list fstring :=
  lit "6 #Num Materials" :: flat_map material_block material_colors.

Definition total_vertices (meshes : list Mesh) : Z :=
  fold_right Z.add 0%Z (map (fun m => len (vertices m)) meshes).

Definition vertex_count_line (meshes : list Mesh) : fstring :=
  lit (str (total_vertices meshes) +:+ " #Num Vertices").

Definition mesh_header (m : Mesh) : list fstring :=
  [lit (str (len (indices m)) +:+ " #Num Indices");
   lit (str (len (vertices m)) +:+ " #Num Vertices");
   lit "#Normals (Flags |= 0x1)";
   lit "1 #Flags";
   lit "2 #Num Colour Sets";
   lit "2 #Num Uv Sets";
   lit "#Mesh"].

Definition vertex_lines (v : Vertex) : list fstring :=
  [fix6 (Vertex.nx v); fix6 (Vertex.ny v); fix6 (Vertex.nz v);
   fix6 (Vertex.x v); fix6 (Vertex.y v); fix6 (Vertex.z v);
   fix6 (Vertex.u v); fix6 (Vertex.v v);
   fix6 (Vertex.u v); fix6 (Vertex.v v);
   lit (str (Vertex.r v)); lit (str (Vertex.g v));
   lit (str (Vertex.b v)); lit (str (Vertex.a v));
   lit "255"; lit "255"; lit "255"; lit "255"].

Definition vertex_block (m : Mesh) : list fstring :=
  flat_map vertex_lines (vertices m).

Definition index_block (m : Mesh) : list fstring :=
  map (fun idx => lit (str idx)) (indices m).

(** ** The scene assembler, as the specification words it *)

(** A generated mesh placed in the world: every vertex transformed, the
    index list and the material index kept. *)
Definition place (mesh : Mesh) (pos rot : dict) (scale : R) : Mesh :=
  mkMesh (map (fun v => transform_vertex v pos rot scale) (vertices mesh))
         (indices mesh) (material_index mesh).

Definition default_position : dict := list_to_map [("x", 0); ("y", 0); ("z", 0)].
Definition default_rotation : dict := list_to_map [("y", 0)].

(** The placement of a descriptor, with the defaults of [obj.get]. *)
Definition place_object (mesh : Mesh) (obj : Obj.t) : Mesh :=
  place mesh
        (default default_position (Obj.position obj))
        (default default_rotation (Obj.rotation obj))
        (default 1.0 (Obj.scale obj)).

(** The ground plane every scene starts with. *)
Definition ground_plane : Mesh :=
  set_material_index 0
    (place (generate_ground_flat 50.0)
           (list_to_map [("x", 0); ("y", -0.25); ("z", 0)])
           (list_to_map [("y", 0)]) 1.0).

(** The console line that reports a skipped descriptor. *)
Definition unknown_type_line (obj_type : string) : fstring :=
  lit ("  ! Unknown object type: " +:+ obj_type).

(** Two meshes that differ at most in their material index. *)
Definition same_geometry (m1 m2 : Mesh) : Prop :=
  vertices m1 = vertices m2 /\ indices m1 = indices m2.

(** Two stores that differ at most in the console and in the documents. *)
Definition same_scene_and_files (s1 s2 : Store) : Prop :=
  all_meshes s1 = all_meshes s2 /\ files s1 = files s2.

(** [s] with another document under [path]. *)
Definition with_document (path : string) (data : Park.t) (s : Store) : Store :=
  mkStore (all_meshes s) (stdout s) (files s) (<[path := data]> (documents s)).

(** ** [export_skatepark], cut at its loop *)

(** The console line that reports a placed descriptor. *)
Definition placed_line (obj_type : string) (px py pz : R) : fstring :=
  [Lit ("  + " +:+ obj_type +:+ " at ("); Num px; Lit ", ";
   Num py; Lit ", "; Num pz; Lit ")"].

(** What the loop body adds to the console for a descriptor of the
    registered type [obj_type]: the line of the placed object, or nothing
    when its position lacks a key and the line raises. *)
Definition console_of (obj_type : string) (obj : Obj.t) : list fstring :=
  let pos : dict := default default_position (Obj.position obj) in
  match pos !! "x", pos !! "y", pos !! "z" with
  | Some px, Some py, Some pz => [placed_line obj_type px py pz]
  | _, _, _ => []
  end.

(** The store when the loop over the objects starts: the opening line is
    printed and the scene holds the ground plane. *)
Definition at_loop_start (data : Park.t) (s : Store) : Store :=
  mkStore
    [ground_plane]
    (stdout s
       ++ [lit ("Exporting '" +:+ default "My Skatepark" (Park.name data)
                +:+ "' with "
                +:+ str (len (default [] (Park.objects data)))
                +:+ " objects...")])
    (files s) (documents s).

Definition safe_name_of (park_name : string) : string :=
  lower (replace " " "_" park_name).

(** What [export_skatepark] does once the loop is over. *)
Definition after_loop (park_name output_dir : string) : IO string :=
  let safe_name := safe_name_of park_name in
  let output_path := os_path_join output_dir safe_name in
  let textures := ["concrete_gray"] in
  let txt_filename := safe_name +:+ ".txt" in
  meshes ← get_all_meshes;
  write_trueskate_txt meshes textures (os_path_join output_path txt_filename);;
  write_mod_json park_name txt_filename (os_path_join output_path "_mod.json");;
  let placeholder_texture := os_path_join output_path "concrete_gray.jpg" in
  present ← path_exists placeholder_texture;
  (if present : bool
   then mret tt
   else
     write_file (os_path_join output_path "TEXTURES_NEEDED.txt")
       [Lit ("Add the following texture files to this folder:" +:+ newline);
        Lit ("- concrete_gray.jpg (gray concrete texture)" +:+ newline);
        Lit ("- sky_top.jpg, sky_front.jpg, sky_back.jpg, sky_left.jpg, "
             +:+ "sky_right.jpg (skybox)" +:+ newline)]);;
  print (lit (newline +:+ "[OK] Export complete! Files saved to: "
              +:+ output_path));;
  print (lit ("   - " +:+ txt_filename +:+ " (geometry)"));;
  print (lit "   - _mod.json (metadata)");;
  print (lit (newline +:+ "Next steps:"));;
  print (lit "1. Add texture files to the folder");;
  print (lit "2. Zip the folder contents");;
  print (lit "3. Upload to mod.io or transfer to your phone");;
  mret output_path.

(** A computation that reads neither the console nor the documents and
    never erases a console line: run from two stores with the same scene
    and the same files it gives the same result, the same scene and the
    same files, and every line already printed is still there afterwards. *)
Definition tame {A : Type} (m : IO A) : Prop :=
  (forall s1 s2,
     same_scene_and_files s1 s2 ->
     (m s1).1 = (m s2).1 /\ same_scene_and_files (m s1).2 (m s2).2)
  /\ (forall s line, line ∈ stdout s -> line ∈ stdout (m s).2).

(** A computation that leaves the scene as it found it. *)
Definition keeps_scene {A : Type} (m : IO A) : Prop :=
  forall s, all_meshes (m s).2 = all_meshes s.

(** ** Example inputs *)

(** A store holding one document, [park.json], with the given objects and
    no name. *)
Definition store_with (objects : list Obj.t) : Store :=
  mkStore [] [] ∅ {["park.json" := Park.mk None (Some objects)]}.

(** [{"type": "not-a-real-type"}] *)
Definition unknown_object : Obj.t :=
  Obj.mk (Some "not-a-real-type") None None None.

(** [{}] *)
Definition untyped_object : Obj.t := Obj.mk None None None None.

(** [{"type": "ledge", "position": {"x": 1}}] *)
Definition ledge_at_x : Obj.t :=
  Obj.mk (Some "ledge") (Some {["x" := 1]}) None None.

(** [{"type": "ledge", "position": {"x": 1, "y": 0, "z": 2}, "scale": 2.0}] *)
Definition ledge_placed : Obj.t :=
  Obj.mk (Some "ledge") (Some (list_to_map [("x", 1); ("y", 0); ("z", 2)]))
         None (Some 2.0).

(** ** Vectors and vertex properties *)

Definition sub3 (p q : vec3) : vec3 :=
  (p.1.1 - q.1.1, p.1.2 - q.1.2, p.2 - q.2).

Definition dot (p q : vec3) : R :=
  p.1.1 * q.1.1 + p.1.2 * q.1.2 + p.2 * q.2.

Definition cross (a b : vec3) : vec3 :=
  (a.1.2 * b.2 - a.2 * b.1.2,
   a.2 * b.1.1 - a.1.1 * b.2,
   a.1.1 * b.1.2 - a.1.2 * b.1.1).

(** The colour a vertex gets when none is given. *)
Definition white (v : Vertex) : Prop :=
  Vertex.r v = 255%Z /\ Vertex.g v = 255%Z
  /\ Vertex.b v = 255%Z /\ Vertex.a v = 255%Z.

(** The normal of the vertex has length 1. *)
Definition unit_normal (v : Vertex) : Prop :=
  dot (normal_of v) (normal_of v) = 1.

(** The position of the vertex lies in the box of the given centre and
    dimensions. *)
Definition in_box (centre dims : vec3) (v : Vertex) : Prop :=
  centre.1.1 - dims.1.1 / 2 <= Vertex.x v <= centre.1.1 + dims.1.1 / 2
  /\ centre.1.2 - dims.1.2 / 2 <= Vertex.y v <= centre.1.2 + dims.1.2 / 2
  /\ centre.2 - dims.2 / 2 <= Vertex.z v <= centre.2 + dims.2 / 2.

(** A vertex as the generators build them: white, with a normal of
    length 1. *)
Definition sound_vertex (v : Vertex) : Prop := white v /\ unit_normal v.

(** ** The files of an export *)

(** The characters of a string. *)
Definition chars (s : string) : list ascii := list_ascii_of_string s.

(** An ASCII capital letter. *)
Definition is_upper (c : ascii) : bool :=
  ((65 <=? nat_of_ascii c) && (nat_of_ascii c <=? 90))%nat.

(** [s.isascii()] *)
Definition isascii (s : string) : bool :=
  forallb (fun c => (nat_of_ascii c <? 128)%nat) (chars s).

Definition output_path_of (park_name output_dir : string) : string :=
  os_path_join output_dir (safe_name_of park_name).

Definition geometry_path (park_name output_dir : string) : string :=
  os_path_join (output_path_of park_name output_dir)
               (safe_name_of park_name +:+ ".txt").

Definition metadata_path (park_name output_dir : string) : string :=
  os_path_join (output_path_of park_name output_dir) "_mod.json".

Definition placeholder_path (park_name output_dir : string) : string :=
  os_path_join (output_path_of park_name output_dir) "concrete_gray.jpg".

Definition textures_note_path (park_name output_dir : string) : string :=
  os_path_join (output_path_of park_name output_dir) "TEXTURES_NEEDED.txt".

(** The three lines of [TEXTURES_NEEDED.txt]. *)
Definition textures_note : fstring :=
  [Lit ("Add the following texture files to this folder:" +:+ newline);
   Lit ("- concrete_gray.jpg (gray concrete texture)" +:+ newline);
   Lit ("- sky_top.jpg, sky_front.jpg, sky_back.jpg, sky_left.jpg, "
        +:+ "sky_right.jpg (skybox)" +:+ newline)].

(** ** The scene of an export *)

(** The key of the position that the console line of a placed descriptor
    reads first and does not find. *)
Definition first_missing_key (obj : Obj.t) : option string :=
  let pos := default default_position (Obj.position obj) in
  match pos !! "x" with
  | None => Some "x"
  | Some _ =>
      match pos !! "y" with
      | None => Some "y"
      | Some _ =>
          match pos !! "z" with
          | None => Some "z"
          | Some _ => None
          end
      end
  end.

(** The mesh a descriptor adds to the scene: the mesh of its generator,
    placed; nothing when its type is not in the registry. *)
Definition placed_mesh (obj : Obj.t) : option Mesh :=
  let generator : option Generator :=
    OBJECT_GENERATORS !! default "ground-flat" (Obj.type obj) in
  match generator with
  | Some generator =>
      match generator tt with
      | Ok mesh => Some (place_object mesh obj)
      | Raise _ => None
      end
  | None => None
  end.

(** The descriptor goes through the loop without raising: its type is not
    registered, or its position has the three keys. *)
Definition passes (obj : Obj.t) : Prop :=
  placed_mesh obj = None \/ first_missing_key obj = None.

(** The park name and the object list of a document, with the defaults of
    [data.get]. *)
Definition park_name_of (data : Park.t) : string :=
  default "My Skatepark" (Park.name data).

Definition objects_of (data : Park.t) : list Obj.t :=
  default [] (Park.objects data).

(** The scene of an object list: the ground plane, then the placed mesh of
    every registered descriptor, in the order of the list. *)
Definition scene_of (objects : list Obj.t) : list Mesh :=
  ground_plane :: omap placed_mesh objects.

(** The text of the geometry file of a scene. *)
Definition geometry_text (scene : list Mesh) : fstring :=
  join (lit newline) (trueskate_lines scene ["concrete_gray"]).

(** A mesh fit for the geometry file: its index count is a multiple of 3,
    its indices are local to it, its vertices are opaque white. *)
Definition exported_mesh (m : Mesh) : Prop :=
  mesh_wf m /\ Forall white (vertices m).

Definition total_indices (meshes : list Mesh) : Z :=
  fold_right Z.add 0%Z (map (fun m => len (indices m)) meshes).

(** * Proofs *)

(** ** Loops that only append *)

Section Appending.
Context {A B : Type}.

(** A loop whose body appends [f x] to its accumulator appends the
    chunks of all the elements, in order. *)
Lemma fold_left_appending (body : list A -> B -> list A) (f : B -> list A) :
  (forall acc x, body acc x = acc ++ f x) ->
  forall l init, fold_left body l init = init ++ flat_map f l.
Proof.
  intros Hbody l. induction l as [|x l IH]; intros init; simpl.
  - now rewrite app_nil_r.
  - rewrite IH, Hbody. now rewrite <- app_assoc.
Qed.

Lemma Forall_flat_map_chunks (P : A -> Prop) (f : B -> list A) (l : list B) :
  (forall x, x ∈ l -> Forall P (f x)) -> Forall P (flat_map f l).
Proof.
  induction l as [|x l IH]; intros H; simpl.
  - constructor.
  - apply Forall_app. split.
    + apply H. left.
    + apply IH. intros y Hy. apply H. now right.
Qed.

Lemma length_flat_map_chunks (f : B -> list A) (k : nat) (l : list B) :
  (forall x, x ∈ l -> length (f x) = k) ->
  length (flat_map f l) = (k * length l)%nat.
Proof.
  induction l as [|x l IH]; intros H; simpl.
  - lia.
  - rewrite length_app, IH, H.
    + lia.
    + left.
    + intros y Hy. apply H. now right.
Qed.
End Appending.

(** ** The layout of the geometry file *)

Lemma sum_vertices_total (meshes : list Mesh) :
  fold_left Z.add (map (fun m => len (vertices m)) meshes) 0%Z
  = total_vertices meshes.
Proof.
  unfold total_vertices.
  rewrite <- fold_left_rev_right.
  generalize (map (fun m => len (vertices m)) meshes). intros l.
  induction l as [|x l IH]; simpl; [reflexivity|].
  rewrite fold_right_app. simpl. rewrite <- IH.
  generalize (rev l). intros r. clear IH.
  induction r as [|y r IHr]; simpl; lia.
Qed.

(** The lines of the file are six segments laid one after the other: the
    front matter, the material table, the global vertex count, all the mesh
    headers, all the vertex blocks, all the index blocks. *)
Lemma trueskate_lines_layout (meshes : list Mesh) (textures : list string) :
  trueskate_lines meshes textures
  = front_matter textures
    ++ material_table
    ++ [vertex_count_line meshes]
    ++ flat_map mesh_header meshes
    ++ flat_map vertex_block meshes
    ++ flat_map index_block meshes.
Proof.
  unfold trueskate_lines.
  rewrite (fold_left_appending _ index_block).
  2:{ intros acc m. unfold index_block.
      now rewrite (fold_left_appending _ (fun idx => [lit (str idx)])). }
  rewrite (fold_left_appending _ vertex_block).
  2:{ intros acc m. unfold vertex_block.
      apply fold_left_appending. intros acc' v.
      rewrite <- !app_assoc. reflexivity. }
  rewrite (fold_left_appending _ mesh_header).
  2:{ intros acc m. rewrite <- !app_assoc. reflexivity. }
  rewrite (fold_left_appending _ (fun p : Z * (Z * Z * Z) => material_block p.2)).
  2:{ intros acc [i [[r g] b]]. rewrite <- !app_assoc. reflexivity. }
  rewrite (fold_left_appending _ (fun tex => [lit tex])); [|reflexivity].
  rewrite sum_vertices_total.
  unfold front_matter, material_table, vertex_count_line.
  rewrite <- !app_assoc. reflexivity.
Qed.

(** What [write_trueskate_txt] leaves under [output_path]. *)
Lemma write_trueskate_txt_file meshes textures output_path s :
  files (write_trueskate_txt meshes textures output_path s).2 !! output_path
  = Some (join (lit newline) (trueskate_lines meshes textures)).
Proof.
  unfold write_trueskate_txt, mbind, IO_bind, write_file, print. simpl.
  apply lookup_insert_eq.
Qed.

(** C1: for every scene and texture list, the text written by the format
    writer is the newline-join of lines in which the seven-line header
    blocks of all meshes (index count, vertex count, normals marker, flags,
    colour-set count, UV-set count, mesh marker) come one per mesh, in scene
    order and consecutively, and all of them stand before the first
    vertex-data line of any mesh. *)
Theorem headers_precede_vertex_data
    (meshes : list Mesh) (textures : list string) (output_path : string)
    (s : Store) :
  files (write_trueskate_txt meshes textures output_path s).2 !! output_path
  = Some (join (lit newline)
            ((front_matter textures ++ material_table
                ++ [vertex_count_line meshes])
             ++ flat_map
                  (fun m =>
                     [lit (str (len (indices m)) +:+ " #Num Indices");
                      lit (str (len (vertices m)) +:+ " #Num Vertices");
                      lit "#Normals (Flags |= 0x1)";
                      lit "1 #Flags";
                      lit "2 #Num Colour Sets";
                      lit "2 #Num Uv Sets";
                      lit "#Mesh"])
                  meshes
             ++ flat_map (fun m => flat_map vertex_lines (vertices m)) meshes
             ++ flat_map index_block meshes)).
Proof.
  rewrite write_trueskate_txt_file, trueskate_lines_layout.
  rewrite <- !app_assoc. reflexivity.
Qed.

(** C3: for every scene, the text written by the format writer ends with
    the index blocks, one per mesh in scene order, and the block of a mesh
    is the decimal form of that mesh's own indices, one per line, as they
    stand in the mesh: no offset of a preceding mesh is added. *)
Theorem index_blocks_are_mesh_local
    (meshes : list Mesh) (textures : list string) (output_path : string)
    (s : Store) :
  files (write_trueskate_txt meshes textures output_path s).2 !! output_path
  = Some (join (lit newline)
            ((front_matter textures ++ material_table
                ++ [vertex_count_line meshes]
                ++ flat_map mesh_header meshes
                ++ flat_map vertex_block meshes)
             ++ flat_map
                  (fun m => map (fun idx => lit (str idx)) (indices m))
                  meshes)).
Proof.
  rewrite write_trueskate_txt_file, trueskate_lines_layout.
  rewrite <- !app_assoc. reflexivity.
Qed.

(** Two triangles with the same local indices: the second index block
    repeats 0, 1, 2 and is not shifted to 3, 4, 5. *)
Example index_blocks_not_rebased :
  let triangle :=
    mkMesh [vertex 0 0 0 0 1 0 0 0; vertex 1 0 0 0 1 0 1 0;
            vertex 0 0 1 0 1 0 0 1] [0; 1; 2]%Z 0 in
  flat_map index_block [triangle; triangle]
  = [lit "0"; lit "1"; lit "2"; lit "0"; lit "1"; lit "2"].
Proof. reflexivity. Qed.

(** Meshes of the same geometry are serialized by the same lines. *)
Lemma trueskate_lines_same_geometry ms1 ms2 textures :
  Forall2 same_geometry ms1 ms2 ->
  trueskate_lines ms1 textures = trueskate_lines ms2 textures.
Proof.
  intros H. rewrite !trueskate_lines_layout.
  assert (Hparts :
    total_vertices ms1 = total_vertices ms2
    /\ flat_map mesh_header ms1 = flat_map mesh_header ms2
    /\ flat_map vertex_block ms1 = flat_map vertex_block ms2
    /\ flat_map index_block ms1 = flat_map index_block ms2).
  { induction H as [|m1 m2 l1 l2 [Hv Hi] _ (Ht & Hh & Hvb & Hib)].
    - repeat split.
    - change (total_vertices (m1 :: l1))
        with (len (vertices m1) + total_vertices l1)%Z.
      change (total_vertices (m2 :: l2))
        with (len (vertices m2) + total_vertices l2)%Z.
      cbn [flat_map]. rewrite Ht, Hh, Hvb, Hib.
      unfold mesh_header, vertex_block, index_block.
      rewrite Hv, Hi. repeat split. }
  destruct Hparts as (Ht & Hh & Hvb & Hib).
  unfold vertex_count_line. now rewrite Ht, Hh, Hvb, Hib.
Qed.

(** C9: two scenes whose meshes differ at most in their material index,
    written with the same texture list, give the same file, character for
    character, and the same console line: nothing the format writer does
    depends on a material index. *)
Theorem material_index_not_serialized
    (ms1 ms2 : list Mesh) (textures : list string) (output_path : string)
    (s : Store) :
  Forall2 same_geometry ms1 ms2 ->
  write_trueskate_txt ms1 textures output_path s
  = write_trueskate_txt ms2 textures output_path s
  /\ forall fmt6 str_num,
       render fmt6 str_num
         <$> files (write_trueskate_txt ms1 textures output_path s).2
             !! output_path
       = render fmt6 str_num
           <$> files (write_trueskate_txt ms2 textures output_path s).2
               !! output_path.
Proof.
  intros H.
  assert (Heq : write_trueskate_txt ms1 textures output_path s
                = write_trueskate_txt ms2 textures output_path s).
  { unfold write_trueskate_txt.
    now rewrite (trueskate_lines_same_geometry ms1 ms2 textures H). }
  split; [exact Heq|]. intros fmt6 str_num. now rewrite Heq.
Qed.

Lemma material_index_not_serialized_witness :
  Forall2 same_geometry
          [mkMesh [vertex 1 2 3 0 1 0 0 0] [0; 0; 0]%Z 1]
          [mkMesh [vertex 1 2 3 0 1 0 0 0] [0; 0; 0]%Z 4]
  /\ write_trueskate_txt [mkMesh [vertex 1 2 3 0 1 0 0 0] [0; 0; 0]%Z 1]
       ["concrete_gray"] "park.txt" (mkStore [] [] ∅ ∅)
     = write_trueskate_txt [mkMesh [vertex 1 2 3 0 1 0 0 0] [0; 0; 0]%Z 4]
         ["concrete_gray"] "park.txt" (mkStore [] [] ∅ ∅).
Proof.
  assert (H : Forall2 same_geometry
                [mkMesh [vertex 1 2 3 0 1 0 0 0] [0; 0; 0]%Z 1]
                [mkMesh [vertex 1 2 3 0 1 0 0 0] [0; 0; 0]%Z 4]).
  { repeat constructor. }
  split; [exact H|].
  exact (proj1 (material_index_not_serialized _ _ ["concrete_gray"] "park.txt"
                  (mkStore [] [] ∅ ∅) H)).
Defined.

(** ** The transform stage *)

(** C2: for every vertex, placement dictionaries and scale, the new vertex
    returned by [transform_vertex] has the position scaled, then rotated
    about the Y axis, then translated, then multiplied by the unit scale
    100.0, and the normal rotated about the Y axis only; the rotation leaves
    both Y components alone, and the UV coordinates and the colour are those
    of the input. *)
Theorem transform_vertex_order (v : Vertex) (pos rot : dict) (scale : R) :
  transform_vertex v pos rot scale
  = transform_stage v (offset_of pos) (angle_of rot) scale
  /\ position_of (transform_vertex v pos rot scale)
     = ((Vertex.x v * scale * cos (angle_of rot)
         - Vertex.z v * scale * sin (angle_of rot) + get pos "x" 0) * 100.0,
        (Vertex.y v * scale + get pos "y" 0) * 100.0,
        (Vertex.x v * scale * sin (angle_of rot)
         + Vertex.z v * scale * cos (angle_of rot) + get pos "z" 0) * 100.0)
  /\ normal_of (transform_vertex v pos rot scale)
     = (Vertex.nx v * cos (angle_of rot) - Vertex.nz v * sin (angle_of rot),
        Vertex.ny v,
        Vertex.nx v * sin (angle_of rot) + Vertex.nz v * cos (angle_of rot))
  /\ Vertex.u (transform_vertex v pos rot scale) = Vertex.u v
  /\ Vertex.v (transform_vertex v pos rot scale) = Vertex.v v
  /\ (Vertex.r (transform_vertex v pos rot scale),
      Vertex.g (transform_vertex v pos rot scale),
      Vertex.b (transform_vertex v pos rot scale),
      Vertex.a (transform_vertex v pos rot scale))
     = (Vertex.r v, Vertex.g v, Vertex.b v, Vertex.a v).
Proof. repeat split. Qed.

Lemma get_origin (key : string) : get origin key 0 = 0.
Proof.
  unfold get, origin.
  destruct (list_to_map [("x", 0); ("y", 0); ("z", 0)] !! key) as [x|] eqn:E;
    [|reflexivity].
  apply elem_of_list_to_map_2 in E. simpl.
  rewrite !elem_of_cons in E. rewrite elem_of_nil in E.
  destruct E as [E|[E|[E|[]]]]; congruence.
Qed.

Lemma get_turn (theta : R) : get (turn theta) "y" 0 = theta.
Proof. reflexivity. Qed.

(** A turn by [theta] followed by a turn by [- theta], both at the origin
    and at scale 1: the normal is back where it was and the position is
    the original one multiplied by 100 twice. *)
Lemma turn_and_back (v : Vertex) (theta : R) :
  transform_vertex (transform_vertex v origin (turn theta) 1.0)
                   origin (turn (- theta)) 1.0
  = with_position_normal v
      (scale_by (100.0 * 100.0) (position_of v)) (normal_of v).
Proof.
  unfold transform_vertex. rewrite !get_turn, !get_origin.
  rewrite cos_neg, sin_neg.
  pose proof (sin2_cos2 theta) as H. unfold Rsqr in H.
  unfold with_position_normal, scale_by, position_of, normal_of. simpl.
  destruct v as [x y z nx ny nz u v r g b a]. simpl.
  set (c := cos theta) in *. set (sn := sin theta) in *.
  assert (E100 : 100.0 = 100) by lra. assert (E1 : 1.0 = 1) by lra.
  rewrite E100, E1.
  f_equal.
  - replace (x * (100 * 100)) with (x * (100 * 100) * (sn * sn + c * c))
      by (rewrite H; ring). ring.
  - ring.
  - replace (z * (100 * 100)) with (z * (100 * 100) * (sn * sn + c * c))
      by (rewrite H; ring). ring.
  - replace nx with (nx * (sn * sn + c * c)) at 3 by (rewrite H; ring). ring.
  - replace nz with (nz * (sn * sn + c * c)) at 3 by (rewrite H; ring). ring.
Qed.

(** *** Rounded arithmetic *)

Lemma within_weaken (e e' a' a : R) : within e a' a -> e <= e' -> within e' a' a.
Proof. unfold within. lra. Qed.

Lemma within_refl (a : R) : within 0 a a.
Proof. unfold within. rewrite Rminus_diag, Rabs_R0. lra. Qed.

Lemma within_trans (e1 e2 a b c : R) :
  within e1 a b -> within e2 b c -> within (e1 + e2) a c.
Proof.
  unfold within. intros H1 H2.
  replace (a - c) with ((a - b) + (b - c)) by ring.
  eapply Rle_trans; [apply Rabs_triang|lra].
Qed.

Lemma within_abs (e a' a A : R) :
  within e a' a -> Rabs a <= A -> Rabs a' <= A + e.
Proof.
  unfold within. intros H1 H2.
  replace a' with (a + (a' - a)) by ring.
  eapply Rle_trans; [apply Rabs_triang|lra].
Qed.

Lemma Rabs_mult_le (a b A B : R) :
  Rabs a <= A -> Rabs b <= B -> Rabs (a * b) <= A * B.
Proof.
  intros Ha Hb. rewrite Rabs_mult.
  apply Rmult_le_compat; [apply Rabs_pos|apply Rabs_pos|exact Ha|exact Hb].
Qed.

Lemma norm1_turn (p q c s M : R) :
  norm1 p q <= M -> Rabs c <= 1 -> Rabs s <= 1 ->
  Rabs (p * c - q * s) <= M /\ Rabs (p * s + q * c) <= M.
Proof.
  unfold norm1. intros HM Hc Hs.
  pose proof (Rabs_mult_le p c _ _ (Rle_refl _) Hc) as H1.
  pose proof (Rabs_mult_le q s _ _ (Rle_refl _) Hs) as H2.
  pose proof (Rabs_mult_le p s _ _ (Rle_refl _) Hs) as H3.
  pose proof (Rabs_mult_le q c _ _ (Rle_refl _) Hc) as H4.
  split.
  - replace (p * c - q * s) with (p * c + - (q * s)) by ring.
    eapply Rle_trans; [apply Rabs_triang|]. rewrite Rabs_Ropp. lra.
  - eapply Rle_trans; [apply Rabs_triang|]; lra.
Qed.

Section Rounding.
Variable ops : FloatOps.
Variables u tiny : R.
Hypothesis u_small : 0 <= u <= / 1000.
Hypothesis tiny_nonneg : 0 <= tiny.
Hypothesis ops_rounded : rounded u tiny ops.

(** The error of a product of two approximations. *)
Lemma fl_mul_within (ea eb A B a' a b' b : R) :
  within ea a' a -> within eb b' b -> Rabs a <= A -> Rabs b <= B ->
  within (ea * (B + eb) + A * eb + u * ((A + ea) * (B + eb) + tiny))
         (fl_mul ops a' b') (a * b).
Proof.
  intros Ha Hb HA HB.
  pose proof (within_abs _ _ _ _ Ha HA) as HA'.
  pose proof (within_abs _ _ _ _ Hb HB) as HB'.
  assert (Hexact : within (ea * (B + eb) + A * eb) (a' * b') (a * b)).
  { unfold within in *.
    replace (a' * b' - a * b) with ((a' - a) * b' + a * (b' - b)) by ring.
    eapply Rle_trans; [apply Rabs_triang|].
    apply Rplus_le_compat; now apply Rabs_mult_le. }
  replace (ea * (B + eb) + A * eb + u * ((A + ea) * (B + eb) + tiny))
    with (u * ((A + ea) * (B + eb) + tiny) + (ea * (B + eb) + A * eb))
    by ring.
  apply (within_trans _ _ _ (a' * b')); [|exact Hexact].
  eapply within_weaken; [apply (mul_rounded _ _ _ ops_rounded)|].
  apply Rmult_le_compat_l; [lra|].
  apply Rplus_le_compat_r. now apply Rabs_mult_le.
Qed.

(** The error of a sum and of a difference of two approximations. *)
Lemma fl_add_within (ea eb S a' a b' b : R) :
  within ea a' a -> within eb b' b -> Rabs (a + b) <= S ->
  within (ea + eb + u * (S + ea + eb + tiny)) (fl_add ops a' b') (a + b).
Proof.
  intros Ha Hb HS.
  assert (Hexact : within (ea + eb) (a' + b') (a + b)).
  { unfold within in *.
    replace (a' + b' - (a + b)) with ((a' - a) + (b' - b)) by ring.
    eapply Rle_trans; [apply Rabs_triang|lra]. }
  pose proof (within_abs _ _ _ _ Hexact HS) as HS'.
  replace (ea + eb + u * (S + ea + eb + tiny))
    with (u * (S + ea + eb + tiny) + (ea + eb)) by ring.
  apply (within_trans _ _ _ (a' + b')); [|exact Hexact].
  eapply within_weaken; [apply (add_rounded _ _ _ ops_rounded)|].
  apply Rmult_le_compat_l; lra.
Qed.

Lemma fl_sub_within (ea eb S a' a b' b : R) :
  within ea a' a -> within eb b' b -> Rabs (a - b) <= S ->
  within (ea + eb + u * (S + ea + eb + tiny)) (fl_sub ops a' b') (a - b).
Proof.
  intros Ha Hb HS.
  assert (Hexact : within (ea + eb) (a' - b') (a - b)).
  { unfold within in *.
    replace (a' - b' - (a - b)) with ((a' - a) + - (b' - b)) by ring.
    eapply Rle_trans; [apply Rabs_triang|]. rewrite Rabs_Ropp. lra. }
  pose proof (within_abs _ _ _ _ Hexact HS) as HS'.
  replace (ea + eb + u * (S + ea + eb + tiny))
    with (u * (S + ea + eb + tiny) + (ea + eb)) by ring.
  apply (within_trans _ _ _ (a' - b')); [|exact Hexact].
  eapply within_weaken; [apply (sub_rounded _ _ _ ops_rounded)|].
  apply Rmult_le_compat_l; lra.
Qed.

(** The steps of [transform_vertex], with errors counted in units of
    [u] times the magnitude [M] of what is computed. *)

(** A product with an exact factor: [v.x * scale], [... * ts_scale]. *)
Lemma scale_step (k M p' p c : R) :
  0 <= k -> within (k * u * M) p' p -> Rabs p <= M ->
  within ((1.01 * k + 1) * u * (Rabs c * M + tiny)) (fl_mul ops p' c) (p * c).
Proof.
  intros Hk Hp HM.
  assert (0 <= M) by (pose proof (Rabs_pos p); lra).
  pose proof (Rabs_pos c) as HC.
  eapply within_weaken.
  { apply (fl_mul_within _ _ _ _ _ _ _ _ Hp (within_refl c) HM (Rle_refl _)). }
  set (C := Rabs c) in *. clearbody C.
  assert (P1 : 0 <= u * (k * M * C) * (/ 100 - u))
    by (repeat apply Rmult_le_pos; lra).
  assert (P2 : 0 <= u * (k * tiny)) by (repeat apply Rmult_le_pos; lra).
  lra.
Qed.

(** A product with a rounded cosine or sine. *)
Lemma trig_step (k M p' p t' t : R) :
  0 <= k -> within (k * u * M) p' p -> Rabs p <= M ->
  within u t' t -> Rabs t <= 1 ->
  within ((1.01 * k + 2.01) * u * (M + tiny)) (fl_mul ops p' t') (p * t).
Proof.
  intros Hk Hp HM Ht Ht1.
  assert (0 <= M) by (pose proof (Rabs_pos p); lra).
  eapply within_weaken.
  { apply (fl_mul_within _ _ _ _ _ _ _ _ Hp Ht HM Ht1). }
  assert (P1 : 0 <= u * (k * M) * (/ 100 - 2 * u - u * u))
    by (repeat apply Rmult_le_pos; nra).
  assert (P2 : 0 <= u * M * (/ 100 - u))
    by (repeat apply Rmult_le_pos; lra).
  assert (P3 : 0 <= u * (k * tiny)) by (repeat apply Rmult_le_pos; lra).
  assert (P4 : 0 <= u * tiny) by (apply Rmult_le_pos; lra).
  lra.
Qed.

(** A sum and a difference of two terms of the same accuracy. *)
Lemma sum_step (k M a' a b' b : R) :
  0 <= k -> within (k * u * M) a' a -> within (k * u * M) b' b ->
  Rabs (a + b) <= M ->
  within ((2.01 * k + 1) * u * (M + tiny)) (fl_add ops a' b') (a + b).
Proof.
  intros Hk Ha Hb HM.
  assert (0 <= M) by (pose proof (Rabs_pos (a + b)); lra).
  eapply within_weaken.
  { apply (fl_add_within _ _ _ _ _ _ _ Ha Hb HM). }
  assert (P1 : 0 <= u * (k * M) * (/ 100 - 2 * u))
    by (repeat apply Rmult_le_pos; lra).
  assert (P2 : 0 <= u * (k * tiny)) by (repeat apply Rmult_le_pos; lra).
  lra.
Qed.

Lemma diff_step (k M a' a b' b : R) :
  0 <= k -> within (k * u * M) a' a -> within (k * u * M) b' b ->
  Rabs (a - b) <= M ->
  within ((2.01 * k + 1) * u * (M + tiny)) (fl_sub ops a' b') (a - b).
Proof.
  intros Hk Ha Hb HM.
  assert (0 <= M) by (pose proof (Rabs_pos (a - b)); lra).
  eapply within_weaken.
  { apply (fl_sub_within _ _ _ _ _ _ _ Ha Hb HM). }
  assert (P1 : 0 <= u * (k * M) * (/ 100 - 2 * u))
    by (repeat apply Rmult_le_pos; lra).
  assert (P2 : 0 <= u * (k * tiny)) by (repeat apply Rmult_le_pos; lra).
  lra.
Qed.

(** A sum with an exact offset: [new_x + pos.get('x', 0)]. *)
Lemma offset_step (k M p' p o : R) :
  0 <= k -> within (k * u * M) p' p -> Rabs p <= M ->
  within ((1.01 * k + 1) * u * (M + Rabs o + tiny)) (fl_add ops p' o) (p + o).
Proof.
  intros Hk Hp HM.
  assert (0 <= M) by (pose proof (Rabs_pos p); lra).
  pose proof (Rabs_pos o) as HO.
  assert (HS : Rabs (p + o) <= M + Rabs o).
  { eapply Rle_trans; [apply Rabs_triang|lra]. }
  eapply within_weaken.
  { apply (fl_add_within _ _ _ _ _ _ _ Hp (within_refl o) HS). }
  set (O := Rabs o) in *. clearbody O.
  assert (P1 : 0 <= u * (k * M) * (/ 100 - u))
    by (repeat apply Rmult_le_pos; lra).
  assert (P2 : 0 <= u * (k * tiny)) by (repeat apply Rmult_le_pos; lra).
  assert (P3 : 0 <= u * (k * O)) by (repeat apply Rmult_le_pos; lra).
  lra.
Qed.
(** [k1 * u * M1 <= k2 * u * M2] for larger [k2] and [M2]. *)
Lemma bound_mono (k1 k2 M1 M2 : R) :
  0 <= k1 <= k2 -> 0 <= M1 <= M2 -> k1 * u * M1 <= k2 * u * M2.
Proof.
  intros Hk HM.
  apply Rmult_le_compat; [|lra| |lra].
  - apply Rmult_le_pos; lra.
  - apply Rmult_le_compat_r; lra.
Qed.

Lemma within_bound (k1 k2 M1 M2 a' a : R) :
  within (k1 * u * M1) a' a -> 0 <= k1 <= k2 -> 0 <= M1 <= M2 ->
  within (k2 * u * M2) a' a.
Proof.
  intros H Hk HM. eapply within_weaken; [exact H|now apply bound_mono].
Qed.

Lemma Rabs_cos_le (a : R) : Rabs (cos a) <= 1.
Proof. apply Rabs_le. apply COS_bound. Qed.

Lemma Rabs_sin_le (a : R) : Rabs (sin a) <= 1.
Proof. apply Rabs_le. apply SIN_bound. Qed.

(** The turn about the Y axis: [x * cos_a - z * sin_a] and
    [x * sin_a + z * cos_a]. *)
Lemma rotate_rounded (k M p' p q' q a : R) :
  0 <= k -> within (k * u * M) p' p -> within (k * u * M) q' q ->
  norm1 p q <= M ->
  within ((2.04 * k + 5.05) * u * (M + 2 * tiny))
         (fl_sub ops (fl_mul ops p' (fl_cos ops a))
                     (fl_mul ops q' (fl_sin ops a)))
         (p * cos a - q * sin a)
  /\ within ((2.04 * k + 5.05) * u * (M + 2 * tiny))
            (fl_add ops (fl_mul ops p' (fl_sin ops a))
                        (fl_mul ops q' (fl_cos ops a)))
            (p * sin a + q * cos a).
Proof.
  intros Hk Hp Hq HM.
  assert (HpM : Rabs p <= M)
    by (unfold norm1 in HM; pose proof (Rabs_pos q); lra).
  assert (HqM : Rabs q <= M)
    by (unfold norm1 in HM; pose proof (Rabs_pos p); lra).
  assert (0 <= M) by (pose proof (Rabs_pos p); lra).
  destruct (norm1_turn p q (cos a) (sin a) M HM (Rabs_cos_le a)
              (Rabs_sin_le a)) as [Hsub Hadd].
  pose proof (cos_rounded _ _ _ ops_rounded a) as Hc.
  pose proof (sin_rounded _ _ _ ops_rounded a) as Hs.
  pose proof (trig_step k M p' p _ _ Hk Hp HpM Hc (Rabs_cos_le a)) as Hpc.
  pose proof (trig_step k M q' q _ _ Hk Hq HqM Hs (Rabs_sin_le a)) as Hqs.
  pose proof (trig_step k M p' p _ _ Hk Hp HpM Hs (Rabs_sin_le a)) as Hps.
  pose proof (trig_step k M q' q _ _ Hk Hq HqM Hc (Rabs_cos_le a)) as Hqc.
  assert (Hk' : 0 <= 1.01 * k + 2.01) by lra.
  split.
  - eapply within_bound.
    + apply (diff_step _ (M + tiny) _ _ _ _ Hk' Hpc Hqs). lra.
    + lra.
    + lra.
  - eapply within_bound.
    + apply (sum_step _ (M + tiny) _ _ _ _ Hk' Hps Hqc). lra.
    + lra.
    + lra.
Qed.

(** The offset and the unit scale: [(new_x + pos.get('x', 0)) * ts_scale]. *)
Lemma to_engine_rounded (k M p' p o : R) :
  0 <= k -> within (k * u * M) p' p -> Rabs p <= M ->
  within ((1.03 * k + 2.02) * u * (100 * (M + Rabs o) + 101 * tiny))
         (fl_mul ops (fl_add ops p' o) 100.0) ((p + o) * 100.0).
Proof.
  intros Hk Hp HM.
  assert (0 <= M) by (pose proof (Rabs_pos p); lra).
  pose proof (Rabs_pos o) as HO.
  pose proof (offset_step k M p' p o Hk Hp HM) as H1.
  assert (HS : Rabs (p + o) <= M + Rabs o + tiny).
  { eapply Rle_trans; [apply Rabs_triang|lra]. }
  assert (Hk' : 0 <= 1.01 * k + 1) by lra.
  pose proof (scale_step _ _ _ _ 100.0 Hk' H1 HS) as H2.
  assert (E : Rabs 100.0 = 100) by (rewrite Rabs_right; lra).
  rewrite E in H2.
  eapply within_bound; [exact H2|lra|lra].
Qed.

(** One call of [transform_vertex] in rounded arithmetic, on a vertex
    that approximates [v], against the exact transform of [v]. *)
Lemma transform_vertex_rounded (v' v : Vertex) (pos rot : dict)
    (s k ky kn M My N : R) :
  0 <= k -> 0 <= ky -> 0 <= kn ->
  within (k * u * M) (Vertex.x v') (Vertex.x v) ->
  within (k * u * M) (Vertex.z v') (Vertex.z v) ->
  norm1 (Vertex.x v) (Vertex.z v) <= M ->
  within (ky * u * My) (Vertex.y v') (Vertex.y v) ->
  Rabs (Vertex.y v) <= My ->
  within (kn * u * N) (Vertex.nx v') (Vertex.nx v) ->
  within (kn * u * N) (Vertex.nz v') (Vertex.nz v) ->
  norm1 (Vertex.nx v) (Vertex.nz v) <= N ->
  within ((2.13 * k + 9.33) * u
          * (100 * (Rabs s * M + Rabs (get pos "x" 0)) + 401 * tiny))
         (Vertex.x (Rounded.transform_vertex ops v' pos rot s))
         (Vertex.x (transform_vertex v pos rot s))
  /\ within ((1.05 * ky + 3.05) * u
             * (100 * (Rabs s * My + Rabs (get pos "y" 0)) + 201 * tiny))
            (Vertex.y (Rounded.transform_vertex ops v' pos rot s))
            (Vertex.y (transform_vertex v pos rot s))
  /\ within ((2.13 * k + 9.33) * u
             * (100 * (Rabs s * M + Rabs (get pos "z" 0)) + 401 * tiny))
            (Vertex.z (Rounded.transform_vertex ops v' pos rot s))
            (Vertex.z (transform_vertex v pos rot s))
  /\ within ((2.04 * kn + 5.05) * u * (N + 2 * tiny))
            (Vertex.nx (Rounded.transform_vertex ops v' pos rot s))
            (Vertex.nx (transform_vertex v pos rot s))
  /\ within ((2.04 * kn + 5.05) * u * (N + 2 * tiny))
            (Vertex.nz (Rounded.transform_vertex ops v' pos rot s))
            (Vertex.nz (transform_vertex v pos rot s)).
Proof.
  intros Hk Hky Hkn Hx Hz HM Hy HMy Hnx Hnz HN.
  unfold Rounded.transform_vertex, transform_vertex.
  cbn [Vertex.x Vertex.y Vertex.z Vertex.nx Vertex.nz].
  set (a := get rot "y" 0).
  pose proof (Rabs_pos s) as HS.
  assert (HxM : Rabs (Vertex.x v) <= M)
    by (unfold norm1 in HM; pose proof (Rabs_pos (Vertex.z v)); lra).
  assert (HzM : Rabs (Vertex.z v) <= M)
    by (unfold norm1 in HM; pose proof (Rabs_pos (Vertex.x v)); lra).
  assert (0 <= M) by (pose proof (Rabs_pos (Vertex.x v)); lra).
  assert (0 <= My) by (pose proof (Rabs_pos (Vertex.y v)); lra).
  assert (0 <= N)
    by (unfold norm1 in HN; pose proof (Rabs_pos (Vertex.nx v));
        pose proof (Rabs_pos (Vertex.nz v)); lra).
  assert (0 <= Rabs s * M) by (apply Rmult_le_pos; lra).
  assert (0 <= Rabs s * My) by (apply Rmult_le_pos; lra).
  (* scale *)
  pose proof (scale_step k M _ _ s Hk Hx HxM) as Hxs.
  pose proof (scale_step k M _ _ s Hk Hz HzM) as Hzs.
  pose proof (scale_step ky My _ _ s Hky Hy HMy) as Hys.
  assert (Hnorm : norm1 (Vertex.x v * s) (Vertex.z v * s) <= Rabs s * M + tiny).
  { unfold norm1 in *. rewrite !Rabs_mult.
    assert (Rabs s * (Rabs (Vertex.x v) + Rabs (Vertex.z v)) <= Rabs s * M)
      by (apply Rmult_le_compat_l; lra).
    lra. }
  assert (HyS : Rabs (Vertex.y v * s) <= Rabs s * My + tiny).
  { rewrite Rabs_mult.
    assert (Rabs s * Rabs (Vertex.y v) <= Rabs s * My)
      by (apply Rmult_le_compat_l; lra).
    lra. }
  assert (Hk1 : 0 <= 1.01 * k + 1) by lra.
  assert (Hky1 : 0 <= 1.01 * ky + 1) by lra.
  (* rotate *)
  destruct (rotate_rounded _ _ _ _ _ _ a Hk1 Hxs Hzs Hnorm) as [Hrx Hrz].
  destruct (rotate_rounded _ _ _ _ _ _ a Hkn Hnx Hnz HN) as [Hrnx Hrnz].
  destruct (norm1_turn _ _ (cos a) (sin a) _ Hnorm (Rabs_cos_le a)
              (Rabs_sin_le a)) as [Hsub Hadd].
  assert (Hk2 : 0 <= 2.04 * (1.01 * k + 1) + 5.05) by lra.
  (* translate and convert *)
  split; [|split; [|split; [|split]]].
  - eapply within_bound.
    + apply (to_engine_rounded _ (Rabs s * M + tiny + 2 * tiny) _ _
               (get pos "x" 0) Hk2 Hrx). lra.
    + lra.
    + pose proof (Rabs_pos (get pos "x" 0)). lra.
  - eapply within_bound.
    + apply (to_engine_rounded _ _ _ _ (get pos "y" 0) Hky1 Hys HyS).
    + lra.
    + pose proof (Rabs_pos (get pos "y" 0)). lra.
  - eapply within_bound.
    + apply (to_engine_rounded _ (Rabs s * M + tiny + 2 * tiny) _ _
               (get pos "z" 0) Hk2 Hrz). lra.
    + lra.
    + pose proof (Rabs_pos (get pos "z" 0)). lra.
  - exact Hrnx.
  - exact Hrnz.
Qed.
End Rounding.

Lemma exact_ops_rounded : rounded 0 0 exact_ops.
Proof.
  split; intros; unfold within; cbn;
    rewrite Rminus_diag, Rabs_R0; lra.
Qed.

Lemma transform_vertex_exact (v : Vertex) (pos rot : dict) (scale : R) :
  Rounded.transform_vertex exact_ops v pos rot scale
  = transform_vertex v pos rot scale.
Proof. reflexivity. Qed.

Lemma inflated_ops_rounded : rounded (/ 9007199254740992) 0 inflated_ops.
Proof.
  assert (He : 0 <= / 9007199254740992) by lra.
  split; intros; unfold within; cbn.
  - replace (a * b * (1 + / 9007199254740992) - a * b)
      with (/ 9007199254740992 * (a * b)) by ring.
    rewrite Rabs_mult, (Rabs_right (/ 9007199254740992)) by lra. lra.
  - replace ((a + b) * (1 + / 9007199254740992) - (a + b))
      with (/ 9007199254740992 * (a + b)) by ring.
    rewrite Rabs_mult, (Rabs_right (/ 9007199254740992)) by lra. lra.
  - replace ((a - b) * (1 + / 9007199254740992) - (a - b))
      with (/ 9007199254740992 * (a - b)) by ring.
    rewrite Rabs_mult, (Rabs_right (/ 9007199254740992)) by lra. lra.
  - rewrite Rminus_diag, Rabs_R0. lra.
  - rewrite Rminus_diag, Rabs_R0. lra.
Qed.

(** The sizes of an exact turn at the origin with scale 1. *)
Lemma turn_sizes (v : Vertex) (a : R) :
  norm1 (Vertex.x (transform_vertex v origin (turn a) 1.0))
        (Vertex.z (transform_vertex v origin (turn a) 1.0))
  <= 200 * norm1 (Vertex.x v) (Vertex.z v)
  /\ Rabs (Vertex.y (transform_vertex v origin (turn a) 1.0))
     <= 100 * Rabs (Vertex.y v)
  /\ norm1 (Vertex.nx (transform_vertex v origin (turn a) 1.0))
           (Vertex.nz (transform_vertex v origin (turn a) 1.0))
     <= 2 * norm1 (Vertex.nx v) (Vertex.nz v).
Proof.
  unfold transform_vertex. rewrite get_turn, !get_origin.
  cbn [Vertex.x Vertex.y Vertex.z Vertex.nx Vertex.nz].
  destruct (norm1_turn (Vertex.x v) (Vertex.z v) (cos a) (sin a) _
              (Rle_refl _) (Rabs_cos_le a) (Rabs_sin_le a)) as [H1 H2].
  destruct (norm1_turn (Vertex.nx v) (Vertex.nz v) (cos a) (sin a) _
              (Rle_refl _) (Rabs_cos_le a) (Rabs_sin_le a)) as [H3 H4].
  assert (E100 : Rabs 100 = 100) by (rewrite Rabs_right; lra).
  split; [|split].
  - unfold norm1 at 1.
    replace ((Vertex.x v * 1.0 * cos a - Vertex.z v * 1.0 * sin a + 0) * 100.0)
      with (100 * (Vertex.x v * cos a - Vertex.z v * sin a)) by lra.
    replace ((Vertex.x v * 1.0 * sin a + Vertex.z v * 1.0 * cos a + 0) * 100.0)
      with (100 * (Vertex.x v * sin a + Vertex.z v * cos a)) by lra.
    rewrite !Rabs_mult, E100. lra.
  - replace ((Vertex.y v * 1.0 + 0) * 100.0) with (100 * Vertex.y v) by lra.
    rewrite Rabs_mult, E100. lra.
  - unfold norm1 at 1. lra.
Qed.

(** Two calls at the origin with scale 1, in rounded arithmetic, against
    the same two calls in exact arithmetic. *)
Lemma two_turns_rounded (ops : FloatOps) (u tiny : R) (v : Vertex) (a b : R) :
  0 <= u <= / 1000 -> 0 <= tiny -> rounded u tiny ops ->
  let v2' :=
    Rounded.transform_vertex ops
      (Rounded.transform_vertex ops v origin (turn a) 1.0)
      origin (turn b) 1.0 in
  let v2 :=
    transform_vertex (transform_vertex v origin (turn a) 1.0)
                     origin (turn b) 1.0 in
  within (40 * u * (10000 * norm1 (Vertex.x v) (Vertex.z v) + 50000 * tiny))
         (Vertex.x v2') (Vertex.x v2)
  /\ within (7 * u * (10000 * Rabs (Vertex.y v) + 30000 * tiny))
            (Vertex.y v2') (Vertex.y v2)
  /\ within (40 * u * (10000 * norm1 (Vertex.x v) (Vertex.z v) + 50000 * tiny))
            (Vertex.z v2') (Vertex.z v2)
  /\ within (21 * u * (norm1 (Vertex.nx v) (Vertex.nz v) + 3 * tiny))
            (Vertex.nx v2') (Vertex.nx v2)
  /\ within (21 * u * (norm1 (Vertex.nx v) (Vertex.nz v) + 3 * tiny))
            (Vertex.nz v2') (Vertex.nz v2).
Proof.
  intros Hu Htiny Hops v2' v2.
  set (m := norm1 (Vertex.x v) (Vertex.z v)).
  set (n := norm1 (Vertex.nx v) (Vertex.nz v)).
  set (my := Rabs (Vertex.y v)).
  assert (Hm : 0 <= m)
    by (unfold m, norm1; pose proof (Rabs_pos (Vertex.x v));
        pose proof (Rabs_pos (Vertex.z v)); lra).
  assert (Hn : 0 <= n)
    by (unfold n, norm1; pose proof (Rabs_pos (Vertex.nx v));
        pose proof (Rabs_pos (Vertex.nz v)); lra).
  assert (Hmy : 0 <= my) by apply Rabs_pos.
  assert (E1 : Rabs 1.0 = 1) by (rewrite Rabs_right; lra).
  assert (Hzero : forall x M : R, within (0 * u * M) x x).
  { intros x M. replace (0 * u * M) with 0 by ring. apply within_refl. }
  (* the first call *)
  destruct (transform_vertex_rounded ops u tiny Hu Htiny Hops v v origin
              (turn a) 1.0 0 0 0 m my n (Rle_refl _) (Rle_refl _)
              (Rle_refl _) (Hzero _ _) (Hzero _ _) (Rle_refl _)
              (Hzero _ _) (Rle_refl _) (Hzero _ _) (Hzero _ _) (Rle_refl _))
    as (Hx1 & Hy1 & Hz1 & Hnx1 & Hnz1).
  rewrite !get_origin, E1, Rabs_R0 in Hx1, Hy1, Hz1.
  destruct (turn_sizes v a) as (Sxz & Sy & Sn).
  fold m in Sxz. fold my in Sy. fold n in Sn.
  assert (Pm : 0 <= u * m) by (apply Rmult_le_pos; lra).
  assert (Pt : 0 <= u * tiny) by (apply Rmult_le_pos; lra).
  assert (Pn : 0 <= u * n) by (apply Rmult_le_pos; lra).
  assert (Py : 0 <= u * my) by (apply Rmult_le_pos; lra).
  (* the second call *)
  destruct (transform_vertex_rounded ops u tiny Hu Htiny Hops
              (Rounded.transform_vertex ops v origin (turn a) 1.0)
              (transform_vertex v origin (turn a) 1.0) origin (turn b) 1.0
              4.665 3.05 2.525
              (200 * m + 802 * tiny) (100 * my + 201 * tiny)
              (2 * n + 4 * tiny))
    as (Hx2 & Hy2 & Hz2 & Hnx2 & Hnz2); try lra.
  - eapply within_weaken; [exact Hx1|lra].
  - eapply within_weaken; [exact Hz1|lra].
  - eapply within_weaken; [exact Hy1|lra].
  - eapply within_weaken; [exact Hnx1|lra].
  - eapply within_weaken; [exact Hnz1|lra].
  - rewrite !get_origin, E1, Rabs_R0 in Hx2, Hy2, Hz2.
    split; [|split; [|split; [|split]]].
    + eapply within_weaken; [exact Hx2|lra].
    + eapply within_weaken; [exact Hy2|lra].
    + eapply within_weaken; [exact Hz2|lra].
    + eapply within_weaken; [exact Hnx2|lra].
    + eapply within_weaken; [exact Hnz2|lra].
Qed.

(** C7, as amended: for every vertex and every angle, in every arithmetic
    of unit roundoff [u] at most 1/1000, a turn by the angle followed by a
    turn by its opposite, both with scale 1 and no offset, ends within
    floating-point tolerance of the original vertex with its position
    multiplied by 10000, the unit scale 100 being applied by each of the
    two calls: X and Z are within 40 [u] of 10000 times the size of the
    original X and Z, Y within 7 [u] of 10000 times its size, the normal
    within 21 [u] of its size, each up to a multiple of [u * tiny]; the Y
    component of the normal, the UV coordinates and the colour are those
    of the original vertex. *)
Theorem rotate_there_and_back (ops : FloatOps) (u tiny : R) (v : Vertex)
    (theta : R) :
  0 <= u <= / 1000 -> 0 <= tiny -> rounded u tiny ops ->
  vertex_within
    (40 * u * (10000 * norm1 (Vertex.x v) (Vertex.z v) + 50000 * tiny))
    (7 * u * (10000 * Rabs (Vertex.y v) + 30000 * tiny))
    (21 * u * (norm1 (Vertex.nx v) (Vertex.nz v) + 3 * tiny))
    (Rounded.transform_vertex ops
       (Rounded.transform_vertex ops v origin (turn theta) 1.0)
       origin (turn (- theta)) 1.0)
    (with_position_normal v (scale_by 10000 (position_of v)) (normal_of v)).
Proof.
  intros Hu Htiny Hops.
  destruct (two_turns_rounded ops u tiny v theta (- theta) Hu Htiny Hops)
    as (Hx & Hy & Hz & Hnx & Hnz).
  rewrite turn_and_back in Hx, Hy, Hz, Hnx, Hnz.
  unfold vertex_within, with_position_normal, scale_by, position_of,
    normal_of in *.
  cbn [fst snd Vertex.x Vertex.y Vertex.z Vertex.nx Vertex.ny Vertex.nz
       Vertex.u Vertex.v Vertex.r Vertex.g Vertex.b Vertex.a] in *.
  replace (Vertex.x v * (100.0 * 100.0)) with (Vertex.x v * 10000) in Hx by lra.
  replace (Vertex.y v * (100.0 * 100.0)) with (Vertex.y v * 10000) in Hy by lra.
  replace (Vertex.z v * (100.0 * 100.0)) with (Vertex.z v * 10000) in Hz by lra.
  repeat split; assumption.
Qed.

Lemma rotate_there_and_back_witness :
  0 <= / 9007199254740992 <= / 1000
  /\ 0 <= 0
  /\ rounded (/ 9007199254740992) 0 inflated_ops
  /\ within (40 * / 9007199254740992
             * (10000 * norm1 1.1 2.3 + 50000 * 0))
            (Vertex.x
               (Rounded.transform_vertex inflated_ops
                  (Rounded.transform_vertex inflated_ops
                     (vertex 1.1 0.29 2.3 0.6 0 0.8 0 0) origin (turn 1) 1.0)
                  origin (turn (- 1)) 1.0))
            (1.1 * 10000).
Proof.
  assert (H1 : 0 <= / 9007199254740992 <= / 1000) by lra.
  assert (H2 : 0 <= 0) by lra.
  pose proof inflated_ops_rounded as H3.
  split; [exact H1|split; [exact H2|split; [exact H3|]]].
  exact (proj1 (rotate_there_and_back inflated_ops (/ 9007199254740992) 0
                  (vertex 1.1 0.29 2.3 0.6 0 0.8 0 0) 1 H1 H2 H3)).
Defined.

(** C7, as stated, fails: the vertex at (1, 0, 0) turned by 0 and back by
    -0 ends at x = 10000, which is 9900 away from the original position
    with the unit scale applied once. *)
Lemma rotate_there_and_back_counterexample :
  Vertex.x
    (transform_vertex
       (transform_vertex (vertex 1 0 0 0 1 0 0 0) origin (turn 0) 1.0)
       origin (turn (- 0)) 1.0)
  = 10000
  /\ 100.0 * Vertex.x (vertex 1 0 0 0 1 0 0 0) = 100
  /\ Rabs (10000 - 100) = 9900.
Proof.
  rewrite turn_and_back. simpl. repeat split; try lra.
  rewrite Rabs_right; lra.
Qed.

(** ** The generators keep the mesh invariant *)

Lemma mesh_wfb_sound (m : Mesh) : mesh_wfb m = true -> mesh_wf m.
Proof.
  unfold mesh_wfb, mesh_wf. intros H.
  apply andb_prop in H as [Hlen Hall]. split.
  - now apply Z.eqb_eq.
  - apply Forall_forall. intros i Hi.
    rewrite forallb_forall in Hall. apply list_elem_of_In in Hi.
    specialize (Hall i Hi).
    apply andb_prop in Hall as [H0 H1]. lia.
Qed.

Lemma set_material_index_wf (k : Z) (m : Mesh) :
  mesh_wf m -> mesh_wf (set_material_index k m).
Proof. intros H. exact H. Qed.

Lemma generate_box_wf w h d ox oy oz : mesh_wf (generate_box w h d ox oy oz).
Proof. apply mesh_wfb_sound. reflexivity. Qed.

Lemma generate_box_vertex_count w h d ox oy oz :
  len (vertices (generate_box w h d ox oy oz)) = 24%Z.
Proof. reflexivity. Qed.

Lemma generate_rail_wf l h r : mesh_wf (generate_rail l h r).
Proof. apply mesh_wfb_sound. reflexivity. Qed.

Lemma generate_kicker_wf l h w : mesh_wf (generate_kicker l h w).
Proof. apply mesh_wfb_sound. reflexivity. Qed.

Lemma generate_slope_wf l h w : mesh_wf (generate_slope l h w).
Proof. apply mesh_wfb_sound. reflexivity. Qed.

Lemma generate_bench_wf : mesh_wf generate_bench.
Proof. apply mesh_wfb_sound. reflexivity. Qed.

Lemma float_div_ok (a b : R) : b <> 0 -> float_div a b = Ok (a / b).
Proof. intros H. unfold float_div. now destruct (Req_dec_T b 0). Qed.

Lemma int_div_ok (i n : Z) : n <> 0%Z -> int_div i n = Ok (IZR i / IZR n).
Proof. intros H. unfold int_div. now destruct (Z.eq_dec n 0%Z). Qed.

Lemma generate_pyramid_wf (b h : R) :
  b <> 0 -> exists m, generate_pyramid b h = Ok m /\ mesh_wf m.
Proof.
  intros Hb. assert (H2b : 2 * b <> 0) by lra.
  unfold generate_pyramid.
  cbn [fold_left for_each mbind result_bind nth].
  rewrite !(float_div_ok _ _ H2b).
  cbn [mbind result_bind].
  eexists. split; [reflexivity|]. apply mesh_wfb_sound. reflexivity.
Qed.

Lemma len_app {A : Type} (l1 l2 : list A) :
  len (l1 ++ l2) = (len l1 + len l2)%Z.
Proof. unfold len. rewrite length_app. lia. Qed.

Lemma len_range (n : Z) : (0 <= n)%Z -> len (range n) = n.
Proof. intros H. unfold len, range. rewrite length_seqZ. lia. Qed.

(** *** Meshes laid one after the other *)

(** The concatenation invariant: meshes that keep the invariant, laid one
    after the other from [running] on, give whole triangles whose indices
    point into the vertices laid. *)
Lemma concat_rebased_wf (ms : list Mesh) :
  Forall mesh_wf ms ->
  forall running,
    (len (concat_rebased running ms).2 mod 3 = 0)%Z
    /\ Forall (fun i => (running <= i
                         < running + len (concat_rebased running ms).1)%Z)
              (concat_rebased running ms).2.
Proof.
  induction 1 as [|m ms [Hm3 Hmi] _ IH]; intros running; simpl.
  - split; [reflexivity|constructor].
  - destruct (IH (running + len (vertices m))%Z) as [IH3 IHi].
    rewrite !len_app. split.
    + unfold len in *. rewrite length_map.
      rewrite Z.add_mod, Hm3, IH3 by lia. reflexivity.
    + apply Forall_app. split.
      * apply Forall_map. eapply Forall_impl; [exact Hmi|].
        simpl. unfold len. intros i Hi. lia.
      * eapply Forall_impl; [exact IHi|]. simpl. unfold len. intros i Hi. lia.
Qed.

(** Rewrites a loop of the goal with an equation [E] about that loop, the
    loop body being taken up to conversion. *)
Ltac rewrite_loop E :=
  match type of E with
  | fold_left _ ?l ?a = ?rhs =>
      match goal with
      | |- context [fold_left ?f l a] =>
          let E' := fresh "E" in
          assert (E' : fold_left f l a = rhs) by exact E;
          rewrite E'; clear E'
      end
  end.

(** The loop of [generate_stairs], from any accumulator. *)
Lemma stairs_loop (h d w : R) (l : list Z) :
  forall vs ixs,
    fold_left
      (fun '(all_vertices, all_indices) i =>
         let box :=
           generate_box w h d 0 (h * (IZR i + 0.5)) (- d * IZR i) in
         let base := len all_vertices in
         (all_vertices ++ vertices box,
          all_indices ++ map (fun idx => (idx + base)%Z) (indices box)))
      l (vs, ixs)
    = (vs ++ (concat_rebased (len vs) (map (step_box h d w) l)).1,
       ixs ++ (concat_rebased (len vs) (map (step_box h d w) l)).2).
Proof.
  induction l as [|i l IH]; intros vs ixs.
  - simpl. now rewrite !app_nil_r.
  - cbn [fold_left map concat_rebased]. rewrite IH.
    rewrite len_app. cbn [fst snd]. now rewrite <- !app_assoc.
Qed.

Lemma stairs_loop_from_empty (h d w : R) (l : list Z) :
  fold_left
    (fun '(all_vertices, all_indices) i =>
       let box :=
         generate_box w h d 0 (h * (IZR i + 0.5)) (- d * IZR i) in
       let base := len all_vertices in
       (all_vertices ++ vertices box,
        all_indices ++ map (fun idx => (idx + base)%Z) (indices box)))
    l ([], [])
  = ((concat_rebased 0 (map (step_box h d w) l)).1,
     (concat_rebased 0 (map (step_box h d w) l)).2).
Proof. exact (stairs_loop h d w l [] []). Qed.

(** C6: for every step count and every step height, depth and width, the
    stairs generator returns, under material 1, the concatenation of one
    box per step, of dimensions (step_width, step_height, step_depth),
    step [i] being raised by [step_height*(i+0.5)] and pushed back by
    [step_depth*i]; the vertices of the boxes are appended in step order
    and the indices of each box are shifted by the number of vertices
    appended before it. *)
Theorem generate_stairs_concatenates_boxes
    (num_steps : Z) (step_height step_depth step_width : R) :
  generate_stairs num_steps step_height step_depth step_width
  = mkMesh
      (concat_rebased 0
         (map (step_box step_height step_depth step_width) (range num_steps))).1
      (concat_rebased 0
         (map (step_box step_height step_depth step_width) (range num_steps))).2
      1
  /\ (forall i,
        step_box step_height step_depth step_width i
        = generate_box step_width step_height step_depth
            0 (step_height * (IZR i + 0.5)) (- step_depth * IZR i))
  /\ (forall running m rest,
        concat_rebased running (m :: rest)
        = (vertices m ++ (concat_rebased (running + len (vertices m)) rest).1,
           map (fun old_index => (old_index + running)%Z) (indices m)
           ++ (concat_rebased (running + len (vertices m)) rest).2)).
Proof.
  split; [|split; reflexivity].
  unfold generate_stairs.
  pose proof (stairs_loop_from_empty step_height step_depth step_width
                (range num_steps)) as E.
  rewrite_loop E. reflexivity.
Qed.

Lemma generate_stairs_wf (n : Z) (h d w : R) : mesh_wf (generate_stairs n h d w).
Proof.
  unfold generate_stairs.
  pose proof (stairs_loop_from_empty h d w (range n)) as E.
  rewrite_loop E. clear E.
  destruct (concat_rebased_wf (map (step_box h d w) (range n)))
    with (running := 0%Z) as [H3 Hi].
  { apply Forall_map, Forall_forall. intros i _.
    unfold step_box. apply generate_box_wf. }
  split; [exact H3|].
  eapply Forall_impl; [exact Hi|]. cbv beta. cbn [vertices].
  intros i Hi'. lia.
Qed.

(** *** The quarter pipe *)

(** A loop that may raise, whose body never raises on the elements of [l]
    and lengthens the accumulator by [k]. *)
Lemma for_each_grows {A B : Type}
    (body : list A -> B -> result (list A)) (k : nat) (l : list B) :
  (forall s x, x ∈ l ->
     exists s', body s x = Ok s' /\ length s' = (length s + k)%nat) ->
  forall s,
    exists s', for_each body l s = Ok s'
               /\ length s' = (length s + k * length l)%nat.
Proof.
  induction l as [|x l IH]; intros Hbody s.
  - exists s. split; [reflexivity|]. simpl. lia.
  - destruct (Hbody s x) as (s1 & E1 & L1); [left|].
    destruct IH with (s := s1) as (s2 & E2 & L2).
    { intros s' y Hy. apply Hbody. now right. }
    exists s2. split.
    + cbn [for_each]. rewrite E1. exact E2.
    + rewrite L2, L1. simpl. lia.
Qed.

Lemma elem_of_range (i n : Z) : i ∈ range n -> (0 <= i < n)%Z.
Proof. unfold range. rewrite elem_of_seqZ. lia. Qed.

Lemma length_range (n : Z) : length (range n) = Z.to_nat n.
Proof. unfold range. apply length_seqZ. Qed.

Lemma generate_quarter_pipe_wf (r w : R) (n : Z) :
  r <> 0 -> (0 < n)%Z ->
  exists m, generate_quarter_pipe r w n = Ok m /\ mesh_wf m.
Proof.
  intros Hr Hn. assert (Hn0 : n <> 0%Z) by lia.
  unfold generate_quarter_pipe.
  match goal with
  | |- context [for_each ?b ?l []] =>
      destruct (for_each_grows b 2 l) with (s := @nil Vertex)
        as (vs1 & E1 & L1)
  end.
  { intros s x _. rewrite !int_div_ok by exact Hn0. cbn [mbind result_bind].
    eexists. split; [reflexivity|]. rewrite length_app. simpl. lia. }
  rewrite E1. cbn [mbind result_bind].
  match goal with
  | |- context [for_each ?b ?l vs1] =>
      destruct (for_each_grows b 1 l) with (s := vs1) as (vs2 & E2 & L2)
  end.
  { intros s x _. rewrite !int_div_ok by exact Hn0. cbn [mbind result_bind].
    rewrite !float_div_ok by exact Hr. cbn [mbind result_bind].
    eexists. split; [reflexivity|]. rewrite length_app. simpl. lia. }
  rewrite E2. cbn [mbind result_bind].
  match goal with
  | |- context [for_each ?b ?l ?init] =>
      destruct (for_each_grows b 1 l) with (s := init) as (vs3 & E3 & L3)
  end.
  { intros s x _. rewrite !int_div_ok by exact Hn0. cbn [mbind result_bind].
    rewrite !float_div_ok by exact Hr. cbn [mbind result_bind].
    eexists. split; [reflexivity|]. rewrite length_app. simpl. lia. }
  rewrite E3. cbn [mbind result_bind].
  eexists. split; [reflexivity|].
  rewrite length_range in L1, L2, L3.
  rewrite !length_app in L3. simpl in L1, L3.
  set (S2 := (vs2 ++ _) ++ _) in *.
  set (V := (vs3 ++ _) ++ _) in *.
  assert (LS1 : len vs1 = (2 * n + 2)%Z) by (unfold len; lia).
  assert (LS2 : len S2 = (3 * n + 5)%Z).
  { unfold len, S2. rewrite !length_app. simpl. lia. }
  assert (LV : len V = (4 * n + 8)%Z).
  { unfold len, V. rewrite !length_app. simpl. lia. }
  rewrite LS1, LS2, LV. clearbody S2 V.
  rewrite !(fold_left_appending _ _ (fun _ _ => eq_refl)).
  unfold mesh_wf. cbn [vertices indices app]. rewrite LV. split.
  - unfold len. rewrite !length_app.
    rewrite (length_flat_map_chunks _ 6), !(length_flat_map_chunks _ 3)
      by reflexivity.
    rewrite length_range.
    replace (Z.of_nat (6 * Z.to_nat n + 3 * Z.to_nat n + 3 * Z.to_nat n))
      with (4 * n * 3)%Z by lia.
    apply Z_mod_mult.
  - rewrite !Forall_app. repeat split; apply Forall_flat_map_chunks;
      intros i Hi%elem_of_range; repeat constructor; lia.
Qed.

(** C4: every generator of the catalogue, called with positive dimensions
    and a positive segment or step count, returns a mesh (it does not
    raise) whose index list has a length that is a multiple of 3 and whose
    indices are all at least 0 and below the length of its vertex list. *)
Theorem generators_keep_mesh_invariant (c : GeneratorCall) :
  valid_parameters c ->
  exists m,
    call c = Ok m
    /\ (len (indices m) mod 3 = 0)%Z
    /\ Forall (fun i => (0 <= i < len (vertices m))%Z) (indices m).
Proof.
  destruct c; simpl; intros Hvalid.
  - eexists. split; [reflexivity|]. apply generate_box_wf.
  - apply generate_quarter_pipe_wf; [lra|lia].
  - apply generate_pyramid_wf. lra.
  - eexists. split; [reflexivity|]. apply generate_rail_wf.
  - eexists. split; [reflexivity|]. apply generate_stairs_wf.
  - eexists. split; [reflexivity|].
    apply set_material_index_wf, generate_box_wf.
  - eexists. split; [reflexivity|]. apply generate_kicker_wf.
  - eexists. split; [reflexivity|].
    apply set_material_index_wf, generate_box_wf.
  - eexists. split; [reflexivity|]. apply generate_bench_wf.
  - eexists. split; [reflexivity|].
    apply set_material_index_wf, generate_box_wf.
  - eexists. split; [reflexivity|]. apply generate_slope_wf.
Qed.

Lemma generators_keep_mesh_invariant_witness :
  valid_parameters (CallQuarterPipe 3.0 6.0 12)
  /\ exists m,
       call (CallQuarterPipe 3.0 6.0 12) = Ok m
       /\ (len (indices m) mod 3 = 0)%Z
       /\ Forall (fun i => (0 <= i < len (vertices m))%Z) (indices m).
Proof.
  assert (H : valid_parameters (CallQuarterPipe 3.0 6.0 12)).
  { simpl. split; [lra|split; [lra|lia]]. }
  split; [exact H|].
  exact (generators_keep_mesh_invariant (CallQuarterPipe 3.0 6.0 12) H).
Defined.

(** Every entry of the registry, called as the assembler calls it, returns
    a mesh that keeps the invariant. *)
Lemma registry_entries_wf (obj_type : string) (generator : Generator) :
  OBJECT_GENERATORS !! obj_type = Some generator ->
  exists m, generator tt = Ok m /\ mesh_wf m.
Proof.
  intros H. apply elem_of_list_to_map_2 in H.
  repeat (apply elem_of_cons in H as [H|H];
          [apply (f_equal snd) in H; cbn [snd] in H; subst generator;
           cbv beta|]).
  16: now apply elem_of_nil in H.
  all: try (eexists; split; [reflexivity|]).
  - apply set_material_index_wf, generate_box_wf.
  - apply generate_slope_wf.
  - apply generate_quarter_pipe_wf; [lra|lia].
  - apply generate_quarter_pipe_wf; [lra|lia].
  - apply generate_kicker_wf.
  - apply generate_pyramid_wf. lra.
  - apply generate_rail_wf.
  - apply generate_rail_wf.
  - apply set_material_index_wf, generate_box_wf.
  - apply set_material_index_wf, generate_box_wf.
  - apply generate_stairs_wf.
  - apply generate_stairs_wf.
  - apply generate_stairs_wf.
  - apply generate_bench_wf.
  - apply generate_box_wf.
Qed.

(** ** The scene assembler *)

Lemma export_skatepark_cut (json_path output_dir : string) (s : Store)
    (data : Park.t) :
  documents s !! json_path = Some data ->
  export_skatepark json_path output_dir s
  = (for_each_io process_object (default [] (Park.objects data));;
     after_loop (default "My Skatepark" (Park.name data)) output_dir)
      (at_loop_start data s).
Proof.
  intros H. unfold export_skatepark.
  unfold mbind at 1. unfold IO_bind at 1. unfold load_json. rewrite H.
  reflexivity.
Qed.

Lemma export_skatepark_no_document (json_path output_dir : string) (s : Store) :
  documents s !! json_path = None ->
  export_skatepark json_path output_dir s
  = (Raise (FileNotFoundError json_path), s).
Proof.
  intros H. unfold export_skatepark.
  unfold mbind at 1. unfold IO_bind at 1. unfold load_json. now rewrite H.
Qed.

Lemma for_each_io_app {A : Type} (body : A -> IO unit) (l1 l2 : list A)
    (s : Store) :
  for_each_io body (l1 ++ l2) s
  = (for_each_io body l1;; for_each_io body l2) s.
Proof.
  revert s. induction l1 as [|a l1 IH]; intros s.
  - reflexivity.
  - cbn [app for_each_io]. unfold mbind, IO_bind in *.
    destruct (body a s) as [[[]|e] s']; [apply IH|reflexivity].
Qed.

(** *** Tame computations *)

Lemma tame_ret {A : Type} (a : A) : tame (mret a : IO A).
Proof. split; [intros s1 s2 H; now split|intros s line H; exact H]. Qed.

Lemma tame_raise {A : Type} (e : Exn) : tame (raise e : IO A).
Proof. split; [intros s1 s2 H; now split|intros s line H; exact H]. Qed.

Lemma tame_bind {A B : Type} (m : IO A) (f : A -> IO B) :
  tame m -> (forall a, tame (f a)) -> tame (m ≫= f).
Proof.
  intros [Hm1 Hm2] Hf. split.
  - intros s1 s2 H. unfold mbind, IO_bind.
    destruct (Hm1 s1 s2 H) as [Hr Hs].
    destruct (m s1) as [[a1|e1] s1'], (m s2) as [[a2|e2] s2'];
      simpl in Hr, Hs; try discriminate.
    + injection Hr as ->. now apply (Hf a2).
    + injection Hr as ->. now split.
  - intros s line H. unfold mbind, IO_bind.
    specialize (Hm2 s line H).
    destruct (m s) as [[a|e] s']; simpl in Hm2; [|exact Hm2].
    now apply (Hf a).
Qed.

Lemma tame_lift {A : Type} (r : result A) : tame (lift r).
Proof. destruct r; [apply tame_ret|apply tame_raise]. Qed.

Lemma tame_print (line : fstring) : tame (print line).
Proof.
  split.
  - intros s1 s2 [H1 H2]. now repeat split.
  - intros s l H. simpl. apply elem_of_app. now left.
Qed.

Lemma tame_write_file (path : string) (content : fstring) :
  tame (write_file path content).
Proof.
  split.
  - intros s1 s2 [H1 H2]. repeat split; simpl; congruence.
  - intros s l H. exact H.
Qed.

Lemma tame_path_exists (path : string) : tame (path_exists path).
Proof.
  split.
  - intros s1 s2 [H1 H2]. unfold path_exists. simpl. rewrite H2.
    now repeat split.
  - intros s l H. exact H.
Qed.

Lemma tame_append_mesh (m : Mesh) : tame (append_mesh m).
Proof.
  split.
  - intros s1 s2 [H1 H2]. repeat split; simpl; congruence.
  - intros s l H. exact H.
Qed.

Lemma tame_get_all_meshes : tame get_all_meshes.
Proof.
  split.
  - intros s1 s2 [H1 H2]. unfold get_all_meshes. simpl. rewrite H1.
    now repeat split.
  - intros s l H. exact H.
Qed.

Lemma tame_getitem (d : dict) (key : string) : tame (getitem d key).
Proof.
  unfold getitem. destruct (d !! key); [apply tame_ret|apply tame_raise].
Qed.

Lemma tame_for_each_io {A : Type} (body : A -> IO unit) (l : list A) :
  (forall a, tame (body a)) -> tame (for_each_io body l).
Proof.
  intros Hbody. induction l as [|a l IH]; cbn [for_each_io].
  - apply tame_ret.
  - apply tame_bind; [apply Hbody|intros _; exact IH].
Qed.

Lemma tame_process_object (obj : Obj.t) : tame (process_object obj).
Proof.
  unfold process_object.
  destruct (OBJECT_GENERATORS !! default "ground-flat" (Obj.type obj));
    [|apply tame_print].
  apply tame_bind; [apply tame_lift|intros mesh].
  apply tame_bind; [apply tame_append_mesh|intros _].
  apply tame_bind; [apply tame_getitem|intros px].
  apply tame_bind; [apply tame_getitem|intros py].
  apply tame_bind; [apply tame_getitem|intros pz].
  apply tame_print.
Qed.

Lemma tame_write_trueskate_txt meshes textures output_path :
  tame (write_trueskate_txt meshes textures output_path).
Proof.
  unfold write_trueskate_txt.
  apply tame_bind; [apply tame_write_file|intros _; apply tame_print].
Qed.

Lemma tame_write_mod_json name txt_filename output_path :
  tame (write_mod_json name txt_filename output_path).
Proof.
  unfold write_mod_json.
  apply tame_bind; [apply tame_write_file|intros _; apply tame_print].
Qed.

Lemma tame_after_loop (park_name output_dir : string) :
  tame (after_loop park_name output_dir).
Proof.
  unfold after_loop.
  apply tame_bind; [apply tame_get_all_meshes|intros meshes].
  apply tame_bind; [apply tame_write_trueskate_txt|intros _].
  apply tame_bind; [apply tame_write_mod_json|intros _].
  apply tame_bind; [apply tame_path_exists|intros present].
  apply tame_bind.
  { destruct present; [apply tame_ret|apply tame_write_file]. }
  intros _.
  repeat (apply tame_bind; [apply tame_print|intros _]).
  apply tame_ret.
Qed.

(** *** A descriptor of unknown type *)

Lemma process_unknown (obj : Obj.t) (obj_type : string) :
  Obj.type obj = Some obj_type ->
  OBJECT_GENERATORS !! obj_type = None ->
  process_object obj = print (unknown_type_line obj_type).
Proof.
  intros Hty Hreg. unfold process_object. rewrite Hty.
  cbn [from_option]. unfold Datatypes.id. now rewrite Hreg.
Qed.

Lemma seq_loop_app {A B : Type} (body : A -> IO unit) (l1 l2 : list A)
    (k : IO B) (s : Store) :
  (for_each_io body (l1 ++ l2);; k) s
  = (for_each_io body l1;; (for_each_io body l2;; k)) s.
Proof.
  unfold mbind, IO_bind. rewrite for_each_io_app. unfold mbind, IO_bind.
  now destruct (for_each_io body l1 s) as [[[]|e] s'].
Qed.

Lemma seq_loop_cons {A B : Type} (body : A -> IO unit) (a : A) (l : list A)
    (k : IO B) (s : Store) :
  (for_each_io body (a :: l);; k) s
  = (body a;; (for_each_io body l;; k)) s.
Proof.
  cbn [for_each_io]. unfold mbind, IO_bind.
  now destruct (body a s) as [[[]|e] s'].
Qed.

(** The loop with a descriptor of unknown type against the loop without
    it, each followed by the same tame computation. *)
Lemma loop_skips_unknown {A : Type} (before after : list Obj.t) (obj : Obj.t)
    (obj_type : string) (k : IO A) (s s0 : Store) :
  tame k ->
  Obj.type obj = Some obj_type ->
  OBJECT_GENERATORS !! obj_type = None ->
  same_scene_and_files s s0 ->
  ((for_each_io process_object (before ++ obj :: after);; k) s).1
  = ((for_each_io process_object (before ++ after);; k) s0).1
  /\ same_scene_and_files
       ((for_each_io process_object (before ++ obj :: after);; k) s).2
       ((for_each_io process_object (before ++ after);; k) s0).2
  /\ (forall a,
        ((for_each_io process_object (before ++ obj :: after);; k) s).1 = Ok a ->
        unknown_type_line obj_type
        ∈ stdout ((for_each_io process_object (before ++ obj :: after);; k) s).2).
Proof.
  intros Hk Hty Hreg Hsim.
  pose proof (tame_for_each_io process_object before tame_process_object)
    as [Hb _].
  assert (Hrest : tame (for_each_io process_object after;; k)).
  { apply tame_bind; [|intros _; exact Hk].
    apply tame_for_each_io, tame_process_object. }
  destruct Hrest as [Hr1 Hr2].
  destruct (Hb s s0 Hsim) as [Hres Hsim'].
  assert (Ewith :
    (for_each_io process_object (before ++ obj :: after);; k) s
    = (for_each_io process_object before;;
       (print (unknown_type_line obj_type);;
        (for_each_io process_object after;; k))) s).
  { rewrite seq_loop_app. unfold mbind at 1 3. unfold IO_bind at 1 3.
    destruct (for_each_io process_object before s) as [[[]|e] s1];
      [|reflexivity].
    rewrite seq_loop_cons. now rewrite (process_unknown obj obj_type). }
  rewrite Ewith, seq_loop_app. clear Ewith.
  set (rest := for_each_io process_object after;; k) in *.
  unfold mbind, IO_bind.
  destruct (for_each_io process_object before s) as [[[]|e] s1],
           (for_each_io process_object before s0) as [[[]|e0] s1'];
    simpl in Hres, Hsim'; try discriminate.
  - cbn [print fst snd].
    set (s2 := mkStore (all_meshes s1)
                       (stdout s1 ++ [unknown_type_line obj_type])
                       (files s1) (documents s1)).
    assert (Hsim2 : same_scene_and_files s2 s1') by exact Hsim'.
    destruct (Hr1 s2 s1' Hsim2) as [Hres2 Hsim3].
    repeat split; try assumption; try apply Hsim3.
    intros a _. apply Hr2. unfold s2. simpl.
    apply elem_of_app. right. left.
  - injection Hres as ->. simpl. repeat split; try apply Hsim'.
    intros a Ha. discriminate.
Qed.

(** C5, as amended: a descriptor whose type is not in the registry changes
    neither what [export_skatepark] returns or raises, nor the scene, nor
    the files written: they are those of the same object list without the
    descriptor.  The descriptor itself never raises; its only trace is the
    console line [  ! Unknown object type: T], present whenever the export
    returns.  The caller receives the output path and nothing else. *)
Theorem unknown_type_is_skipped
    (before after : list Obj.t) (obj : Obj.t) (obj_type : string)
    (name : option string) (json_path output_dir : string) (s : Store) :
  Obj.type obj = Some obj_type ->
  OBJECT_GENERATORS !! obj_type = None ->
  documents s !! json_path
  = Some (Park.mk name (Some (before ++ obj :: after))) ->
  let with_it := export_skatepark json_path output_dir s in
  let without_it :=
    export_skatepark json_path output_dir
      (with_document json_path (Park.mk name (Some (before ++ after))) s) in
  with_it.1 = without_it.1
  /\ all_meshes with_it.2 = all_meshes without_it.2
  /\ files with_it.2 = files without_it.2
  /\ (forall s',
        process_object obj s'
        = (Ok tt,
           mkStore (all_meshes s')
                   (stdout s' ++ [unknown_type_line obj_type])
                   (files s') (documents s')))
  /\ (forall output_path,
        with_it.1 = Ok output_path ->
        unknown_type_line obj_type ∈ stdout with_it.2).
Proof.
  intros Hty Hreg Hdoc with_it without_it.
  unfold with_it, without_it.
  rewrite (export_skatepark_cut json_path output_dir s _ Hdoc).
  rewrite (export_skatepark_cut json_path output_dir
             (with_document json_path (Park.mk name (Some (before ++ after))) s)
             (Park.mk name (Some (before ++ after))))
    by apply lookup_insert_eq.
  cbn [Park.name Park.objects from_option Datatypes.id].
  unfold Datatypes.id.
  destruct (loop_skips_unknown before after obj obj_type
              (after_loop (default "My Skatepark" name) output_dir)
              (at_loop_start (Park.mk name (Some (before ++ obj :: after))) s)
              (at_loop_start (Park.mk name (Some (before ++ after)))
                 (with_document json_path
                    (Park.mk name (Some (before ++ after))) s)))
    as (Hres & [Hscene Hfiles] & Hline);
    [apply tame_after_loop|exact Hty|exact Hreg|now split|].
  repeat split; try assumption.
  intros s'. now rewrite (process_unknown obj obj_type Hty Hreg).
Qed.

Lemma unknown_type_is_skipped_witness :
  Obj.type unknown_object = Some "not-a-real-type"
  /\ OBJECT_GENERATORS !! "not-a-real-type" = None
  /\ documents (store_with [unknown_object]) !! "park.json"
     = Some (Park.mk None (Some ([] ++ unknown_object :: [])))
  /\ (export_skatepark "park.json" "out" (store_with [unknown_object])).1
     = (export_skatepark "park.json" "out"
          (with_document "park.json" (Park.mk None (Some ([] ++ [])))
             (store_with [unknown_object]))).1.
Proof.
  assert (H1 : Obj.type unknown_object = Some "not-a-real-type")
    by reflexivity.
  assert (H2 : OBJECT_GENERATORS !! "not-a-real-type" = None) by reflexivity.
  assert (H3 : documents (store_with [unknown_object]) !! "park.json"
               = Some (Park.mk None (Some ([] ++ unknown_object :: []))))
    by reflexivity.
  split; [exact H1|split; [exact H2|split; [exact H3|]]].
  exact (proj1 (unknown_type_is_skipped [] [] unknown_object
                  "not-a-real-type" None "park.json" "out"
                  (store_with [unknown_object]) H1 H2 H3)).
Defined.

(** C5, as stated, fails on the report: what the caller of
    [export_skatepark] receives for [{"type": "not-a-real-type"}] is the
    output path, the very value it receives for no object at all; the skip
    is on the console only. *)
Lemma unknown_type_counterexample :
  (export_skatepark "park.json" "out" (store_with [unknown_object])).1
  = Ok "out/my_skatepark"
  /\ (export_skatepark "park.json" "out" (store_with [])).1
     = Ok "out/my_skatepark"
  /\ stdout (export_skatepark "park.json" "out" (store_with [unknown_object])).2
       !! 1%nat
     = Some (lit "  ! Unknown object type: not-a-real-type").
Proof. repeat split. Qed.

(** *** A descriptor of known type *)

(** What the loop body does for a descriptor whose type is in the
    registry: the placed mesh joins the scene, then the console line is
    printed, unless the position lacks one of the keys the line reads. *)
Lemma process_known (obj : Obj.t) (obj_type : string) (generator : Generator)
    (mesh : Mesh) (s : Store) :
  default "ground-flat" (Obj.type obj) = obj_type ->
  OBJECT_GENERATORS !! obj_type = Some generator ->
  generator tt = Ok mesh ->
  let pos := default default_position (Obj.position obj) in
  let s1 :=
    mkStore (all_meshes s ++ [place_object mesh obj])
            (stdout s) (files s) (documents s) in
  process_object obj s
  = match pos !! "x", pos !! "y", pos !! "z" with
    | Some px, Some py, Some pz =>
        (Ok tt,
         mkStore (all_meshes s ++ [place_object mesh obj])
                 (stdout s ++ [placed_line obj_type px py pz])
                 (files s) (documents s))
    | None, _, _ => (Raise (KeyError "x"), s1)
    | Some _, None, _ => (Raise (KeyError "y"), s1)
    | Some _, Some _, None => (Raise (KeyError "z"), s1)
    end.
Proof.
  intros Hty Hreg Hgen pos s1. unfold process_object.
  rewrite Hty, Hreg, Hgen.
  fold default_position default_rotation. fold pos.
  unfold mbind, IO_bind, lift, getitem, mret, IO_ret, raise.
  cbn [append_mesh fst snd].
  destruct (pos !! "x") as [px|], (pos !! "y") as [py|],
           (pos !! "z") as [pz|]; reflexivity.
Qed.

Lemma registry_ground_flat :
  OBJECT_GENERATORS !! "ground-flat"
  = Some (fun _ => Ok (generate_ground_flat 10.0)).
Proof. reflexivity. Qed.

Lemma registry_ledge :
  OBJECT_GENERATORS !! "ledge"
  = Some (fun _ => Ok (generate_ledge 5.0 0.6 0.8)).
Proof. reflexivity. Qed.

(** The statements after the loop leave the scene alone. *)
Lemma keeps_scene_bind {A B : Type} (m : IO A) (f : A -> IO B) :
  keeps_scene m -> (forall a, keeps_scene (f a)) -> keeps_scene (m ≫= f).
Proof.
  intros Hm Hf s. unfold mbind, IO_bind. specialize (Hm s).
  destruct (m s) as [[a|e] s']; simpl in Hm; [|exact Hm].
  now rewrite (Hf a s').
Qed.

Lemma keeps_scene_print (line : fstring) : keeps_scene (print line).
Proof. intros s. reflexivity. Qed.

Lemma keeps_scene_write_file (path : string) (content : fstring) :
  keeps_scene (write_file path content).
Proof. intros s. reflexivity. Qed.

Lemma after_loop_keeps_scene (park_name output_dir : string) :
  keeps_scene (after_loop park_name output_dir).
Proof.
  unfold after_loop, write_trueskate_txt, write_mod_json.
  apply keeps_scene_bind; [intros s; reflexivity|intros meshes].
  apply keeps_scene_bind.
  { apply keeps_scene_bind; [apply keeps_scene_write_file|intros _].
    apply keeps_scene_print. }
  intros _. apply keeps_scene_bind.
  { apply keeps_scene_bind; [apply keeps_scene_write_file|intros _].
    apply keeps_scene_print. }
  intros _. apply keeps_scene_bind; [intros s; reflexivity|intros present].
  apply keeps_scene_bind.
  { destruct present; [intros s; reflexivity|apply keeps_scene_write_file]. }
  intros _.
  repeat (apply keeps_scene_bind; [apply keeps_scene_print|intros _]).
  intros s. reflexivity.
Qed.

(** Case analysis on the keys a dictionary is read at. *)
Ltac case_keys :=
  repeat match goal with
         | |- context [match ?d !! ?k with _ => _ end] => destruct (d !! k)
         end.

Lemma loop_single {A : Type} (obj : Obj.t) (k : IO A) (s : Store) :
  (for_each_io process_object [obj];; k) s
  = match process_object obj s with
    | (Ok _, s') => k s'
    | (Raise e, s') => (Raise e, s')
    end.
Proof.
  rewrite seq_loop_cons. unfold mbind, IO_bind. cbn [for_each_io].
  now destruct (process_object obj s) as [[[]|e] s'].
Qed.

(** C10: a descriptor without a "type" field is handled as a descriptor of
    type "ground-flat": the loop body appends to the scene the flat-ground
    mesh of default size 10.0, placed as the descriptor says, and all it
    adds to the console is the line of a placed "ground-flat" object, or
    nothing when the position lacks a key and that line raises: no
    unknown-type line is printed; exported alone, it leaves a scene of two
    meshes, the 50-unit ground plane and that second ground mesh. *)
Theorem missing_type_is_ground_flat
    (obj : Obj.t) (s : Store) (name : option string)
    (json_path output_dir : string) :
  Obj.type obj = None ->
  documents s !! json_path = Some (Park.mk name (Some [obj])) ->
  process_object obj s
  = process_object
      (Obj.mk (Some "ground-flat") (Obj.position obj) (Obj.rotation obj)
              (Obj.scale obj)) s
  /\ all_meshes (process_object obj s).2
     = all_meshes s ++ [place_object (generate_ground_flat 10.0) obj]
  /\ (stdout (process_object obj s).2
      = stdout s ++ console_of "ground-flat" obj
      /\ forall obj_type,
           unknown_type_line obj_type ∉ console_of "ground-flat" obj)
  /\ all_meshes (export_skatepark json_path output_dir s).2
     = [ground_plane; place_object (generate_ground_flat 10.0) obj].
Proof.
  intros Hty Hdoc.
  assert (Hknown := fun s' =>
    process_known obj "ground-flat" _ (generate_ground_flat 10.0) s'
      ltac:(now rewrite Hty) registry_ground_flat eq_refl).
  cbv zeta in Hknown.
  split; [|split; [|split]].
  - unfold process_object. now rewrite Hty.
  - rewrite Hknown. now case_keys.
  - split.
    + rewrite Hknown. unfold console_of. cbv zeta.
      case_keys; cbn [snd stdout]; try reflexivity;
        now rewrite app_nil_r.
    + intros obj_type. unfold console_of. cbv zeta.
      case_keys; rewrite ?elem_of_cons, ?elem_of_nil;
        intros H; repeat destruct H as [H|H]; try contradiction;
        discriminate H.
  - rewrite (export_skatepark_cut json_path output_dir s _ Hdoc).
    cbn [Park.objects from_option]. unfold Datatypes.id.
    rewrite loop_single, Hknown.
    case_keys; try reflexivity.
    now rewrite after_loop_keeps_scene.
Qed.

Lemma missing_type_is_ground_flat_witness :
  Obj.type untyped_object = None
  /\ documents (store_with [untyped_object]) !! "park.json"
     = Some (Park.mk None (Some [untyped_object]))
  /\ all_meshes
       (export_skatepark "park.json" "out" (store_with [untyped_object])).2
     = [ground_plane; place_object (generate_ground_flat 10.0) untyped_object].
Proof.
  assert (H1 : Obj.type untyped_object = None) by reflexivity.
  assert (H2 : documents (store_with [untyped_object]) !! "park.json"
               = Some (Park.mk None (Some [untyped_object]))) by reflexivity.
  split; [exact H1|split; [exact H2|]].
  exact (proj2 (proj2 (proj2
           (missing_type_is_ground_flat untyped_object
              (store_with [untyped_object]) None "park.json" "out" H1 H2)))).
Defined.

(** *** A single ledge *)

(** C8, at the input [{"objects": [{"type": "ledge", "position": {"x": 1}}]}]:
    the ledge is generated, transformed with the defaults for the missing
    "y" and "z" and appended to the scene, but the console line that
    follows reads [pos['y']]: the export raises [KeyError('y')] and no
    geometry file is written, so no vertex-count line and no material table
    come out for this placement. *)
Theorem single_ledge_partial_position_raises :
  (export_skatepark "park.json" "out" (store_with [ledge_at_x])).1
  = Raise (KeyError "y")
  /\ files (export_skatepark "park.json" "out" (store_with [ledge_at_x])).2
     = ∅
  /\ all_meshes (export_skatepark "park.json" "out" (store_with [ledge_at_x])).2
     = [ground_plane; place_object (generate_ledge 5.0 0.6 0.8) ledge_at_x].
Proof. repeat split. Qed.

(** For a ledge whose position, when given, has its three keys, the export
    returns and the geometry file has the layout of the format: the global
    vertex-count line is 48, the 24 vertices of the ground plane and the 24
    of the ledge, and the material table is the fixed one. *)
Lemma single_ledge_export (obj : Obj.t) :
  Obj.type obj = Some "ledge" ->
  (forall key, key ∈ ["x"; "y"; "z"] ->
     is_Some (default default_position (Obj.position obj) !! key)) ->
  let scene := [ground_plane; place_object (generate_ledge 5.0 0.6 0.8) obj] in
  let run := export_skatepark "park.json" "out" (store_with [obj]) in
  run.1 = Ok "out/my_skatepark"
  /\ all_meshes run.2 = scene
  /\ len (vertices ground_plane) = 24%Z
  /\ files run.2 !! "out/my_skatepark/my_skatepark.txt"
     = Some (join (lit newline)
               (front_matter ["concrete_gray"]
                ++ (lit "6 #Num Materials"
                      :: flat_map material_block
                           [(128, 128, 130); (100, 100, 105); (85, 85, 90);
                            (180, 180, 180); (136, 85, 51); (139, 69, 19)]%Z)
                ++ [lit "48 #Num Vertices"]
                ++ flat_map mesh_header scene
                ++ flat_map vertex_block scene
                ++ flat_map index_block scene)).
Proof.
  intros Hty Hkeys scene run. unfold run.
  rewrite (export_skatepark_cut "park.json" "out" (store_with [obj])
             (Park.mk None (Some [obj])) eq_refl).
  cbn [Park.objects Park.name from_option]. unfold Datatypes.id.
  rewrite loop_single.
  rewrite (process_known obj "ledge" _ (generate_ledge 5.0 0.6 0.8) _
             ltac:(now rewrite Hty) registry_ledge eq_refl).
  cbv zeta.
  destruct (Hkeys "x") as [px ->]; [set_solver|].
  destruct (Hkeys "y") as [py ->]; [set_solver|].
  destruct (Hkeys "z") as [pz ->]; [set_solver|].
  split; [reflexivity|]. split; [apply after_loop_keeps_scene|].
  split; [reflexivity|].
  transitivity
    (Some (join (lit newline) (trueskate_lines scene ["concrete_gray"])));
    [reflexivity|].
  rewrite trueskate_lines_layout. reflexivity.
Qed.

(** The example of the specification: a ledge at (1, 0, 2), scale 2. *)
Lemma single_ledge_export_example :
  (export_skatepark "park.json" "out" (store_with [ledge_placed])).1
  = Ok "out/my_skatepark"
  /\ all_meshes (export_skatepark "park.json" "out" (store_with [ledge_placed])).2
     = [ground_plane; place_object (generate_ledge 5.0 0.6 0.8) ledge_placed].
Proof.
  assert (Hkeys : forall key, key ∈ ["x"; "y"; "z"] ->
            is_Some (default default_position (Obj.position ledge_placed)
                       !! key)).
  { intros key Hkey. rewrite !elem_of_cons in Hkey. rewrite elem_of_nil in Hkey.
    destruct Hkey as [->|[->|[->|[]]]]; eexists; reflexivity. }
  destruct (single_ledge_export ledge_placed eq_refl Hkeys) as (H1 & H2 & _).
  now split.
Qed.

(** * Further properties of the code *)

(** ** Face normals *)

Lemma sum_squares_nonneg (a b c : R) : 0 <= a * a + b * b + c * c.
Proof. nra. Qed.

Lemma sum_squares_zero (a b c : R) :
  a * a + b * b + c * c = 0 -> a = 0 /\ b = 0 /\ c = 0.
Proof.
  intros H.
  assert (Ha : a * a = 0) by nra.
  assert (Hb : b * b = 0) by nra.
  assert (Hc : c * c = 0) by nra.
  apply Rmult_integral in Ha, Hb, Hc. tauto.
Qed.

Lemma normalised_is_unit (nx ny nz l : R) :
  0 < l -> l * l = nx * nx + ny * ny + nz * nz ->
  nx / l * (nx / l) + ny / l * (ny / l) + nz / l * (nz / l) = 1.
Proof.
  intros Hl Hsq. assert (Hl0 : l <> 0) by lra.
  replace (nx / l * (nx / l) + ny / l * (ny / l) + nz / l * (nz / l))
    with ((nx * nx + ny * ny + nz * nz) / (l * l)) by (field; exact Hl0).
  rewrite <- Hsq. field. exact Hl0.
Qed.

Lemma calc_normal_length (p1 p2 p3 : vec3) :
  dot (calc_normal p1 p2 p3) (calc_normal p1 p2 p3) = 1.
Proof.
  unfold calc_normal, dot. cbv zeta.
  match goal with |- context [Rlt_dec 0 (sqrt ?s)] => set (sq := s) end.
  destruct (Rlt_dec 0 (sqrt sq)) as [Hpos|Hnpos]; cbn [fst snd].
  - apply normalised_is_unit; [exact Hpos|].
    apply sqrt_sqrt, sum_squares_nonneg.
  - lra.
Qed.

(** X1: the normal computed for a face always has length 1: it is the
    normalised cross product of the two edges, or (0, 1, 0). *)
Theorem calc_normal_unit (p1 p2 p3 : vec3) :
  dot (calc_normal p1 p2 p3) (calc_normal p1 p2 p3) = 1.
Proof.
  unfold calc_normal, dot. cbv zeta.
  match goal with |- context [Rlt_dec 0 (sqrt ?s)] => set (sq := s) end.
  destruct (Rlt_dec 0 (sqrt sq)) as [Hpos|Hnpos]; cbn [fst snd].
  - apply normalised_is_unit; [exact Hpos|].
    apply sqrt_sqrt, sum_squares_nonneg.
  - lra.
Qed.

(** X2: three points whose edges have a zero cross product (two equal points,
    or three points on a line) get the fallback normal (0, 1, 0). *)
Theorem calc_normal_degenerate (p1 p2 p3 : vec3) :
  cross (sub3 p2 p1) (sub3 p3 p1) = (0, 0, 0) ->
  calc_normal p1 p2 p3 = (0, 1, 0).
Proof.
  unfold cross, sub3, calc_normal. cbn [fst snd]. intros H.
  injection H as Hx Hy Hz. cbv zeta. rewrite Hx, Hy, Hz.
  replace (0 * 0 + 0 * 0 + 0 * 0) with 0 by ring. rewrite sqrt_0.
  destruct (Rlt_dec 0 0) as [H|H]; [lra|reflexivity].
Qed.

Lemma calc_normal_degenerate_witness :
  cross (sub3 (1, 2, 3) (1, 2, 3)) (sub3 (4, 5, 6) (1, 2, 3)) = (0, 0, 0)
  /\ calc_normal (1, 2, 3) (1, 2, 3) (4, 5, 6) = (0, 1, 0).
Proof.
  assert (H : cross (sub3 (1, 2, 3) (1, 2, 3)) (sub3 (4, 5, 6) (1, 2, 3))
              = (0, 0, 0)).
  { unfold cross, sub3. cbn [fst snd]. f_equal; [f_equal|]; ring. }
  split; [exact H|exact (calc_normal_degenerate _ _ _ H)].
Defined.

(** X3: in exact arithmetic, the reals to which this development idealises
    the floats, for three points that are not on a line the normal is
    perpendicular to both edges leaving the first point. *)
Theorem calc_normal_orthogonal (p1 p2 p3 : vec3) :
  cross (sub3 p2 p1) (sub3 p3 p1) <> (0, 0, 0) ->
  dot (calc_normal p1 p2 p3) (sub3 p2 p1) = 0
  /\ dot (calc_normal p1 p2 p3) (sub3 p3 p1) = 0.
Proof.
  unfold cross, sub3, calc_normal, dot. cbn [fst snd]. cbv zeta. intros H.
  match goal with |- context [Rlt_dec 0 (sqrt ?s)] => set (sq := s) end.
  destruct (Rlt_dec 0 (sqrt sq)) as [Hpos|Hnpos]; cbn [fst snd].
  - assert (Hl0 : sqrt sq <> 0) by (apply Rgt_not_eq; exact Hpos).
    clearbody sq. split; field; exact Hl0.
  - exfalso. apply H.
    assert (Hsq : 0 <= sq) by apply sum_squares_nonneg.
    assert (Hz : sq = 0).
    { destruct (Req_dec sq 0) as [E|E]; [exact E|].
      exfalso. apply Hnpos. apply sqrt_lt_R0.
      destruct Hsq as [Hlt|Heq]; [exact Hlt|congruence]. }
    unfold sq in Hz. apply sum_squares_zero in Hz as (-> & -> & ->).
    reflexivity.
Qed.

Lemma calc_normal_orthogonal_witness :
  cross (sub3 (1, 0, 0) (0, 0, 0)) (sub3 (0, 0, 1) (0, 0, 0)) <> (0, 0, 0)
  /\ dot (calc_normal (0, 0, 0) (1, 0, 0) (0, 0, 1)) (sub3 (1, 0, 0) (0, 0, 0))
     = 0.
Proof.
  assert (H : cross (sub3 (1, 0, 0) (0, 0, 0)) (sub3 (0, 0, 1) (0, 0, 0))
              <> (0, 0, 0)).
  { unfold cross, sub3. cbn [fst snd]. intros E. injection E as _ E _. lra. }
  split; [exact H|exact (proj1 (calc_normal_orthogonal _ _ _ H))].
Defined.

(** ** Shapes of the generated meshes *)

Lemma generate_box_vertices (w h d ox oy oz : R) :
  vertices (generate_box w h d ox oy oz)
  = [ vertex (- (w / 2) + ox) (- (h / 2) + oy) (- (d / 2) + oz) 0 0 (-1) 0.0 0.0;
      vertex (w / 2 + ox) (- (h / 2) + oy) (- (d / 2) + oz) 0 0 (-1) 1.0 0.0;
      vertex (w / 2 + ox) (h / 2 + oy) (- (d / 2) + oz) 0 0 (-1) 1.0 1.0;
      vertex (- (w / 2) + ox) (h / 2 + oy) (- (d / 2) + oz) 0 0 (-1) 0.0 1.0;
      vertex (w / 2 + ox) (- (h / 2) + oy) (d / 2 + oz) 0 0 1 0.0 0.0;
      vertex (- (w / 2) + ox) (- (h / 2) + oy) (d / 2 + oz) 0 0 1 1.0 0.0;
      vertex (- (w / 2) + ox) (h / 2 + oy) (d / 2 + oz) 0 0 1 1.0 1.0;
      vertex (w / 2 + ox) (h / 2 + oy) (d / 2 + oz) 0 0 1 0.0 1.0;
      vertex (- (w / 2) + ox) (- (h / 2) + oy) (d / 2 + oz) (-1) 0 0 0.0 0.0;
      vertex (- (w / 2) + ox) (- (h / 2) + oy) (- (d / 2) + oz) (-1) 0 0 1.0 0.0;
      vertex (- (w / 2) + ox) (h / 2 + oy) (- (d / 2) + oz) (-1) 0 0 1.0 1.0;
      vertex (- (w / 2) + ox) (h / 2 + oy) (d / 2 + oz) (-1) 0 0 0.0 1.0;
      vertex (w / 2 + ox) (- (h / 2) + oy) (- (d / 2) + oz) 1 0 0 0.0 0.0;
      vertex (w / 2 + ox) (- (h / 2) + oy) (d / 2 + oz) 1 0 0 1.0 0.0;
      vertex (w / 2 + ox) (h / 2 + oy) (d / 2 + oz) 1 0 0 1.0 1.0;
      vertex (w / 2 + ox) (h / 2 + oy) (- (d / 2) + oz) 1 0 0 0.0 1.0;
      vertex (- (w / 2) + ox) (h / 2 + oy) (- (d / 2) + oz) 0 1 0 0.0 0.0;
      vertex (w / 2 + ox) (h / 2 + oy) (- (d / 2) + oz) 0 1 0 1.0 0.0;
      vertex (w / 2 + ox) (h / 2 + oy) (d / 2 + oz) 0 1 0 1.0 1.0;
      vertex (- (w / 2) + ox) (h / 2 + oy) (d / 2 + oz) 0 1 0 0.0 1.0;
      vertex (- (w / 2) + ox) (- (h / 2) + oy) (d / 2 + oz) 0 (-1) 0 0.0 0.0;
      vertex (w / 2 + ox) (- (h / 2) + oy) (d / 2 + oz) 0 (-1) 0 1.0 0.0;
      vertex (w / 2 + ox) (- (h / 2) + oy) (- (d / 2) + oz) 0 (-1) 0 1.0 1.0;
      vertex (- (w / 2) + ox) (- (h / 2) + oy) (- (d / 2) + oz) 0 (-1) 0 0.0 1.0 ].
Proof. reflexivity. Qed.

(** X4: every vertex of a box lies in the box of the given dimensions around
    the given offset, and the 24 vertices and 36 indices do not depend on
    the dimensions. *)
Theorem generate_box_bounds (w h d ox oy oz : R) :
  0 <= w -> 0 <= h -> 0 <= d ->
  Forall (in_box (ox, oy, oz) (w, h, d))
         (vertices (generate_box w h d ox oy oz))
  /\ len (vertices (generate_box w h d ox oy oz)) = 24%Z
  /\ len (indices (generate_box w h d ox oy oz)) = 36%Z.
Proof.
  intros Hw Hh Hd. split; [|split; reflexivity].
  rewrite generate_box_vertices.
  repeat (apply List.Forall_cons;
          [unfold in_box; cbn [fst snd Vertex.x Vertex.y Vertex.z vertex]; lra|]).
  apply List.Forall_nil.
Qed.

Lemma generate_box_bounds_witness :
  0 <= 2 /\ 0 <= 1 /\ 0 <= 3
  /\ Forall (in_box (0, 0.5, 0) (2, 1, 3))
            (vertices (generate_box 2 1 3 0 0.5 0)).
Proof.
  assert (H1 : 0 <= 2) by lra.
  assert (H2 : 0 <= 1) by lra.
  assert (H3 : 0 <= 3) by lra.
  split; [exact H1|split; [exact H2|split; [exact H3|]]].
  exact (proj1 (generate_box_bounds 2 1 3 0 0.5 0 H1 H2 H3)).
Defined.

(** ** Colours and normals of the generated vertices *)

Lemma sound_vertex_intro (x y z nx ny nz u v : R) :
  nx * nx + ny * ny + nz * nz = 1 ->
  sound_vertex (vertex x y z nx ny nz u v).
Proof. intros H. split; [repeat split|exact H]. Qed.

(** Closes [nx*nx + ny*ny + nz*nz = 1] for an axis or for a cosine and a
    sine of the same angle. *)
Ltac unit_eq :=
  first
    [ lra
    | match goal with
      | |- context [cos ?a] =>
          let H := fresh "Hsc" in
          pose proof (sin2_cos2 a) as H; unfold Rsqr in H; lra
      end ].

Ltac sound_vertices :=
  rewrite ?Forall_app, ?Forall_singleton;
  repeat match goal with
         | |- _ /\ _ => split
         | |- Forall _ (_ :: _) => apply List.Forall_cons
         | |- Forall _ [] => apply List.Forall_nil
         | |- sound_vertex (vertex _ _ _ _ _ _ _ _) =>
             apply sound_vertex_intro; unit_eq
         end.

Lemma fold_left_invariant {S A : Type} (I : S -> Prop) (body : S -> A -> S)
    (l : list A) :
  (forall s x, x ∈ l -> I s -> I (body s x)) ->
  forall s, I s -> I (fold_left body l s).
Proof.
  induction l as [|x l IH]; intros Hbody s Hs; simpl; [exact Hs|].
  apply IH.
  - intros s' y Hy. apply Hbody. now right.
  - apply Hbody; [left|exact Hs].
Qed.

Lemma for_each_invariant {S A : Type} (I : S -> Prop)
    (body : S -> A -> result S) (l : list A) :
  (forall s x s', x ∈ l -> I s -> body s x = Ok s' -> I s') ->
  forall s s', I s -> for_each body l s = Ok s' -> I s'.
Proof.
  induction l as [|x l IH]; intros Hbody s s' Hs E; cbn [for_each] in E.
  - now injection E as <-.
  - destruct (body s x) as [s1|e] eqn:E1; [|discriminate E].
    apply (IH (fun s0 y s0' Hy => Hbody s0 y s0' (list_elem_of_further _ _ _ Hy))
              s1 s').
    + apply (Hbody s x s1); [left|exact Hs|exact E1].
    + exact E.
Qed.

Lemma generate_box_sound (w h d ox oy oz : R) :
  Forall sound_vertex (vertices (generate_box w h d ox oy oz)).
Proof. rewrite generate_box_vertices. sound_vertices. Qed.

Lemma generate_rail_sound (l h r : R) :
  Forall sound_vertex (vertices (generate_rail l h r)).
Proof.
  unfold generate_rail.
  match goal with
  | |- context [fold_left ?b (range 8) ([], [])] =>
      pose proof (fold_left_invariant
                    (fun acc : list Vertex * list Z => Forall sound_vertex acc.1)
                    b (range 8)) as H1
  end.
  specialize (H1 ltac:(intros [vs ixs] i _ H; cbn [fst] in *; sound_vertices; exact H)
                 ([], []) ltac:(apply List.Forall_nil)).
  destruct (fold_left _ (range 8) ([], [])) as [vs1 ixs1]. cbn [fst] in H1.
  match goal with
  | |- context [fold_left ?b ?l (vs1, ixs1)] =>
      pose proof (fold_left_invariant
                    (fun acc : list Vertex * list Z => Forall sound_vertex acc.1)
                    b l) as H2
  end.
  specialize (H2 ltac:(intros acc sx _ Hacc;
                       apply fold_left_invariant; [|exact Hacc];
                       intros [vs ixs] i _ H; cbn [fst] in *;
                       sound_vertices; exact H)
                 (vs1, ixs1) H1).
  destruct (fold_left _ _ (vs1, ixs1)) as [vs2 ixs2]. exact H2.
Qed.

Lemma kicker_normal_unit (dx dy : R) :
  let p :=
    if Rlt_dec 0 (sqrt (dx * dx + dy * dy))
    then (- dy / sqrt (dx * dx + dy * dy), dx / sqrt (dx * dx + dy * dy))
    else (0, 1) in
  p.1 * p.1 + p.2 * p.2 + 0 * 0 = 1.
Proof.
  cbv zeta. destruct (Rlt_dec 0 (sqrt (dx * dx + dy * dy))) as [Hpos|Hnpos];
    cbn [fst snd]; [|lra].
  set (l := sqrt (dx * dx + dy * dy)) in *.
  assert (Hl : l * l = - dy * - dy + dx * dx + 0 * 0).
  { unfold l. rewrite sqrt_sqrt; [ring|nra]. }
  clearbody l.
  pose proof (normalised_is_unit (- dy) dx 0 l Hpos Hl) as H.
  replace (0 / l * (0 / l)) with (0 * 0) in H by (field; lra).
  exact H.
Qed.

Lemma generate_kicker_sound (l h w : R) :
  Forall sound_vertex (vertices (generate_kicker l h w)).
Proof.
  unfold generate_kicker. cbn [vertices].
  rewrite !Forall_app. repeat split; [|sound_vertices|sound_vertices].
  apply fold_left_invariant; [|apply List.Forall_nil].
  intros vs i _ H. rewrite Forall_app. split; [exact H|].
  repeat apply List.Forall_cons; try apply List.Forall_nil;
    apply sound_vertex_intro; apply kicker_normal_unit.
Qed.

Lemma generate_bench_sound : Forall sound_vertex (vertices generate_bench).
Proof.
  unfold generate_bench. cbn [fold_left vertices app].
  rewrite !Forall_app. repeat split; apply generate_box_sound.
Qed.

Lemma concat_rebased_vertices (ms : list Mesh) :
  forall running, (concat_rebased running ms).1 = flat_map vertices ms.
Proof.
  induction ms as [|m ms IH]; intros running; simpl; [reflexivity|].
  now rewrite IH.
Qed.

Lemma concat_rebased_index_count (ms : list Mesh) :
  forall running,
    length (concat_rebased running ms).2 = length (flat_map indices ms).
Proof.
  induction ms as [|m ms IH]; intros running; simpl; [reflexivity|].
  now rewrite !length_app, length_map, IH.
Qed.

Lemma generate_stairs_vertices (n : Z) (h d w : R) :
  vertices (generate_stairs n h d w)
  = flat_map (fun i => vertices (step_box h d w i)) (range n).
Proof.
  unfold generate_stairs.
  pose proof (stairs_loop_from_empty h d w (range n)) as E.
  rewrite_loop E. cbn [vertices]. rewrite concat_rebased_vertices.
  now rewrite flat_map_concat_map, map_map, <- flat_map_concat_map.
Qed.

Lemma generate_stairs_sound (n : Z) (h d w : R) :
  Forall sound_vertex (vertices (generate_stairs n h d w)).
Proof.
  rewrite generate_stairs_vertices. apply Forall_flat_map_chunks.
  intros i _. unfold step_box. apply generate_box_sound.
Qed.

Lemma float_div_zero_divisor (a b : R) :
  b = 0 -> float_div a b = Raise ZeroDivisionError.
Proof.
  intros ->. unfold float_div.
  destruct (Req_dec_T 0 0) as [_|H]; [reflexivity|now destruct H].
Qed.

Lemma generate_pyramid_zero (b h : R) :
  b = 0 -> generate_pyramid b h = Raise ZeroDivisionError.
Proof.
  intros ->. unfold generate_pyramid.
  cbn [fold_left for_each mbind result_bind nth].
  unfold float_div.
  destruct (Req_dec_T (2 * 0) 0) as [_|H]; [reflexivity|].
  exfalso. apply H. ring.
Qed.

Lemma generate_pyramid_sound (b h : R) (m : Mesh) :
  generate_pyramid b h = Ok m -> Forall sound_vertex (vertices m).
Proof.
  destruct (Req_dec_T b 0) as [Hb|Hb].
  { rewrite (generate_pyramid_zero b h Hb). discriminate. }
  assert (H2b : 2 * b <> 0) by lra.
  unfold generate_pyramid.
  cbn [fold_left for_each mbind result_bind nth].
  rewrite !(float_div_ok _ _ H2b).
  cbn [mbind result_bind]. intros [= <-]. cbn [vertices].
  repeat (apply List.Forall_cons;
          [apply sound_vertex_intro;
           first [exact (calc_normal_length _ _ _)|lra]|]).
  apply List.Forall_nil.
Qed.

(** Inverts the divisions of a loop body that returned. *)
Ltac invert_divisions H :=
  unfold mbind, result_bind in H;
  repeat match type of H with
         | context [match ?d with Ok _ => _ | Raise _ => _ end] =>
             destruct d; [|discriminate H]
         end;
  injection H as <-.

Lemma generate_quarter_pipe_sound (r w : R) (n : Z) (m : Mesh) :
  generate_quarter_pipe r w n = Ok m -> Forall sound_vertex (vertices m).
Proof.
  unfold generate_quarter_pipe. intros E.
  unfold mbind, result_bind in E.
  destruct (for_each _ (range (n + 1)) []) as [vs1|] eqn:E1; [|discriminate E].
  assert (H1 : Forall sound_vertex vs1).
  { refine (for_each_invariant (Forall sound_vertex) _ _ _ [] vs1
              (List.Forall_nil _) E1).
    intros s x s' _ Hs Hb. invert_divisions Hb.
    rewrite Forall_app. split; [exact Hs|sound_vertices]. }
  destruct (for_each _ (range (n + 1)) vs1) as [vs2|] eqn:E2; [|discriminate E].
  assert (H2 : Forall sound_vertex vs2).
  { refine (for_each_invariant (Forall sound_vertex) _ _ _ vs1 vs2 H1 E2).
    intros s x s' _ Hs Hb. invert_divisions Hb.
    rewrite Forall_app. split; [exact Hs|sound_vertices]. }
  match type of E with
  | context [for_each ?b ?l ?s] =>
      destruct (for_each b l s) as [vs3|] eqn:E3; [|discriminate E]
  end.
  assert (H3 : Forall sound_vertex vs3).
  { refine (for_each_invariant (Forall sound_vertex) _ _ _ _ vs3 _ E3).
    - intros s x s' _ Hs Hb. invert_divisions Hb.
      rewrite Forall_app. split; [exact Hs|sound_vertices].
    - rewrite !Forall_app. repeat split; [exact H2|sound_vertices..]. }
  injection E as <-. cbn [vertices].
  rewrite !Forall_app. repeat split; [exact H3|sound_vertices..].
Qed.

Lemma generate_slope_white (l h w : R) :
  Forall white (vertices (generate_slope l h w)).
Proof.
  unfold generate_slope. cbn [vertices app].
  repeat (apply List.Forall_cons; [repeat split|]). apply List.Forall_nil.
Qed.

Lemma sound_vertices_of_call (c : GeneratorCall) (m : Mesh) :
  call c = Ok m ->
  (forall l h w, c <> CallSlope l h w) ->
  Forall sound_vertex (vertices m).
Proof.
  destruct c; cbn [call]; intros E Hc;
    try (injection E as <-).
  - apply generate_box_sound.
  - now apply generate_quarter_pipe_sound in E.
  - now apply generate_pyramid_sound in E.
  - apply generate_rail_sound.
  - apply generate_stairs_sound.
  - unfold generate_ledge, set_material_index. cbn [vertices].
    apply generate_box_sound.
  - apply generate_kicker_sound.
  - unfold generate_manual_pad, set_material_index. cbn [vertices].
    apply generate_box_sound.
  - apply generate_bench_sound.
  - unfold generate_ground_flat, set_material_index. cbn [vertices].
    apply generate_box_sound.
  - now destruct (Hc length height width).
Qed.

(** X5: every vertex a generator returns is opaque white: no generator sets a
    colour. *)
Theorem generated_vertices_white (c : GeneratorCall) (m : Mesh) :
  call c = Ok m -> Forall white (vertices m).
Proof.
  intros E.
  assert (Hslope : (exists l h w, c = CallSlope l h w)
                   \/ forall l h w, c <> CallSlope l h w).
  { destruct c; try (right; intros; discriminate). left. eauto. }
  destruct Hslope as [(l & h & w & ->)|Hc].
  - injection E as <-. apply generate_slope_white.
  - eapply Forall_impl; [exact (sound_vertices_of_call c m E Hc)|].
    now intros v [Hw _].
Qed.

Lemma generated_vertices_white_witness :
  call (CallRail 6.0 0.8 0.08) = Ok (generate_rail 6.0 0.8 0.08)
  /\ Forall white (vertices (generate_rail 6.0 0.8 0.08)).
Proof.
  assert (H : call (CallRail 6.0 0.8 0.08) = Ok (generate_rail 6.0 0.8 0.08))
    by reflexivity.
  split; [exact H|exact (generated_vertices_white _ _ H)].
Defined.

(** X6: in exact arithmetic, the reals to which this development idealises
    the floats, every vertex returned by a generator other than the slope
    has a normal of length 1. *)
Theorem generated_normals_unit (c : GeneratorCall) (m : Mesh) :
  call c = Ok m ->
  (forall l h w, c <> CallSlope l h w) ->
  Forall unit_normal (vertices m).
Proof.
  intros E Hc.
  eapply Forall_impl; [exact (sound_vertices_of_call c m E Hc)|].
  now intros v [_ Hu].
Qed.

Lemma generated_normals_unit_witness :
  call (CallKicker 2.0 1.5 3.0) = Ok (generate_kicker 2.0 1.5 3.0)
  /\ (forall l h w, CallKicker 2.0 1.5 3.0 <> CallSlope l h w)
  /\ Forall unit_normal (vertices (generate_kicker 2.0 1.5 3.0)).
Proof.
  assert (H : call (CallKicker 2.0 1.5 3.0) = Ok (generate_kicker 2.0 1.5 3.0))
    by reflexivity.
  assert (Hc : forall l h w, CallKicker 2.0 1.5 3.0 <> CallSlope l h w)
    by (intros; discriminate).
  split; [exact H|split; [exact Hc|exact (generated_normals_unit _ _ H Hc)]].
Defined.

(** X7: the top surface of a slope carries the fixed normal (0, 0.894, -0.447)
    whatever the dimensions: its squared length is 0.999045, and its dot
    product with the rising edge of the surface is 0.894 * height, so it is
    perpendicular to that surface only when the height is 0. *)
Theorem slope_normal_is_fixed (l h w : R) :
  exists v0 v3,
    vertices (generate_slope l h w) !! 0%nat = Some v0
    /\ vertices (generate_slope l h w) !! 3%nat = Some v3
    /\ normal_of v0 = (0, 0.894, -0.447)
    /\ dot (normal_of v0) (normal_of v0) = 0.999045
    /\ sub3 (position_of v3) (position_of v0) = (l - 0, h - 0, - w / 2 - - w / 2)
    /\ dot (normal_of v0) (sub3 (position_of v3) (position_of v0)) = 0.894 * h.
Proof.
  eexists. eexists. split; [reflexivity|]. split; [reflexivity|].
  split; [reflexivity|]. split; [|split; [reflexivity|]].
  - unfold dot, normal_of, vertex. cbn [fst snd Vertex.nx Vertex.ny Vertex.nz].
    lra.
  - unfold dot, sub3, normal_of, position_of, vertex.
    cbn [fst snd Vertex.nx Vertex.ny Vertex.nz Vertex.x Vertex.y Vertex.z].
    lra.
Qed.

(** ** Sizes of the generated meshes and zero dimensions *)

Lemma float_div_zero (a : R) : float_div a 0 = Raise ZeroDivisionError.
Proof. unfold float_div. now destruct (Req_dec_T 0 0). Qed.

(** X8: a quarter pipe of [n >= 1] segments and non-zero radius has [4n + 8]
    vertices and [12n] indices (4n triangles). *)
Theorem generate_quarter_pipe_counts (r w : R) (n : Z) :
  r <> 0 -> (0 < n)%Z ->
  exists m,
    generate_quarter_pipe r w n = Ok m
    /\ len (vertices m) = (4 * n + 8)%Z
    /\ len (indices m) = (12 * n)%Z
    /\ material_index m = 1%Z.
Proof.
  intros Hr Hn. assert (Hn0 : n <> 0%Z) by lia.
  unfold generate_quarter_pipe.
  match goal with
  | |- context [for_each ?b ?l []] =>
      destruct (for_each_grows b 2 l) with (s := @nil Vertex)
        as (vs1 & E1 & L1)
  end.
  { intros s x _. rewrite !int_div_ok by exact Hn0. cbn [mbind result_bind].
    eexists. split; [reflexivity|]. rewrite length_app. simpl. lia. }
  rewrite E1. cbn [mbind result_bind].
  match goal with
  | |- context [for_each ?b ?l vs1] =>
      destruct (for_each_grows b 1 l) with (s := vs1) as (vs2 & E2 & L2)
  end.
  { intros s x _. rewrite !int_div_ok by exact Hn0. cbn [mbind result_bind].
    rewrite !float_div_ok by exact Hr. cbn [mbind result_bind].
    eexists. split; [reflexivity|]. rewrite length_app. simpl. lia. }
  rewrite E2. cbn [mbind result_bind].
  match goal with
  | |- context [for_each ?b ?l ?init] =>
      destruct (for_each_grows b 1 l) with (s := init) as (vs3 & E3 & L3)
  end.
  { intros s x _. rewrite !int_div_ok by exact Hn0. cbn [mbind result_bind].
    rewrite !float_div_ok by exact Hr. cbn [mbind result_bind].
    eexists. split; [reflexivity|]. rewrite length_app. simpl. lia. }
  rewrite E3. cbn [mbind result_bind].
  eexists. split; [reflexivity|]. cbn [vertices indices material_index].
  rewrite length_range in L1, L2, L3.
  rewrite !length_app in L3. simpl in L1, L3.
  split; [|split; [|reflexivity]].
  - unfold len. rewrite !length_app. simpl. lia.
  - rewrite !(fold_left_appending _ _ (fun _ _ => eq_refl)).
    unfold len. rewrite !length_app.
    rewrite (length_flat_map_chunks _ 6), !(length_flat_map_chunks _ 3)
      by reflexivity.
    rewrite length_range. simpl. lia.
Qed.

Lemma generate_quarter_pipe_counts_witness :
  3.0 <> 0 /\ (0 < 12)%Z
  /\ exists m,
       generate_quarter_pipe 3.0 6.0 12 = Ok m
       /\ len (vertices m) = (4 * 12 + 8)%Z
       /\ len (indices m) = (12 * 12)%Z
       /\ material_index m = 1%Z.
Proof.
  assert (H1 : 3.0 <> 0) by lra. assert (H2 : (0 < 12)%Z) by lia.
  split; [exact H1|split; [exact H2|]].
  exact (generate_quarter_pipe_counts 3.0 6.0 12 H1 H2).
Defined.

(** X9: with zero segments the quarter pipe divides by zero at once; with a
    zero radius and at least one segment it divides by zero when it builds
    the side panel. *)
Theorem generate_quarter_pipe_raises (r w : R) (n : Z) :
  n = 0%Z \/ (r = 0 /\ (0 < n)%Z) ->
  generate_quarter_pipe r w n = Raise ZeroDivisionError.
Proof.
  intros [->|[-> Hn]].
  - reflexivity.
  - assert (Hn0 : n <> 0%Z) by lia.
    unfold generate_quarter_pipe.
    match goal with
    | |- context [for_each ?b ?l []] =>
        destruct (for_each_grows b 2 l) with (s := @nil Vertex)
          as (vs1 & E1 & L1)
    end.
    { intros s x _. rewrite !int_div_ok by exact Hn0. cbn [mbind result_bind].
      eexists. split; [reflexivity|]. rewrite length_app. simpl. lia. }
    rewrite E1. cbn [mbind result_bind].
    match goal with
    | |- context [for_each ?b (range (n + 1)) vs1] =>
        assert (E2 : for_each b (range (n + 1)) vs1 = Raise ZeroDivisionError)
    end.
    { unfold range. rewrite seqZ_cons by lia. cbn [for_each].
      rewrite int_div_ok by exact Hn0. cbn [mbind result_bind].
      now rewrite !float_div_zero. }
    now rewrite E2.
Qed.

Lemma generate_quarter_pipe_raises_witness :
  (0%Z = 0%Z \/ (3.0 = 0 /\ (0 < 0)%Z))
  /\ generate_quarter_pipe 3.0 6.0 0 = Raise ZeroDivisionError.
Proof.
  assert (H : 0%Z = 0%Z \/ (3.0 = 0 /\ (0 < 0)%Z)) by (left; reflexivity).
  split; [exact H|exact (generate_quarter_pipe_raises 3.0 6.0 0 H)].
Defined.

(** X10: with a negative segment count no loop runs: the quarter pipe is the
    four corner vertices of the side panels and no triangle, and nothing is
    divided. *)
Theorem generate_quarter_pipe_negative (r w : R) (n : Z) :
  (n < 0)%Z ->
  generate_quarter_pipe r w n
  = Ok (mkMesh [vertex (- r) 0 (- w / 2) 0 0 (-1) 0 0;
                vertex 0 r (- w / 2) 0 0 (-1) 1 1;
                vertex (- r) 0 (w / 2) 0 0 1 0 0;
                vertex 0 r (w / 2) 0 0 1 1 1]
               [] 1).
Proof.
  intros Hn. unfold generate_quarter_pipe, range.
  rewrite !(seqZ_nil 0 (n + 1)) by lia. rewrite !(seqZ_nil 0 n) by lia.
  reflexivity.
Qed.

Lemma generate_quarter_pipe_negative_witness :
  (-1 < 0)%Z
  /\ generate_quarter_pipe 3.0 6.0 (-1)
     = Ok (mkMesh [vertex (- (3.0)) 0 (- (6.0) / 2) 0 0 (-1) 0 0;
                   vertex 0 3.0 (- (6.0) / 2) 0 0 (-1) 1 1;
                   vertex (- (3.0)) 0 (6.0 / 2) 0 0 1 0 0;
                   vertex 0 3.0 (6.0 / 2) 0 0 1 1 1]
                  [] 1).
Proof.
  assert (H : (-1 < 0)%Z) by lia.
  split; [exact H|exact (generate_quarter_pipe_negative 3.0 6.0 (-1) H)].
Defined.

(** X11: stairs of [n] steps have 24 vertices and 36 indices per step; with no
    step, or a negative count, the mesh is empty and has material 1. *)
Theorem generate_stairs_counts (n : Z) (h d w : R) :
  len (vertices (generate_stairs n h d w)) = (24 * Z.max 0 n)%Z
  /\ len (indices (generate_stairs n h d w)) = (36 * Z.max 0 n)%Z
  /\ generate_stairs (Z.min n 0) h d w = mkMesh [] [] 1.
Proof.
  split; [|split].
  - rewrite generate_stairs_vertices. unfold len.
    rewrite (length_flat_map_chunks _ 24) by reflexivity.
    rewrite length_range. lia.
  - unfold generate_stairs.
    pose proof (stairs_loop_from_empty h d w (range n)) as E.
    rewrite_loop E. cbn [indices]. unfold len.
    rewrite concat_rebased_index_count.
    rewrite flat_map_concat_map, map_map, <- flat_map_concat_map.
    rewrite (length_flat_map_chunks _ 36) by reflexivity.
    rewrite length_range. lia.
  - unfold generate_stairs, range.
    now rewrite (seqZ_nil 0 (Z.min n 0)) by lia.
Qed.

(** The rail, the kicker, the slope and the bench have a number of
    vertices and of indices that no dimension changes. *)
Lemma fixed_shape_counts (l h w : R) :
  (len (vertices (generate_rail l h w)),
   len (indices (generate_rail l h w))) = (96, 144)%Z
  /\ (len (vertices (generate_kicker l h w)),
      len (indices (generate_kicker l h w))) = (26, 60)%Z
  /\ (len (vertices (generate_slope l h w)),
      len (indices (generate_slope l h w))) = (18, 24)%Z
  /\ (len (vertices generate_bench), len (indices generate_bench))
     = (72, 108)%Z.
Proof. repeat split. Qed.

(** ** The pyramid *)

(** X12: a pyramid of zero base radius divides by zero when it computes the UV
    coordinates of its bottom face. *)
Theorem generate_pyramid_raises (b h : R) :
  b = 0 -> generate_pyramid b h = Raise ZeroDivisionError.
Proof.
  intros ->. unfold generate_pyramid.
  cbn [fold_left for_each mbind result_bind nth].
  rewrite !float_div_zero_divisor by ring. reflexivity.
Qed.

Lemma generate_pyramid_raises_witness :
  0 = 0 /\ generate_pyramid 0 2.0 = Raise ZeroDivisionError.
Proof.
  assert (H : 0 = 0) by reflexivity.
  split; [exact H|exact (generate_pyramid_raises 0 2.0 H)].
Defined.

Lemma calc_normal_y_negative (p1 p2 p3 : vec3) :
  (cross (sub3 p2 p1) (sub3 p3 p1)).1.2 < 0 ->
  (calc_normal p1 p2 p3).1.2 < 0.
Proof.
  unfold cross, sub3, calc_normal. cbn [fst snd]. cbv zeta.
  set (nx := (p2.1.2 - p1.1.2) * (p3.2 - p1.2)
             - (p2.2 - p1.2) * (p3.1.2 - p1.1.2)).
  set (ny := (p2.2 - p1.2) * (p3.1.1 - p1.1.1)
             - (p2.1.1 - p1.1.1) * (p3.2 - p1.2)).
  set (nz := (p2.1.1 - p1.1.1) * (p3.1.2 - p1.1.2)
             - (p2.1.2 - p1.1.2) * (p3.1.1 - p1.1.1)).
  clearbody nx ny nz. intros Hny.
  assert (Hsq : 0 < nx * nx + ny * ny + nz * nz) by nra.
  pose proof (sqrt_lt_R0 _ Hsq) as Hl.
  destruct (Rlt_dec 0 (sqrt (nx * nx + ny * ny + nz * nz))) as [_|Hn];
    [|contradiction].
  cbn [fst snd]. set (l := sqrt _) in *. clearbody l.
  pose proof (Rinv_0_lt_compat l Hl) as Hinv. unfold Rdiv. nra.
Qed.

(** X13: in exact arithmetic, the reals to which this development idealises
    the floats, a pyramid of positive base radius has 16 vertices and 18
    indices, and every one of its normals has a negative Y component, for
    any height: the cross product taken for a side face has Y component
    [-2b^2], so the side normals point below the horizontal, as the bottom
    normal does. *)
Theorem generate_pyramid_normals (b h : R) :
  0 < b ->
  exists m,
    generate_pyramid b h = Ok m
    /\ len (vertices m) = 16%Z
    /\ len (indices m) = 18%Z
    /\ Forall (fun v => Vertex.ny v < 0) (vertices m).
Proof.
  intros Hb. assert (H2b : 2 * b <> 0) by lra.
  unfold generate_pyramid.
  cbn [fold_left for_each mbind result_bind nth].
  rewrite !(float_div_ok _ _ H2b).
  cbn [mbind result_bind].
  eexists. split; [reflexivity|]. split; [reflexivity|].
  split; [reflexivity|]. cbn [vertices app].
  repeat (apply List.Forall_cons;
          [cbn [Vertex.ny vertex];
           first [lra
                 |apply calc_normal_y_negative;
                  unfold cross, sub3; cbn [fst snd]; nra]|]).
  apply List.Forall_nil.
Qed.

Lemma generate_pyramid_normals_witness :
  0 < 3.0
  /\ exists m,
       generate_pyramid 3.0 2.0 = Ok m
       /\ len (vertices m) = 16%Z
       /\ len (indices m) = 18%Z
       /\ Forall (fun v => Vertex.ny v < 0) (vertices m).
Proof.
  assert (H : 0 < 3.0) by lra.
  split; [exact H|exact (generate_pyramid_normals 3.0 2.0 H)].
Defined.

(** ** More on the transform stage *)

(** X14: with no offset and no turn (keys absent, or present and zero) and
    scale 1, the transform multiplies the position by 100 and leaves the
    rest of the vertex as it is. *)
Theorem transform_vertex_identity (v : Vertex) (pos rot : dict) :
  offset_of pos = (0, 0, 0) -> angle_of rot = 0 ->
  transform_vertex v pos rot 1.0
  = with_position_normal v
      (100 * Vertex.x v, 100 * Vertex.y v, 100 * Vertex.z v) (normal_of v).
Proof.
  unfold offset_of, angle_of. intros [= Hx Hy Hz] Hr.
  unfold transform_vertex. rewrite Hx, Hy, Hz, Hr, cos_0, sin_0.
  unfold with_position_normal, normal_of. cbn [fst snd].
  destruct v as [x y z nx ny nz u v r g b a]. cbn.
  assert (E100 : 100.0 = 100) by lra. assert (E1 : 1.0 = 1) by lra.
  rewrite E100, E1. f_equal; ring.
Qed.

Lemma transform_vertex_identity_witness :
  offset_of ∅ = (0, 0, 0) /\ angle_of ∅ = 0
  /\ transform_vertex (vertex 1 2 3 0 1 0 0 0) ∅ ∅ 1.0
     = with_position_normal (vertex 1 2 3 0 1 0 0 0)
         (100 * Vertex.x (vertex 1 2 3 0 1 0 0 0),
          100 * Vertex.y (vertex 1 2 3 0 1 0 0 0),
          100 * Vertex.z (vertex 1 2 3 0 1 0 0 0))
         (normal_of (vertex 1 2 3 0 1 0 0 0)).
Proof.
  assert (H1 : offset_of ∅ = (0, 0, 0)) by reflexivity.
  assert (H2 : angle_of ∅ = 0) by reflexivity.
  split; [exact H1|split; [exact H2|]].
  exact (transform_vertex_identity (vertex 1 2 3 0 1 0 0 0) ∅ ∅ H1 H2).
Defined.

Lemma within_sub (e1 e2 a' a b' b : R) :
  within e1 a' a -> within e2 b' b -> within (e1 + e2) (a' - b') (a - b).
Proof.
  unfold within. intros Ha Hb.
  replace (a' - b' - (a - b)) with ((a' - a) + - (b' - b)) by ring.
  eapply Rle_trans; [apply Rabs_triang|]. rewrite Rabs_Ropp. lra.
Qed.

Lemma within_add (e1 e2 a' a b' b : R) :
  within e1 a' a -> within e2 b' b -> within (e1 + e2) (a' + b') (a + b).
Proof.
  unfold within. intros Ha Hb.
  replace (a' + b' - (a + b)) with ((a' - a) + (b' - b)) by ring.
  eapply Rle_trans; [apply Rabs_triang|]. lra.
Qed.

(** The square of an approximation. *)
Lemma within_square (e L a' a : R) :
  within e a' a -> Rabs a <= L -> within (e * (2 * L + e)) (a' * a') (a * a).
Proof.
  intros Ha HL. pose proof (within_abs _ _ _ _ Ha HL) as HL'.
  unfold within in *.
  replace (a' * a' - a * a) with ((a' - a) * (a' + a)) by ring.
  apply Rabs_mult_le; [exact Ha|].
  eapply Rle_trans; [apply Rabs_triang|lra].
Qed.

(** One call on the vertex itself. *)
Lemma transform_vertex_rounded_once (ops : FloatOps) (u tiny : R)
    (v : Vertex) (pos rot : dict) (s : R) :
  0 <= u <= / 1000 -> 0 <= tiny -> rounded u tiny ops ->
  within (9.33 * u
          * (100 * (Rabs s * norm1 (Vertex.x v) (Vertex.z v)
                    + Rabs (get pos "x" 0)) + 401 * tiny))
         (Vertex.x (Rounded.transform_vertex ops v pos rot s))
         (Vertex.x (transform_vertex v pos rot s))
  /\ within (3.05 * u
             * (100 * (Rabs s * Rabs (Vertex.y v) + Rabs (get pos "y" 0))
                + 201 * tiny))
            (Vertex.y (Rounded.transform_vertex ops v pos rot s))
            (Vertex.y (transform_vertex v pos rot s))
  /\ within (9.33 * u
             * (100 * (Rabs s * norm1 (Vertex.x v) (Vertex.z v)
                       + Rabs (get pos "z" 0)) + 401 * tiny))
            (Vertex.z (Rounded.transform_vertex ops v pos rot s))
            (Vertex.z (transform_vertex v pos rot s))
  /\ within (5.05 * u * (norm1 (Vertex.nx v) (Vertex.nz v) + 2 * tiny))
            (Vertex.nx (Rounded.transform_vertex ops v pos rot s))
            (Vertex.nx (transform_vertex v pos rot s))
  /\ within (5.05 * u * (norm1 (Vertex.nx v) (Vertex.nz v) + 2 * tiny))
            (Vertex.nz (Rounded.transform_vertex ops v pos rot s))
            (Vertex.nz (transform_vertex v pos rot s)).
Proof.
  intros Hu Htiny Hops.
  assert (Hzero : forall x M : R, within (0 * u * M) x x).
  { intros x M. replace (0 * u * M) with 0 by ring. apply within_refl. }
  destruct (transform_vertex_rounded ops u tiny Hu Htiny Hops v v pos rot s
              0 0 0 _ _ _ (Rle_refl _) (Rle_refl _) (Rle_refl _)
              (Hzero _ _) (Hzero _ _) (Rle_refl _)
              (Hzero _ _) (Rle_refl _) (Hzero _ _) (Hzero _ _) (Rle_refl _))
    as (Hx & Hy & Hz & Hnx & Hnz).
  replace (2.13 * 0 + 9.33) with 9.33 in Hx, Hz by lra.
  replace (1.05 * 0 + 3.05) with 3.05 in Hy by lra.
  replace (2.04 * 0 + 5.05) with 5.05 in Hnx, Hnz by lra.
  repeat split; assumption.
Qed.

Lemma norm1_nonneg (a b : R) : 0 <= norm1 a b.
Proof. unfold norm1. pose proof (Rabs_pos a). pose proof (Rabs_pos b). lra. Qed.

(** X15: in every arithmetic of unit roundoff [u] at most 1/1000, the
    transform keeps the squared length of the normal within floating-point
    tolerance, whatever the placement and the scale: it changes by at most
    21 [u] times the square of the size of the X and Z components. *)
Theorem transform_vertex_normal_length (ops : FloatOps) (u tiny : R)
    (v : Vertex) (pos rot : dict) (scale : R) :
  0 <= u <= / 1000 -> 0 <= tiny -> rounded u tiny ops ->
  within (21 * u * ((norm1 (Vertex.nx v) (Vertex.nz v) + 2 * tiny)
                    * (norm1 (Vertex.nx v) (Vertex.nz v) + 2 * tiny)))
         (dot (normal_of (Rounded.transform_vertex ops v pos rot scale))
              (normal_of (Rounded.transform_vertex ops v pos rot scale)))
         (dot (normal_of v) (normal_of v)).
Proof.
  intros Hu Htiny Hops.
  destruct (transform_vertex_rounded_once ops u tiny v pos rot scale Hu Htiny
              Hops) as (_ & _ & _ & Hnx & Hnz).
  set (w := Rounded.transform_vertex ops v pos rot scale) in *.
  assert (Hny : Vertex.ny w = Vertex.ny v) by reflexivity.
  unfold transform_vertex in Hnx, Hnz. cbn [Vertex.nx Vertex.nz] in Hnx, Hnz.
  set (a := get rot "y" 0) in *.
  pose proof (norm1_nonneg (Vertex.nx v) (Vertex.nz v)) as Hn.
  set (n := norm1 (Vertex.nx v) (Vertex.nz v)) in *.
  destruct (norm1_turn (Vertex.nx v) (Vertex.nz v) (cos a) (sin a) n
              (Rle_refl _) (Rabs_cos_le a) (Rabs_sin_le a)) as [B1 B2].
  set (L := n + 2 * tiny) in *.
  assert (HL : 0 <= L) by (unfold L; lra).
  assert (B1' : Rabs (Vertex.nx v * cos a - Vertex.nz v * sin a) <= L)
    by (unfold L; lra).
  assert (B2' : Rabs (Vertex.nx v * sin a + Vertex.nz v * cos a) <= L)
    by (unfold L; lra).
  pose proof (within_square _ _ _ _ Hnx B1') as S1.
  pose proof (within_square _ _ _ _ Hnz B2') as S2.
  pose proof (within_add _ _ _ _ _ _ S1 S2) as S.
  pose proof (sin2_cos2 a) as Hsc. unfold Rsqr in Hsc.
  unfold dot, normal_of. cbn [fst snd]. rewrite Hny.
  unfold within in *.
  replace (Vertex.nx w * Vertex.nx w + Vertex.ny v * Vertex.ny v
           + Vertex.nz w * Vertex.nz w
           - (Vertex.nx v * Vertex.nx v + Vertex.ny v * Vertex.ny v
              + Vertex.nz v * Vertex.nz v))
    with (Vertex.nx w * Vertex.nx w + Vertex.nz w * Vertex.nz w
          - ((Vertex.nx v * cos a - Vertex.nz v * sin a)
             * (Vertex.nx v * cos a - Vertex.nz v * sin a)
             + (Vertex.nx v * sin a + Vertex.nz v * cos a)
               * (Vertex.nx v * sin a + Vertex.nz v * cos a))).
  2:{ replace (Vertex.nx v * Vertex.nx v + Vertex.ny v * Vertex.ny v
               + Vertex.nz v * Vertex.nz v)
        with ((Vertex.nx v * Vertex.nx v + Vertex.nz v * Vertex.nz v)
              * (sin a * sin a + cos a * cos a)
              + Vertex.ny v * Vertex.ny v)
        by (rewrite Hsc; ring).
      ring. }
  eapply Rle_trans; [exact S|].
  assert (P1 : 0 <= u * (L * L) * (/ 1000 - u))
    by (repeat apply Rmult_le_pos; lra).
  assert (P2 : 0 <= u * (L * L)) by (repeat apply Rmult_le_pos; lra).
  lra.
Qed.

Lemma transform_vertex_normal_length_witness :
  0 <= / 9007199254740992 <= / 1000
  /\ 0 <= 0
  /\ rounded (/ 9007199254740992) 0 inflated_ops
  /\ within (21 * / 9007199254740992
             * ((norm1 0.3 0.7 + 2 * 0) * (norm1 0.3 0.7 + 2 * 0)))
            (dot (normal_of
                    (Rounded.transform_vertex inflated_ops
                       (vertex 1 2 3 0.3 0.5 0.7 0 0) origin (turn 1) 2.0))
                 (normal_of
                    (Rounded.transform_vertex inflated_ops
                       (vertex 1 2 3 0.3 0.5 0.7 0 0) origin (turn 1) 2.0)))
            (dot (0.3, 0.5, 0.7) (0.3, 0.5, 0.7)).
Proof.
  assert (H1 : 0 <= / 9007199254740992 <= / 1000) by lra.
  assert (H2 : 0 <= 0) by lra.
  pose proof inflated_ops_rounded as H3.
  split; [exact H1|split; [exact H2|split; [exact H3|]]].
  exact (transform_vertex_normal_length inflated_ops (/ 9007199254740992) 0
           (vertex 1 2 3 0.3 0.5 0.7 0 0) origin (turn 1) 2.0 H1 H2 H3).
Defined.

(** X16: in every arithmetic of unit roundoff [u] at most 1/1000, the
    offset of the placement moves every vertex by 100 times itself within
    floating-point tolerance, whatever the scale and the angle: against
    the same transform at the origin, X and Z differ from 100 times the
    offset by at most 19 [u], and Y by at most 7 [u], times the size of
    the transformed coordinate. *)
Theorem transform_vertex_offset (ops : FloatOps) (u tiny : R) (v : Vertex)
    (pos rot : dict) (scale : R) :
  0 <= u <= / 1000 -> 0 <= tiny -> rounded u tiny ops ->
  within (19 * u
          * (100 * (Rabs scale * norm1 (Vertex.x v) (Vertex.z v)
                    + Rabs (get pos "x" 0)) + 401 * tiny))
         (Vertex.x (Rounded.transform_vertex ops v pos rot scale)
          - Vertex.x (Rounded.transform_vertex ops v origin rot scale))
         (100 * get pos "x" 0)
  /\ within (7 * u
             * (100 * (Rabs scale * Rabs (Vertex.y v) + Rabs (get pos "y" 0))
                + 201 * tiny))
            (Vertex.y (Rounded.transform_vertex ops v pos rot scale)
             - Vertex.y (Rounded.transform_vertex ops v origin rot scale))
            (100 * get pos "y" 0)
  /\ within (19 * u
             * (100 * (Rabs scale * norm1 (Vertex.x v) (Vertex.z v)
                       + Rabs (get pos "z" 0)) + 401 * tiny))
            (Vertex.z (Rounded.transform_vertex ops v pos rot scale)
             - Vertex.z (Rounded.transform_vertex ops v origin rot scale))
            (100 * get pos "z" 0).
Proof.
  intros Hu Htiny Hops.
  destruct (transform_vertex_rounded_once ops u tiny v pos rot scale Hu Htiny
              Hops) as (Hx & Hy & Hz & _).
  destruct (transform_vertex_rounded_once ops u tiny v origin rot scale Hu
              Htiny Hops) as (Hx0 & Hy0 & Hz0 & _).
  rewrite !get_origin, Rabs_R0 in Hx0, Hy0, Hz0.
  pose proof (within_sub _ _ _ _ _ _ Hx Hx0) as Dx.
  pose proof (within_sub _ _ _ _ _ _ Hy Hy0) as Dy.
  pose proof (within_sub _ _ _ _ _ _ Hz Hz0) as Dz.
  unfold transform_vertex in Dx, Dy, Dz.
  cbn [Vertex.x Vertex.y Vertex.z] in Dx, Dy, Dz.
  rewrite !get_origin in Dx, Dy, Dz.
  pose proof (norm1_nonneg (Vertex.x v) (Vertex.z v)) as Hm.
  set (m := norm1 (Vertex.x v) (Vertex.z v)) in *.
  pose proof (Rabs_pos scale) as Hs. set (S := Rabs scale) in *.
  pose proof (Rabs_pos (Vertex.y v)) as Hy'. set (Y := Rabs (Vertex.y v)) in *.
  pose proof (Rabs_pos (get pos "x" 0)) as Hpx.
  pose proof (Rabs_pos (get pos "y" 0)) as Hpy.
  pose proof (Rabs_pos (get pos "z" 0)) as Hpz.
  set (PX := Rabs (get pos "x" 0)) in *.
  set (PY := Rabs (get pos "y" 0)) in *.
  set (PZ := Rabs (get pos "z" 0)) in *.
  clearbody m S Y PX PY PZ.
  assert (P1 : 0 <= u * (S * m)) by (repeat apply Rmult_le_pos; lra).
  assert (P2 : 0 <= u * (S * Y)) by (repeat apply Rmult_le_pos; lra).
  assert (P3 : 0 <= u * tiny) by (apply Rmult_le_pos; lra).
  assert (P4 : 0 <= u * PX) by (apply Rmult_le_pos; lra).
  assert (P5 : 0 <= u * PY) by (apply Rmult_le_pos; lra).
  assert (P6 : 0 <= u * PZ) by (apply Rmult_le_pos; lra).
  split; [|split].
  - match type of Dx with within _ _ ?r =>
      replace r with (100 * get pos "x" 0) in Dx by lra end.
    eapply within_weaken; [exact Dx|lra].
  - match type of Dy with within _ _ ?r =>
      replace r with (100 * get pos "y" 0) in Dy by lra end.
    eapply within_weaken; [exact Dy|lra].
  - match type of Dz with within _ _ ?r =>
      replace r with (100 * get pos "z" 0) in Dz by lra end.
    eapply within_weaken; [exact Dz|lra].
Qed.

Lemma transform_vertex_offset_witness :
  0 <= / 9007199254740992 <= / 1000
  /\ 0 <= 0
  /\ rounded (/ 9007199254740992) 0 inflated_ops
  /\ within (19 * / 9007199254740992
             * (100 * (Rabs 2.0 * norm1 1 3 + Rabs (get (turn 5) "x" 0))
                + 401 * 0))
            (Vertex.x
               (Rounded.transform_vertex inflated_ops
                  (vertex 1 2 3 0 1 0 0 0) (turn 5) (turn 1) 2.0)
             - Vertex.x
                 (Rounded.transform_vertex inflated_ops
                    (vertex 1 2 3 0 1 0 0 0) origin (turn 1) 2.0))
            (100 * get (turn 5) "x" 0).
Proof.
  assert (H1 : 0 <= / 9007199254740992 <= / 1000) by lra.
  assert (H2 : 0 <= 0) by lra.
  pose proof inflated_ops_rounded as H3.
  split; [exact H1|split; [exact H2|split; [exact H3|]]].
  exact (proj1 (transform_vertex_offset inflated_ops (/ 9007199254740992) 0
                  (vertex 1 2 3 0 1 0 0 0) (turn 5) (turn 1) 2.0 H1 H2 H3)).
Defined.

(** Two turns at the origin with scale 1, in exact arithmetic. *)
Lemma turns_compose_exact (v : Vertex) (a b : R) :
  transform_vertex (transform_vertex v origin (turn a) 1.0)
                   origin (turn b) 1.0
  = with_position_normal v
      (scale_by 10000 (rotate_y (a + b) (position_of v)))
      (rotate_y (a + b) (normal_of v)).
Proof.
  unfold transform_vertex. rewrite !get_turn, !get_origin.
  unfold with_position_normal, scale_by, rotate_y, position_of, normal_of.
  rewrite cos_plus, sin_plus. cbn.
  assert (E100 : 100.0 = 100) by lra. assert (E1 : 1.0 = 1) by lra.
  rewrite E100, E1. f_equal; ring.
Qed.

(** X17: in every arithmetic of unit roundoff [u] at most 1/1000, two
    turns at the origin with scale 1 compose, within floating-point
    tolerance, into the turn by the sum of the angles with the unit scale
    applied twice: X and Z are within 40 [u], Y within 7 [u], of 10000
    times the size of the original coordinates, the normal within 21 [u]
    of its size. *)
Theorem transform_vertex_turns_compose (ops : FloatOps) (u tiny : R)
    (v : Vertex) (a b : R) :
  0 <= u <= / 1000 -> 0 <= tiny -> rounded u tiny ops ->
  vertex_within
    (40 * u * (10000 * norm1 (Vertex.x v) (Vertex.z v) + 50000 * tiny))
    (7 * u * (10000 * Rabs (Vertex.y v) + 30000 * tiny))
    (21 * u * (norm1 (Vertex.nx v) (Vertex.nz v) + 3 * tiny))
    (Rounded.transform_vertex ops
       (Rounded.transform_vertex ops v origin (turn a) 1.0)
       origin (turn b) 1.0)
    (with_position_normal v
       (scale_by 10000 (rotate_y (a + b) (position_of v)))
       (rotate_y (a + b) (normal_of v))).
Proof.
  intros Hu Htiny Hops.
  destruct (two_turns_rounded ops u tiny v a b Hu Htiny Hops)
    as (Hx & Hy & Hz & Hnx & Hnz).
  rewrite turns_compose_exact in Hx, Hy, Hz, Hnx, Hnz.
  unfold vertex_within. repeat split; assumption.
Qed.

Lemma transform_vertex_turns_compose_witness :
  0 <= / 9007199254740992 <= / 1000
  /\ 0 <= 0
  /\ rounded (/ 9007199254740992) 0 inflated_ops
  /\ vertex_within
       (40 * / 9007199254740992 * (10000 * norm1 1 3 + 50000 * 0))
       (7 * / 9007199254740992 * (10000 * Rabs 2 + 30000 * 0))
       (21 * / 9007199254740992 * (norm1 0.6 0.8 + 3 * 0))
       (Rounded.transform_vertex inflated_ops
          (Rounded.transform_vertex inflated_ops
             (vertex 1 2 3 0.6 0 0.8 0 0) origin (turn 0.5) 1.0)
          origin (turn 0.5) 1.0)
       (with_position_normal (vertex 1 2 3 0.6 0 0.8 0 0)
          (scale_by 10000 (rotate_y (0.5 + 0.5) (1, 2, 3)))
          (rotate_y (0.5 + 0.5) (0.6, 0, 0.8))).
Proof.
  assert (H1 : 0 <= / 9007199254740992 <= / 1000) by lra.
  assert (H2 : 0 <= 0) by lra.
  pose proof inflated_ops_rounded as H3.
  split; [exact H1|split; [exact H2|split; [exact H3|]]].
  exact (transform_vertex_turns_compose inflated_ops (/ 9007199254740992) 0
           (vertex 1 2 3 0.6 0 0.8 0 0) 0.5 0.5 H1 H2 H3).
Defined.

(** ** Names and paths *)

Lemma chars_app (s t : string) : chars (s +:+ t) = chars s ++ chars t.
Proof.
  induction s as [|c s IH]; [reflexivity|].
  change (String c s +:+ t) with (String c (s +:+ t)).
  unfold chars in *. cbn [list_ascii_of_string app]. now rewrite IH.
Qed.

Lemma chars_inj (s t : string) : chars s = chars t -> s = t.
Proof.
  intros H. rewrite <- (string_of_list_ascii_of_string s).
  rewrite <- (string_of_list_ascii_of_string t). unfold chars in H.
  now rewrite H.
Qed.

Lemma chars_string_map (f : ascii -> ascii) (s : string) :
  chars (string_map f s) = map f (chars s).
Proof.
  unfold chars. induction s as [|c s IH]; [reflexivity|].
  cbn [string_map list_ascii_of_string map]. now rewrite IH.
Qed.

Lemma length_string_map (f : ascii -> ascii) (s : string) :
  String.length (string_map f s) = String.length s.
Proof.
  induction s as [|c s IH]; [reflexivity|].
  cbn [string_map String.length]. now rewrite IH.
Qed.

Lemma lowered_char (c : ascii) :
  let c' :=
    (let n := nat_of_ascii c in
     if ((65 <=? n) && (n <=? 90))%nat then ascii_of_nat (n + 32) else c) in
  is_upper c' = false /\ (c <> " "%char -> c' <> " "%char).
Proof.
  destruct c as [[] [] [] [] [] [] [] []]; vm_compute; split; congruence.
Qed.

(** X18: the directory name made from an ASCII park name has the length of the
    park name and holds no space and no capital. *)
Theorem safe_name_characters (park_name : string) :
  isascii park_name = true ->
  String.length (safe_name_of park_name) = String.length park_name
  /\ Forall (fun c => c <> " "%char /\ is_upper c = false)
            (chars (safe_name_of park_name)).
Proof.
  intros _. unfold safe_name_of, lower, replace. split.
  - now rewrite !length_string_map.
  - rewrite !chars_string_map, map_map. apply Forall_map, Forall_forall.
    intros c _. cbv beta.
    destruct (lowered_char (if Ascii.eqb c " " then "_"%char else c))
      as [Hup Hsp].
    split; [|exact Hup]. apply Hsp.
    destruct (Ascii.eqb c " ") eqn:E; [discriminate|].
    now apply Ascii.eqb_neq in E.
Qed.

Lemma safe_name_characters_witness :
  isascii "My Skate Park" = true
  /\ String.length (safe_name_of "My Skate Park")
     = String.length "My Skate Park"
  /\ safe_name_of "My Skate Park" = "my_skate_park".
Proof.
  assert (H : isascii "My Skate Park" = true) by reflexivity.
  split; [exact H|].
  split; [exact (proj1 (safe_name_characters "My Skate Park" H))|].
  reflexivity.
Defined.

Lemma safe_name_no_upper (park_name : string) :
  Forall (fun c => is_upper c = false) (chars (safe_name_of park_name)).
Proof.
  unfold safe_name_of, lower, replace.
  rewrite !chars_string_map, map_map. apply Forall_map, Forall_forall.
  intros c _. cbv beta.
  now destruct (lowered_char (if Ascii.eqb c " " then "_"%char else c)).
Qed.

Lemma os_path_join_absolute (a b : string) :
  String.prefix "/" b = true -> os_path_join a b = b.
Proof. intros H. unfold os_path_join. now rewrite H. Qed.

(** A relative second component is appended to a prefix that depends on
    the first component alone. *)
Lemma os_path_join_relative (a : string) :
  exists pre, forall b,
    String.prefix "/" b = false -> chars (os_path_join a b) = pre ++ chars b.
Proof.
  destruct (String.eqb a "" || endswith "/" a) eqn:E.
  - exists (chars a). intros b Hb. unfold os_path_join. rewrite Hb, E.
    apply chars_app.
  - exists (chars a ++ chars "/"). intros b Hb. unfold os_path_join.
    rewrite Hb, E. rewrite !chars_app. now rewrite app_assoc.
Qed.

Lemma os_path_join_ends (a b : string) :
  exists pre, chars (os_path_join a b) = pre ++ chars b.
Proof.
  destruct (String.prefix "/" b) eqn:E.
  - exists []. now rewrite os_path_join_absolute.
  - destruct (os_path_join_relative a) as [pre H]. exists pre. now apply H.
Qed.

Lemma os_path_join_last (a b : string) (c : ascii) :
  last (chars b) = Some c -> last (chars (os_path_join a b)) = Some c.
Proof.
  intros H. destruct (os_path_join_ends a b) as [pre ->].
  rewrite last_app. now rewrite H.
Qed.

Lemma geometry_not_note (park_name output_dir : string) :
  geometry_path park_name output_dir
  <> textures_note_path park_name output_dir.
Proof.
  intros E. apply (f_equal chars) in E.
  unfold geometry_path, textures_note_path in E.
  set (out := output_path_of park_name output_dir) in *.
  assert (HX : exists X,
             chars (safe_name_of park_name) = X ++ chars "TEXTURES_NEEDED").
  { destruct (String.prefix "/" (safe_name_of park_name +:+ ".txt")) eqn:P.
    - rewrite (os_path_join_absolute _ _ P) in E.
      destruct (os_path_join_ends out "TEXTURES_NEEDED.txt") as [pre Hpre].
      rewrite Hpre in E.
      change (chars "TEXTURES_NEEDED.txt")
        with (chars "TEXTURES_NEEDED" ++ chars ".txt") in E.
      rewrite chars_app, app_assoc in E. apply app_inv_tail in E.
      now exists pre.
    - destruct (os_path_join_relative out) as [pre H].
      rewrite (H _ P), (H "TEXTURES_NEEDED.txt" eq_refl) in E.
      apply app_inv_head in E.
      change (chars "TEXTURES_NEEDED.txt")
        with (chars "TEXTURES_NEEDED" ++ chars ".txt") in E.
      rewrite chars_app in E. apply app_inv_tail in E.
      now exists []. }
  destruct HX as [X HX].
  pose proof (safe_name_no_upper park_name) as Hup. rewrite HX in Hup.
  apply Forall_app in Hup as [_ Hup].
  apply Forall_inv in Hup. discriminate Hup.
Qed.

Lemma export_path_ends (park_name output_dir : string) :
  last (chars (geometry_path park_name output_dir)) = Some "t"%char
  /\ last (chars (metadata_path park_name output_dir)) = Some "n"%char
  /\ last (chars (textures_note_path park_name output_dir)) = Some "t"%char
  /\ last (chars (placeholder_path park_name output_dir)) = Some "g"%char.
Proof.
  split; [|split; [|split]].
  - unfold geometry_path. apply os_path_join_last.
    rewrite chars_app, last_app. reflexivity.
  - unfold metadata_path. now apply os_path_join_last.
  - unfold textures_note_path. now apply os_path_join_last.
  - unfold placeholder_path. now apply os_path_join_last.
Qed.

(** X19: the geometry file, the metadata file, the texture note and the
    placeholder texture have four different paths, whatever the park name
    and the output directory: no write of an export lands on another
    file of the same export. *)
Theorem export_paths_distinct (park_name output_dir : string) :
  NoDup [geometry_path park_name output_dir;
         metadata_path park_name output_dir;
         textures_note_path park_name output_dir;
         placeholder_path park_name output_dir].
Proof.
  destruct (export_path_ends park_name output_dir) as (Hg & Hm & Hn & Hp).
  pose proof (geometry_not_note park_name output_dir) as Hgn.
  repeat constructor; rewrite ?elem_of_cons, ?elem_of_nil;
    intros H; repeat destruct H as [H|H]; try contradiction;
    rewrite H in *; congruence.
Qed.

(** ** The files and the scene of an export *)

Lemma bind_run {A B : Type} (m : IO A) (f : A -> IO B) (s s' : Store) (a : A) :
  m s = (Ok a, s') -> (m ≫= f) s = f a s'.
Proof. intros H. unfold mbind, IO_bind. now rewrite H. Qed.

(** The statements after the loop: they return the output path and leave
    the geometry file, the metadata file and, when no placeholder texture
    is there, the texture note. *)
Lemma after_loop_run (park_name output_dir : string) (s : Store) :
  (after_loop park_name output_dir s).1
  = Ok (output_path_of park_name output_dir)
  /\ files (after_loop park_name output_dir s).2
     = (let written :=
          <[metadata_path park_name output_dir
            := lit (mod_data park_name (safe_name_of park_name +:+ ".txt"))]>
            (<[geometry_path park_name output_dir
               := join (lit newline)
                       (trueskate_lines (all_meshes s) ["concrete_gray"])]>
               (files s)) in
        if bool_decide
             (is_Some (written !! placeholder_path park_name output_dir))
        then written
        else <[textures_note_path park_name output_dir := textures_note]>
               written).
Proof.
  unfold after_loop.
  erewrite bind_run by reflexivity.
  erewrite bind_run by reflexivity.
  erewrite bind_run by reflexivity.
  erewrite bind_run by reflexivity.
  cbn [files]. fold (output_path_of park_name output_dir).
  fold (geometry_path park_name output_dir).
  fold (metadata_path park_name output_dir).
  fold (placeholder_path park_name output_dir).
  fold (textures_note_path park_name output_dir).
  destruct (bool_decide _); split; reflexivity.
Qed.

Lemma first_missing_key_in (obj : Obj.t) (k : string) :
  first_missing_key obj = Some k -> k ∈ ["x"; "y"; "z"].
Proof.
  unfold first_missing_key. cbv zeta. case_keys; intros [= <-]; set_solver.
Qed.

(** The loop body on a descriptor that passes. *)
Lemma process_object_passes (obj : Obj.t) (s : Store) :
  passes obj ->
  exists line,
    process_object obj s
    = (Ok tt,
       mkStore (all_meshes s ++ option_list (placed_mesh obj))
               (stdout s ++ [line]) (files s) (documents s)).
Proof.
  unfold passes, placed_mesh, first_missing_key. cbv zeta.
  destruct (OBJECT_GENERATORS !! default "ground-flat" (Obj.type obj))
    as [generator|] eqn:Hreg.
  - destruct (registry_entries_wf _ _ Hreg) as (mesh & Hgen & _).
    rewrite Hgen. intros [H|H]; [discriminate H|].
    rewrite (process_known obj _ generator mesh s eq_refl Hreg Hgen).
    cbv zeta in *. revert H. case_keys; intros H; try discriminate H.
    eexists. reflexivity.
  - intros _. unfold process_object. rewrite Hreg.
    eexists. cbn [option_list]. rewrite app_nil_r. reflexivity.
Qed.

(** The loop body on a registered descriptor whose position lacks a key. *)
Lemma process_object_key_error (obj : Obj.t) (s : Store) (m : Mesh)
    (k : string) :
  placed_mesh obj = Some m ->
  first_missing_key obj = Some k ->
  process_object obj s
  = (Raise (KeyError k),
     mkStore (all_meshes s ++ [m]) (stdout s) (files s) (documents s)).
Proof.
  unfold placed_mesh, first_missing_key. cbv zeta.
  destruct (OBJECT_GENERATORS !! default "ground-flat" (Obj.type obj))
    as [generator|] eqn:Hreg; [|discriminate].
  destruct (registry_entries_wf _ _ Hreg) as (mesh & Hgen & _).
  rewrite Hgen. intros [= <-].
  rewrite (process_known obj _ generator mesh s eq_refl Hreg Hgen).
  cbv zeta. case_keys; intros H; try discriminate H;
    injection H as <-; reflexivity.
Qed.

Lemma loop_passes (l : list Obj.t) :
  Forall passes l ->
  forall s,
    exists out,
      for_each_io process_object l s
      = (Ok tt,
         mkStore (all_meshes s ++ omap placed_mesh l)
                 (stdout s ++ out) (files s) (documents s)).
Proof.
  induction 1 as [|obj l Hobj _ IH]; intros s.
  - exists []. cbn. rewrite !app_nil_r. now destruct s.
  - destruct (process_object_passes obj s Hobj) as [line E].
    cbn [for_each_io]. rewrite (bind_run _ _ _ _ _ E).
    destruct (IH (mkStore (all_meshes s ++ option_list (placed_mesh obj))
                          (stdout s ++ [line]) (files s) (documents s)))
      as [out E'].
    exists (line :: out). rewrite E'. cbn [all_meshes stdout files documents].
    rewrite <- !app_assoc. cbn [omap list_omap].
    now destruct (placed_mesh obj).
Qed.

Lemma loop_key_error (before after : list Obj.t) (obj : Obj.t) (m : Mesh)
    (k : string) :
  Forall passes before ->
  placed_mesh obj = Some m ->
  first_missing_key obj = Some k ->
  forall s,
    exists out,
      for_each_io process_object (before ++ obj :: after) s
      = (Raise (KeyError k),
         mkStore (all_meshes s ++ omap placed_mesh before ++ [m])
                 (stdout s ++ out) (files s) (documents s)).
Proof.
  intros Hbefore Hm Hk s.
  destruct (loop_passes before Hbefore s) as [out E].
  exists out. rewrite for_each_io_app. rewrite (bind_run _ _ _ _ _ E).
  cbn [for_each_io].
  unfold mbind, IO_bind.
  rewrite (process_object_key_error obj _ m k Hm Hk).
  cbn [all_meshes stdout files documents]. now rewrite <- app_assoc.
Qed.

(** Every object list passes, or has a first descriptor that does not. *)
Lemma loop_cases (l : list Obj.t) :
  Forall passes l
  \/ exists before obj after m k,
       l = before ++ obj :: after
       /\ Forall passes before
       /\ placed_mesh obj = Some m
       /\ first_missing_key obj = Some k.
Proof.
  induction l as [|obj l IH]; [left; constructor|].
  destruct (placed_mesh obj) as [m|] eqn:Hm.
  - destruct (first_missing_key obj) as [k|] eqn:Hk.
    + right. exists [], obj, l, m, k. repeat split; [constructor|assumption..].
    + destruct IH as [IH|(before & o & after & m' & k & -> & Hb & Hm' & Hk')].
      * left. constructor; [now right|exact IH].
      * right. exists (obj :: before), o, after, m', k.
        repeat split; [constructor; [now right|exact Hb]|assumption..].
  - destruct IH as [IH|(before & o & after & m' & k & -> & Hb & Hm' & Hk')].
    + left. constructor; [now left|exact IH].
    + right. exists (obj :: before), o, after, m', k.
      repeat split; [constructor; [now left|exact Hb]|assumption..].
Qed.

(** The export of a document whose descriptors all pass, up to the
    statements after the loop. *)
Lemma export_run_passes (json_path output_dir : string) (s : Store)
    (data : Park.t) :
  documents s !! json_path = Some data ->
  Forall passes (objects_of data) ->
  exists out,
    export_skatepark json_path output_dir s
    = after_loop (park_name_of data) output_dir
        (mkStore (scene_of (objects_of data)) (stdout s ++ out)
                 (files s) (documents s)).
Proof.
  intros Hdoc Hpass. rewrite (export_skatepark_cut _ _ _ _ Hdoc).
  destruct (loop_passes _ Hpass (at_loop_start data s)) as [out E].
  unfold objects_of in *. rewrite (bind_run _ _ _ _ _ E).
  cbn [at_loop_start all_meshes stdout files documents].
  eexists. rewrite <- app_assoc. reflexivity.
Qed.

(** The export of a document with a first descriptor that does not pass. *)
Lemma export_run_key_error (json_path output_dir : string) (s : Store)
    (data : Park.t) (before after : list Obj.t) (obj : Obj.t) (m : Mesh)
    (k : string) :
  documents s !! json_path = Some data ->
  objects_of data = before ++ obj :: after ->
  Forall passes before ->
  placed_mesh obj = Some m ->
  first_missing_key obj = Some k ->
  exists out,
    export_skatepark json_path output_dir s
    = (Raise (KeyError k),
       mkStore (scene_of before ++ [m]) (stdout s ++ out)
               (files s) (documents s)).
Proof.
  intros Hdoc Hobjs Hbefore Hm Hk.
  rewrite (export_skatepark_cut _ _ _ _ Hdoc).
  destruct (loop_key_error before after obj m k Hbefore Hm Hk
              (at_loop_start data s)) as [out E].
  unfold objects_of in Hobjs. rewrite Hobjs.
  unfold mbind, IO_bind. rewrite E.
  cbn [at_loop_start all_meshes stdout files documents].
  eexists. rewrite <- app_assoc. reflexivity.
Qed.

(** X20: when every descriptor passes, the scene the export builds is the
    ground plane followed by the placed mesh of every registered
    descriptor, in the order of the document; descriptors of an
    unregistered type leave nothing, and a document without [objects]
    gives the ground plane alone. *)
Theorem export_scene_in_order (json_path output_dir : string) (s : Store)
    (data : Park.t) :
  documents s !! json_path = Some data ->
  Forall passes (objects_of data) ->
  all_meshes (export_skatepark json_path output_dir s).2
  = scene_of (objects_of data).
Proof.
  intros Hdoc Hpass.
  destruct (export_run_passes json_path output_dir s data Hdoc Hpass)
    as [out ->].
  apply after_loop_keeps_scene.
Qed.

Lemma export_scene_in_order_witness :
  documents (store_with [unknown_object; ledge_placed; untyped_object])
    !! "park.json"
  = Some (Park.mk None (Some [unknown_object; ledge_placed; untyped_object]))
  /\ Forall passes [unknown_object; ledge_placed; untyped_object]
  /\ all_meshes
       (export_skatepark "park.json" "out"
          (store_with [unknown_object; ledge_placed; untyped_object])).2
     = scene_of [unknown_object; ledge_placed; untyped_object].
Proof.
  assert (H1 : documents
                 (store_with [unknown_object; ledge_placed; untyped_object])
                 !! "park.json"
               = Some (Park.mk None
                         (Some [unknown_object; ledge_placed;
                                untyped_object]))) by reflexivity.
  assert (H2 : Forall passes [unknown_object; ledge_placed; untyped_object]).
  { apply List.Forall_cons; [left; reflexivity|].
    apply List.Forall_cons; [right; reflexivity|].
    apply List.Forall_cons; [right; reflexivity|apply List.Forall_nil]. }
  split; [exact H1|split; [exact H2|]].
  exact (export_scene_in_order "park.json" "out" _ _ H1 H2).
Defined.

(** X21: the first registered descriptor whose position lacks "x", "y" or "z"
    stops the export with the [KeyError] of the first key it lacks, after
    its mesh has joined the scene; the descriptors behind it are not
    looked at, and no file is written. *)
Theorem export_stops_at_missing_key (json_path output_dir : string)
    (s : Store) (data : Park.t) (before after : list Obj.t) (obj : Obj.t)
    (m : Mesh) (k : string) :
  documents s !! json_path = Some data ->
  objects_of data = before ++ obj :: after ->
  Forall passes before ->
  placed_mesh obj = Some m ->
  first_missing_key obj = Some k ->
  (export_skatepark json_path output_dir s).1 = Raise (KeyError k)
  /\ files (export_skatepark json_path output_dir s).2 = files s
  /\ all_meshes (export_skatepark json_path output_dir s).2
     = scene_of before ++ [m].
Proof.
  intros Hdoc Hobjs Hbefore Hm Hk.
  destruct (export_run_key_error json_path output_dir s data before after
              obj m k Hdoc Hobjs Hbefore Hm Hk) as [out ->].
  repeat split.
Qed.

Lemma export_stops_at_missing_key_witness :
  documents (store_with [ledge_placed; ledge_at_x; unknown_object])
    !! "park.json"
  = Some (Park.mk None (Some [ledge_placed; ledge_at_x; unknown_object]))
  /\ objects_of (Park.mk None
                   (Some [ledge_placed; ledge_at_x; unknown_object]))
     = [ledge_placed] ++ ledge_at_x :: [unknown_object]
  /\ Forall passes [ledge_placed]
  /\ placed_mesh ledge_at_x
     = Some (place_object (generate_ledge 5.0 0.6 0.8) ledge_at_x)
  /\ first_missing_key ledge_at_x = Some "y"
  /\ (export_skatepark "park.json" "out"
        (store_with [ledge_placed; ledge_at_x; unknown_object])).1
     = Raise (KeyError "y").
Proof.
  assert (H1 : documents
                 (store_with [ledge_placed; ledge_at_x; unknown_object])
                 !! "park.json"
               = Some (Park.mk None
                         (Some [ledge_placed; ledge_at_x; unknown_object])))
    by reflexivity.
  assert (H2 : objects_of
                 (Park.mk None
                    (Some [ledge_placed; ledge_at_x; unknown_object]))
               = [ledge_placed] ++ ledge_at_x :: [unknown_object])
    by reflexivity.
  assert (H3 : Forall passes [ledge_placed]).
  { apply List.Forall_cons; [right; reflexivity|apply List.Forall_nil]. }
  assert (H4 : placed_mesh ledge_at_x
               = Some (place_object (generate_ledge 5.0 0.6 0.8) ledge_at_x))
    by reflexivity.
  assert (H5 : first_missing_key ledge_at_x = Some "y") by reflexivity.
  split; [exact H1|split; [exact H2|split; [exact H3|split; [exact H4|]]]].
  split; [exact H5|].
  exact (proj1 (export_stops_at_missing_key "park.json" "out" _ _ _ _ _ _ _
                  H1 H2 H3 H4 H5)).
Defined.

(** X22: the export has three outcomes. It returns the output path; or it
    raises [FileNotFoundError] for a document that is not there; or it
    raises the [KeyError] of "x", "y" or "z". It raises nothing else, in
    particular no [ZeroDivisionError] of a generator, and whenever it
    raises, the files are as they were before the call. *)
Theorem export_outcomes (json_path output_dir : string) (s : Store) :
  (exists data,
     documents s !! json_path = Some data
     /\ (export_skatepark json_path output_dir s).1
        = Ok (output_path_of (park_name_of data) output_dir))
  \/ (files (export_skatepark json_path output_dir s).2 = files s
      /\ ((documents s !! json_path = None
           /\ (export_skatepark json_path output_dir s).1
              = Raise (FileNotFoundError json_path))
          \/ exists k,
               k ∈ ["x"; "y"; "z"]
               /\ (export_skatepark json_path output_dir s).1
                  = Raise (KeyError k))).
Proof.
  destruct (documents s !! json_path) as [data|] eqn:Hdoc.
  - destruct (loop_cases (objects_of data))
      as [Hpass|(before & obj & after & m & k & Hobjs & Hb & Hm & Hk)].
    + left. exists data. split; [reflexivity|].
      destruct (export_run_passes json_path output_dir s data Hdoc Hpass)
        as [out ->].
      apply after_loop_run.
    + right.
      destruct (export_run_key_error json_path output_dir s data before
                  after obj m k Hdoc Hobjs Hb Hm Hk) as [out ->].
      split; [reflexivity|]. right. exists k.
      split; [exact (first_missing_key_in obj k Hk)|reflexivity].
  - right. rewrite (export_skatepark_no_document _ _ _ Hdoc).
    split; [reflexivity|]. left. split; reflexivity.
Qed.

(** X23: a successful export writes the geometry text of the scene and the
    metadata under their paths, and the texture note exactly when no
    placeholder texture was there before; every other file is as it
    was. *)
Theorem export_writes_files (json_path output_dir : string) (s : Store)
    (data : Park.t) :
  documents s !! json_path = Some data ->
  Forall passes (objects_of data) ->
  files (export_skatepark json_path output_dir s).2
    !! geometry_path (park_name_of data) output_dir
  = Some (geometry_text (scene_of (objects_of data)))
  /\ files (export_skatepark json_path output_dir s).2
       !! metadata_path (park_name_of data) output_dir
     = Some (lit (mod_data (park_name_of data)
                    (safe_name_of (park_name_of data) +:+ ".txt")))
  /\ files (export_skatepark json_path output_dir s).2
       !! textures_note_path (park_name_of data) output_dir
     = (if bool_decide
             (is_Some (files s
                         !! placeholder_path (park_name_of data) output_dir))
        then files s !! textures_note_path (park_name_of data) output_dir
        else Some textures_note)
  /\ forall path,
       path ∉ [geometry_path (park_name_of data) output_dir;
               metadata_path (park_name_of data) output_dir;
               textures_note_path (park_name_of data) output_dir] ->
       files (export_skatepark json_path output_dir s).2 !! path
       = files s !! path.
Proof.
  intros Hdoc Hpass.
  destruct (export_run_passes json_path output_dir s data Hdoc Hpass)
    as [out ->].
  destruct (after_loop_run (park_name_of data) output_dir
              (mkStore (scene_of (objects_of data)) (stdout s ++ out)
                       (files s) (documents s))) as [_ ->].
  cbn [all_meshes files]. cbv zeta. fold (geometry_text (scene_of (objects_of data))).
  destruct (export_path_ends (park_name_of data) output_dir)
    as (Hg & Hm & Hn & Hp).
  pose proof (geometry_not_note (park_name_of data) output_dir) as Hgn.
  set (g := geometry_path (park_name_of data) output_dir) in *.
  set (md := metadata_path (park_name_of data) output_dir) in *.
  set (n := textures_note_path (park_name_of data) output_dir) in *.
  set (p := placeholder_path (park_name_of data) output_dir) in *.
  assert (Hgm : md <> g) by (intros E; rewrite E in *; congruence).
  assert (Hgp : g <> p) by (intros E; rewrite E in *; congruence).
  assert (Hmp : md <> p) by (intros E; rewrite E in *; congruence).
  assert (Hmn : md <> n) by (intros E; rewrite E in *; congruence).
  rewrite (lookup_insert_ne _ md p) by exact Hmp.
  rewrite (lookup_insert_ne _ g p) by exact Hgp.
  destruct (bool_decide (is_Some (files s !! p))).
  - split; [|split; [|split]].
    + rewrite lookup_insert_ne by exact Hgm. apply lookup_insert_eq.
    + apply lookup_insert_eq.
    + rewrite lookup_insert_ne by exact Hmn.
      now rewrite lookup_insert_ne by exact Hgn.
    + intros path Hpath.
      rewrite !not_elem_of_cons in Hpath. destruct Hpath as (H1 & H2 & _).
      rewrite lookup_insert_ne by congruence.
      now rewrite lookup_insert_ne by congruence.
  - split; [|split; [|split]].
    + rewrite lookup_insert_ne by congruence.
      rewrite lookup_insert_ne by exact Hgm. apply lookup_insert_eq.
    + rewrite lookup_insert_ne by congruence. apply lookup_insert_eq.
    + apply lookup_insert_eq.
    + intros path Hpath.
      rewrite !not_elem_of_cons in Hpath.
      destruct Hpath as (H1 & H2 & H3 & _).
      rewrite lookup_insert_ne by congruence.
      rewrite lookup_insert_ne by congruence.
      now rewrite lookup_insert_ne by congruence.
Qed.

Lemma export_writes_files_witness :
  documents (store_with [unknown_object; ledge_placed]) !! "park.json"
  = Some (Park.mk None (Some [unknown_object; ledge_placed]))
  /\ Forall passes [unknown_object; ledge_placed]
  /\ files (export_skatepark "park.json" "out"
              (store_with [unknown_object; ledge_placed])).2
       !! geometry_path "My Skatepark" "out"
     = Some (geometry_text (scene_of [unknown_object; ledge_placed])).
Proof.
  assert (H1 : documents (store_with [unknown_object; ledge_placed])
                 !! "park.json"
               = Some (Park.mk None (Some [unknown_object; ledge_placed])))
    by reflexivity.
  assert (H2 : Forall passes [unknown_object; ledge_placed]).
  { apply List.Forall_cons; [left; reflexivity|].
    apply List.Forall_cons; [right; reflexivity|apply List.Forall_nil]. }
  split; [exact H1|split; [exact H2|]].
  exact (proj1 (export_writes_files "park.json" "out" _ _ H1 H2)).
Defined.

(** ** The meshes of the scene *)

Lemma sound_vertices_white (l : list Vertex) :
  Forall sound_vertex l -> Forall white l.
Proof. intros H. eapply Forall_impl; [exact H|]. now intros v [Hw _]. Qed.

Lemma box_white (w h d ox oy oz : R) (k : Z) :
  Forall white (vertices (set_material_index k (generate_box w h d ox oy oz))).
Proof.
  unfold set_material_index. cbn [vertices].
  apply sound_vertices_white, generate_box_sound.
Qed.

(** Every entry of the registry, called as the assembler calls it, returns
    white vertices. *)
Lemma registry_entries_white (obj_type : string) (generator : Generator)
    (m : Mesh) :
  OBJECT_GENERATORS !! obj_type = Some generator ->
  generator tt = Ok m ->
  Forall white (vertices m).
Proof.
  intros H. apply elem_of_list_to_map_2 in H.
  repeat (apply elem_of_cons in H as [H|H];
          [apply (f_equal snd) in H; cbn [snd] in H; subst generator;
           cbv beta|]).
  16: now apply elem_of_nil in H.
  all: intros E.
  - injection E as <-. unfold generate_ground_flat. apply box_white.
  - injection E as <-. apply generate_slope_white.
  - apply sound_vertices_white. now apply generate_quarter_pipe_sound in E.
  - apply sound_vertices_white. now apply generate_quarter_pipe_sound in E.
  - injection E as <-. apply sound_vertices_white, generate_kicker_sound.
  - apply sound_vertices_white. now apply generate_pyramid_sound in E.
  - injection E as <-. apply sound_vertices_white, generate_rail_sound.
  - injection E as <-. apply sound_vertices_white, generate_rail_sound.
  - injection E as <-. unfold generate_ledge. apply box_white.
  - injection E as <-. unfold generate_manual_pad. apply box_white.
  - injection E as <-. apply sound_vertices_white, generate_stairs_sound.
  - injection E as <-. apply sound_vertices_white, generate_stairs_sound.
  - injection E as <-. apply sound_vertices_white, generate_stairs_sound.
  - injection E as <-. apply sound_vertices_white, generate_bench_sound.
  - injection E as <-. apply sound_vertices_white, generate_box_sound.
Qed.

(** Placing a mesh keeps its index list, its vertex count and the colour
    of its vertices. *)
Lemma place_exported (m : Mesh) (pos rot : dict) (scale : R) :
  exported_mesh m -> exported_mesh (place m pos rot scale).
Proof.
  intros [[Hmod Hidx] Hwhite]. unfold exported_mesh, mesh_wf, place.
  cbn [vertices indices]. unfold len in *. rewrite length_map.
  split; [split; assumption|].
  apply Forall_forall. intros v Hv. apply list_elem_of_In, in_map_iff in Hv.
  destruct Hv as (v0 & <- & Hv0). apply list_elem_of_In in Hv0.
  rewrite Forall_forall in Hwhite. exact (Hwhite v0 Hv0).
Qed.

Lemma ground_plane_exported : exported_mesh ground_plane.
Proof.
  unfold ground_plane.
  assert (H : exported_mesh (generate_ground_flat 50.0)).
  { split.
    - unfold generate_ground_flat. apply set_material_index_wf, generate_box_wf.
    - unfold generate_ground_flat. apply box_white. }
  apply (place_exported _ (list_to_map [("x", 0); ("y", -0.25); ("z", 0)])
           (list_to_map [("y", 0)]) 1.0) in H.
  destruct H as [Hwf Hwhite]. split; [|exact Hwhite].
  now apply set_material_index_wf.
Qed.

Lemma placed_mesh_exported (obj : Obj.t) (m : Mesh) :
  placed_mesh obj = Some m -> exported_mesh m.
Proof.
  unfold placed_mesh. cbv zeta.
  destruct (OBJECT_GENERATORS !! default "ground-flat" (Obj.type obj))
    as [generator|] eqn:Hreg; [|discriminate].
  destruct (registry_entries_wf _ _ Hreg) as (mesh & Hgen & Hwf).
  rewrite Hgen. intros [= <-]. apply place_exported.
  split; [exact Hwf|exact (registry_entries_white _ _ _ Hreg Hgen)].
Qed.

Lemma scene_of_exported (objects : list Obj.t) :
  Forall exported_mesh (scene_of objects).
Proof.
  unfold scene_of. apply List.Forall_cons; [apply ground_plane_exported|].
  induction objects as [|obj l IH]; [apply List.Forall_nil|].
  cbn [omap list_omap]. destruct (placed_mesh obj) as [m|] eqn:Hm; [|exact IH].
  apply List.Forall_cons; [exact (placed_mesh_exported obj m Hm)|exact IH].
Qed.

(** X24: whatever the objects of the document and whether the export returns
    or raises on a position, every mesh of the scene it leaves has an
    index count that is a multiple of 3, indices local to the mesh, and
    opaque white vertices: placement never breaks what the generators
    give. *)
Theorem export_scene_meshes (json_path output_dir : string) (s : Store)
    (data : Park.t) :
  documents s !! json_path = Some data ->
  Forall exported_mesh (all_meshes (export_skatepark json_path output_dir s).2).
Proof.
  intros Hdoc.
  destruct (loop_cases (objects_of data))
    as [Hpass|(before & obj & after & m & k & Hobjs & Hb & Hm & Hk)].
  - destruct (export_run_passes json_path output_dir s data Hdoc Hpass)
      as [out ->].
    rewrite after_loop_keeps_scene. apply scene_of_exported.
  - destruct (export_run_key_error json_path output_dir s data before
                after obj m k Hdoc Hobjs Hb Hm Hk) as [out ->].
    cbn [snd all_meshes]. apply Forall_app. split.
    + apply scene_of_exported.
    + apply List.Forall_cons; [exact (placed_mesh_exported obj m Hm)|].
      apply List.Forall_nil.
Qed.

Lemma export_scene_meshes_witness :
  documents (store_with [ledge_placed; ledge_at_x]) !! "park.json"
  = Some (Park.mk None (Some [ledge_placed; ledge_at_x]))
  /\ Forall exported_mesh
       (all_meshes
          (export_skatepark "park.json" "out"
             (store_with [ledge_placed; ledge_at_x])).2).
Proof.
  assert (H1 : documents (store_with [ledge_placed; ledge_at_x])
                 !! "park.json"
               = Some (Park.mk None (Some [ledge_placed; ledge_at_x])))
    by reflexivity.
  split; [exact H1|].
  exact (export_scene_meshes "park.json" "out" _ _ H1).
Defined.

(** ** The line count of the geometry file *)

Lemma len_flat_map_total {A B : Type} (f : A -> list B) (l : list A) :
  len (flat_map f l) = fold_right Z.add 0%Z (map (fun a => len (f a)) l).
Proof.
  unfold len. induction l as [|a l IH]; [reflexivity|].
  cbn [flat_map map fold_right]. rewrite length_app. lia.
Qed.

Lemma len_vertex_blocks (meshes : list Mesh) :
  len (flat_map vertex_block meshes) = (18 * total_vertices meshes)%Z.
Proof.
  rewrite len_flat_map_total. unfold total_vertices.
  induction meshes as [|m l IH]; [reflexivity|].
  cbn [map fold_right]. rewrite IH.
  unfold vertex_block, len.
  rewrite (length_flat_map_chunks _ 18) by reflexivity. lia.
Qed.

Lemma len_index_blocks (meshes : list Mesh) :
  len (flat_map index_block meshes) = total_indices meshes.
Proof.
  rewrite len_flat_map_total. unfold total_indices.
  induction meshes as [|m l IH]; [reflexivity|].
  cbn [map fold_right]. rewrite IH.
  unfold index_block, len. now rewrite length_map.
Qed.

Lemma len_front_matter (textures : list string) :
  len (front_matter textures) = (8 + len textures)%Z.
Proof.
  unfold front_matter. rewrite len_app. unfold len.
  rewrite length_map. cbn [length]. lia.
Qed.

Lemma len_mesh_headers (meshes : list Mesh) :
  len (flat_map mesh_header meshes) = (7 * len meshes)%Z.
Proof.
  unfold len. rewrite (length_flat_map_chunks _ 7) by reflexivity. lia.
Qed.

(** X25: the lines the format writer builds are 154 fixed lines, one line
    per texture, 7 per mesh, 18 per vertex and one per index; when its
    write succeeds, it has replaced the file under the output path and
    reported that line count on the console, and the scene and the other
    files are as they were. *)
Theorem write_trueskate_txt_effect (meshes : list Mesh)
    (textures : list string) (output_path : string) (s : Store) :
  (write_trueskate_txt meshes textures output_path s).1 = Ok tt ->
  len (trueskate_lines meshes textures)
  = (154 + len textures + 7 * len meshes
     + 18 * total_vertices meshes + total_indices meshes)%Z
  /\ (write_trueskate_txt meshes textures output_path s).2
     = mkStore
         (all_meshes s)
         (stdout s
            ++ [lit ("Wrote " +:+ output_path +:+ " ("
                     +:+ str (154 + len textures + 7 * len meshes
                              + 18 * total_vertices meshes
                              + total_indices meshes)%Z
                     +:+ " lines)")])
         (<[output_path := join (lit newline) (trueskate_lines meshes textures)]>
            (files s))
         (documents s).
Proof.
  intros _.
  assert (Hlen : len (trueskate_lines meshes textures)
                 = (154 + len textures + 7 * len meshes
                    + 18 * total_vertices meshes + total_indices meshes)%Z).
  { rewrite trueskate_lines_layout, !len_app.
    rewrite len_front_matter, len_mesh_headers.
    rewrite len_vertex_blocks, len_index_blocks.
    change (len material_table) with 145%Z.
    change (len [vertex_count_line meshes]) with 1%Z. lia. }
  split; [exact Hlen|].
  unfold write_trueskate_txt. cbv zeta. rewrite Hlen. reflexivity.
Qed.

Lemma write_trueskate_txt_effect_witness :
  (write_trueskate_txt [ground_plane] ["concrete_gray"] "out/park.txt"
     (store_with [])).1 = Ok tt
  /\ len (trueskate_lines [ground_plane] ["concrete_gray"]) = 630%Z.
Proof.
  assert (H : (write_trueskate_txt [ground_plane] ["concrete_gray"]
                 "out/park.txt" (store_with [])).1 = Ok tt) by reflexivity.
  split; [exact H|].
  exact (proj1 (write_trueskate_txt_effect [ground_plane] ["concrete_gray"]
                  "out/park.txt" (store_with []) H)).
Defined.
